(** * Braiser: the task orchestration engine of the browser-automation extension

    A shallow embedding of the TypeScript sources:
    - [types/index.ts]                        -> module [Types]
    - [services/ai/response-parser.ts]        -> module [Parser]
    - [services/ai-client.ts] (STORE/PRINT)   -> module [AIClient]
    - [content/index.ts] (page-state sender)  -> module [Content]
    - [background/index.ts], the revision with the error counter
      ([errorCount], [MAX_ERRORS], debounced page-state updates) -> module [Budget]
    - [background/index.ts], the revision with the running guard and the
      three-attempt retry loop                 -> module [Retry]
    - [background/index.ts], the revision with the error counter, as the
      event loop runs it: one handler at a time up to its next [await], with
      the calls in flight and the timers armed -> module [Live]
    - [services/storage.ts], [AIClient.getProvider] and
      [OpenAIProvider.generateCompletion]      -> module [Storage]
    - [services/dom-extractor.ts]              -> module [Extractor]
    - [content/index.ts] (message listener, initial state, mutation
      observer)                                -> module [Page]
    - [popup/App.tsx] (the list of tasks)      -> module [Popup]
    - [components/TaskHistory.tsx]             -> module [History]

    JavaScript strings are [string]s, one character per code unit.  Calls
    that leave the service worker (the language model, the content script,
    the tabs and scripting API, the clock) are answered by an environment
    record that is a function of the effects performed so far; in module
    [Live] they settle as inputs of the event loop. *)

From stdpp Require Import base strings list pretty gmap.
From Stdlib Require Import ZArith Lia.

Open Scope string_scope.
Open Scope list_scope.
Open Scope nat_scope.

(** ** Common data: [types/index.ts] *)
Module Types.

(** The line-feed character of ['\n']. *)
Definition LF : string := String (Ascii.ascii_of_nat 10) "".

(** The double-quote character. *)
Definition QUOTE : string := String (Ascii.ascii_of_nat 34) "".

(** [payload?: Record<string, any>], restricted to the properties the
    code reads, each at the type the prompt documents; [None] is a
    property that is absent (JavaScript [undefined]). *)
Record Payload := mkPayload {
  url : option string;
  selector : option string;
  text : option string;
  append : option bool;
  direction : option string;
  amount : option Z;
  reason : option string
}.

Definition noPayload : Payload := mkPayload None None None None None None None.

(** [interface AIAction]; [type] is kept as the string the switch
    statements compare. *)
Record AIAction := mkAction {
  type : string;
  payload : option Payload
}.

Record StoredData := mkStored {
  sd_text : string;
  sd_timestamp : Z
}.

(** [interface AIResponse].  The callers test [response.action] for
    truthiness, so the field is optional here. *)
Record AIResponse := mkResponse {
  action : option AIAction;
  reasoning : string;
  completed : bool;
  failed : bool;
  storedData : option StoredData
}.

(** The outcome rule the data model states for a decision: exactly one
    of "action present", [completed], [failed] holds, and a present
    action excludes both flags. *)
Definition exactlyOne (a b c : bool) : bool :=
  (a && negb b && negb c) || (negb a && b && negb c) || (negb a && negb b && c).

Definition singleOutcome (r : AIResponse) : Prop :=
  exactlyOne (bool_decide (is_Some (action r))) (completed r) (failed r) = true
  ∧ (is_Some (action r) → completed r = false ∧ failed r = false).

(** What [throw] carries. *)
Inductive JsError :=
| Error (message : string)
| TypeError (reading : string).

Definition message_of (e : JsError) : string :=
  match e with
  | Error m => m
  | TypeError p => "Cannot read properties of undefined (reading '" +:+ p +:+ "')"
  end.

(** A settled promise: fulfilled with a value or rejected with an error. *)
Inductive Settled (A : Type) :=
| Fulfilled (a : A)
| Rejected (e : JsError).
Arguments Fulfilled {A} a.
Arguments Rejected {A} e.

(** [interface PageElement] and [interface PageState]. *)
Record PageElement := mkElement {
  el_type : string;
  el_text : option string;
  el_isVisible : bool;
  el_path : string
}.

Record PageState := mkPageState {
  ps_url : string;
  ps_title : string;
  ps_elements : list PageElement;
  ps_timestamp : Z
}.

(** The values the code assigns to [ExecutionState.status]; ['failed']
    is assigned although the interface does not list it. *)
Inductive Status := SIdle | SRunning | SPaused | SError | SStopped | SFailed.

Inductive LogKind := info | warning | error.

(** An element of [ExecutionState.logs]: an [ExecutionLog] object, or a
    bare string where the code pushes one. *)
Inductive LogLine :=
| LogObject (kind : LogKind) (message : option string) (timestamp : string)
| LogString (line : string).

(** [interface ExecutionState]. *)
Record ExecutionState := mkExec {
  status : Status;
  currentStep : nat;
  totalSteps : nat;
  currentAction : option AIAction;
  error_ : option string;
  logs : list LogLine
}.

(** [{ success: boolean; error?: string }]. *)
Record ActionResult := mkResult {
  success : bool;
  error_message : option string
}.

(** [Partial<ExecutionState>] as the calls of [updateExecutionState]
    build it. *)
Record Updates := mkUpdates {
  u_status : option Status;
  u_currentStep : option nat;
  u_currentAction : option AIAction;
  u_error : option string;
  u_logs : option (list LogLine)
}.

Definition noUpdates : Updates := mkUpdates None None None None None.

(** [{ ...this.executionState, ...updates, totalSteps: 0 }]. *)
Definition merge (e : ExecutionState) (u : Updates) : ExecutionState :=
  {| status := default (status e) (u_status u);
     currentStep := default (currentStep e) (u_currentStep u);
     totalSteps := 0;
     currentAction := match u_currentAction u with
                      | Some a => Some a
                      | None => currentAction e
                      end;
     error_ := match u_error u with
               | Some m => Some m
               | None => error_ e
               end;
     logs := default (logs e) (u_logs u) |}.

(** The calls that leave the service worker, in the order they are made. *)
Inductive Effect :=
| Decide (prompt : string) (pageState : option PageState) (lastResult : option ActionResult)
    (* this.aiClient.getNextAction(prompt, pageState, lastActionResult) *)
| Perform (a : AIAction)
    (* the action handed to the executor switch *)
| SendToTab (tabId : Z) (command : string) (pl : option Payload)
    (* this.executeInTab(tabId, command, payload) *)
| TabsUpdate (tabId : Z) (target : option string)
    (* chrome.tabs.update(tabId, { url }) *)
| Inject (tabId : Z)
    (* chrome.scripting.executeScript({ target, files }) *)
| Sleep (delay : Z)
    (* await new Promise(resolve => setTimeout(resolve, delay)) *)
| Received (state : PageState)
    (* console.log('Received page state update:', state) *).

(** How a navigation of the target tab goes: an error reported by
    [chrome.tabs.update], and the time in milliseconds after which the
    tab reports [status === 'complete'], if it ever does. *)
Record TabLoad := mkTabLoad {
  updateError : option JsError;
  completeAfter : option Z
}.

(** The tab reports no error and does not complete loading before
    [window] milliseconds have passed. *)
Definition neverLoaded (window : Z) (load : TabLoad) : Prop :=
  updateError load = None ∧ ∀ elapsed, completeAfter load = Some elapsed → (window ≤ elapsed)%Z.

(** The world outside the service worker.  Each answer may depend on
    everything that was done before it. *)
Record Env := mkEnv {
  model : list Effect → Settled AIResponse;
  tab : list Effect → Settled ();
  scripting : list Effect → Settled ();
  loading : list Effect → TabLoad;
  date : list Effect → string;          (* new Date().toISOString() *)
  stringify : AIAction → string         (* JSON.stringify(action) *)
}.

(** The two readings of the clock the code takes. *)
Record Clock := mkClock {
  iso : string;  (* new Date().toISOString() *)
  ms : Z         (* Date.now() *)
}.

#[global] Instance Payload_eq_dec : EqDecision Payload.
Proof. solve_decision. Defined.
#[global] Instance AIAction_eq_dec : EqDecision AIAction.
Proof. solve_decision. Defined.

End Types.
Export Types.

(** ** [services/ai/response-parser.ts] *)
Module Parser.

(** [parsed.action] as [JSON.parse] delivers it: the [type] property may
    be missing. *)
Record RawAction := mkRawAction {
  r_type : option string;
  r_payload : option Payload
}.

(** The object [JSON.parse(jsonMatch[0])] returns. *)
Record ParsedObject := mkParsed {
  p_action : option RawAction;
  p_reasoning : option string
}.

(** The raw completion, by what the first two statements of [parse] make
    of it. *)
Inductive RawResponse :=
| NoJson                       (* rawResponse.match(...) is null *)
| BadJson                      (* JSON.parse throws *)
| Json (parsed : ParsedObject).

(** Truthiness of a string-valued property. *)
Definition truthy (o : option string) : option string :=
  match o with
  | Some "" => None
  | other => other
  end.

(** [AIResponseParser.parse]: every failure inside the [try] is replaced
    by the one error of the [catch]. *)
Definition parse (rawResponse : RawResponse) : Settled AIResponse :=
  match rawResponse with
  | NoJson => Rejected (Error "Invalid AI response format")
  | BadJson => Rejected (Error "Invalid AI response format")
  | Json parsed =>
      match p_action parsed with
      | None => Rejected (Error "Invalid AI response format")
      | Some raw =>
          match truthy (r_type raw) with
          | None => Rejected (Error "Invalid AI response format")
          | Some ty =>
              Fulfilled
                {| action := Some (mkAction ty (r_payload raw));
                   reasoning := default "" (truthy (p_reasoning parsed));
                   completed := bool_decide (ty = "COMPLETE");
                   failed := bool_decide (ty = "FAILED");
                   storedData := None |}
          end
      end
  end.

End Parser.

(** ** [services/ai-client.ts], the revision with STORE and PRINT *)
Module AIClient.
Import Parser.

Record HistoryEntry := mkEntry {
  h_action : option AIAction;
  h_reasoning : string;
  h_timestamp : string;
  h_success : bool
}.

Record t := mkClient {
  actionHistory : list HistoryEntry;
  currentStoredData : string
}.

Definition create : t := mkClient [] "".

Definition MAX_STORED_LENGTH : nat := 2000.
Definition MAX_PRINT_LENGTH : nat := 2000.

(** [text.slice(0, n)] for [0 <= n]. *)
Fixpoint slice0 (n : nat) (s : string) : string :=
  match n, s with
  | S n', String c s' => String c (slice0 n' s')
  | _, _ => ""
  end.

Definition validateStoredData (text : string) : string :=
  if decide (MAX_STORED_LENGTH < String.length text)
  then slice0 MAX_STORED_LENGTH text
  else text.

Definition validatePrintData (text : string) : string :=
  if decide (MAX_PRINT_LENGTH < String.length text)
  then slice0 MAX_PRINT_LENGTH text
  else text.

(** [Array.prototype.shift]. *)
Definition shift {A} (l : list A) : list A := tail l.

Definition addToHistory (now : Clock) (response : AIResponse) (success : bool)
    (c : t) : t :=
  let pushed :=
    actionHistory c ++
      [ {| h_action := action response;
           h_reasoning := reasoning response;
           h_timestamp := iso now;
           h_success := success |} ] in
  {| actionHistory := if decide (10 < length pushed) then shift pushed else pushed;
     currentStoredData := currentStoredData c |}.

(** [this.actionHistory[this.actionHistory.length - 1].success = false],
    guarded by [length > 0]. *)
Definition markLastFailed (h : list HistoryEntry) : list HistoryEntry :=
  match length h with
  | 0 => h
  | S i => alter (fun e => {| h_action := h_action e;
                              h_reasoning := h_reasoning e;
                              h_timestamp := h_timestamp e;
                              h_success := false |}) i h
  end.

(** What [getProvider] and [provider.generateCompletion] deliver. *)
Inductive Completion :=
| NotConfigured
| ProviderError (e : JsError)
| Completed (rawResponse : RawResponse).

(** The body of the [try] block of [getNextAction] after the completion
    has arrived: the STORE / PRINT / COMPLETE / FAILED handling and
    [addToHistory]. *)
Definition handleParsed (now : Clock) (parsedResponse : AIResponse) (c : t)
    : Settled AIResponse * t :=
  match action parsedResponse with
  | None => (Rejected (TypeError "type"), c)
  | Some a =>
      if decide (type a = "STORE") then
        match payload a with
        | None => (Rejected (TypeError "text"), c)
        | Some pl =>
            match text pl with
            | None => (Rejected (TypeError "length"), c)
            | Some txt =>
                let newText := validateStoredData txt in
                let stored :=
                  if bool_decide (append pl = Some true)
                     && negb (bool_decide (currentStoredData c = ""))
                  then currentStoredData c +:+ LF +:+ newText
                  else newText in
                let c1 := mkClient (actionHistory c) stored in
                let r := {| action := action parsedResponse;
                            reasoning := reasoning parsedResponse;
                            completed := completed parsedResponse;
                            failed := failed parsedResponse;
                            storedData := Some (mkStored stored (ms now)) |} in
                (Fulfilled r, addToHistory now r true c1)
            end
        end
      else if decide (type a = "PRINT") then
        match payload a with
        | None => (Rejected (TypeError "text"), c)
        | Some pl =>
            match text pl with
            | None => (Rejected (TypeError "length"), c)
            | Some txt =>
                let pl' := mkPayload (url pl) (selector pl)
                             (Some (validatePrintData txt)) (append pl)
                             (direction pl) (amount pl) (reason pl) in
                let r := {| action := Some (mkAction (type a) (Some pl'));
                            reasoning := reasoning parsedResponse;
                            completed := completed parsedResponse;
                            failed := failed parsedResponse;
                            storedData := storedData parsedResponse |} in
                (Fulfilled r, addToHistory now r true c)
            end
        end
      else if decide (type a = "COMPLETE" ∨ type a = "FAILED") then
        let c1 := mkClient (actionHistory c) "" in
        (Fulfilled parsedResponse, addToHistory now parsedResponse true c1)
      else
        (Fulfilled parsedResponse, addToHistory now parsedResponse true c)
  end.

(** The [catch] block of [getNextAction]: the state reached inside the
    [try] is kept, the last history entry is marked, the error rethrown. *)
Definition onError {A} (e : JsError) (c : t) : Settled A * t :=
  (Rejected e, mkClient (markLastFailed (actionHistory c)) (currentStoredData c)).

(** [AIClient.getNextAction].  The prompt text only reads the state, so
    the call is determined by what the provider answers. *)
Definition getNextAction (now : Clock) (answer : Completion) (c : t)
    : Settled AIResponse * t :=
  match answer with
  | NotConfigured =>
      onError (Error "AI provider not configured. Please set up your API key.") c
  | ProviderError e => onError e c
  | Completed rawResponse =>
      match parse rawResponse with
      | Rejected e => onError e c
      | Fulfilled parsedResponse =>
          match handleParsed now parsedResponse c with
          | (Rejected e, c') => onError e c'
          | ok => ok
          end
      end
  end.

(** [AIClient.getNextAction] of the revision without STORE and PRINT:
    parse, add to the history, return. *)
Definition getNextActionPlain (now : Clock) (answer : Completion) (c : t)
    : Settled AIResponse * t :=
  match answer with
  | NotConfigured =>
      onError (Error "AI provider not configured. Please set up your API key.") c
  | ProviderError e => onError e c
  | Completed rawResponse =>
      match parse rawResponse with
      | Rejected e => onError e c
      | Fulfilled parsedResponse =>
          (Fulfilled parsedResponse, addToHistory now parsedResponse true c)
      end
  end.

(** A session: the calls made on one client through [call] (either
    revision of [getNextAction]), oldest first, with what each returned. *)
Fixpoint session (call : Clock → Completion → t → Settled AIResponse * t)
    (calls : list (Clock * Completion)) (c : t)
    : list (Settled AIResponse) * t :=
  match calls with
  | [] => ([], c)
  | (now, answer) :: rest =>
      let '(r, c1) := call now answer c in
      let '(rs, c2) := session call rest c1 in
      (r :: rs, c2)
  end.

(** The response the model gives for a STORE action. *)
Definition storeResponse (txt : string) (app : option bool) : Completion :=
  Completed (Json (mkParsed
    (Some (mkRawAction (Some "STORE")
       (Some (mkPayload None None (Some txt) app None None None))))
    None)).

Definition printResponse (txt : string) : Completion :=
  Completed (Json (mkParsed
    (Some (mkRawAction (Some "PRINT")
       (Some (mkPayload None None (Some txt) None None None None))))
    None)).

(** The history the claim describes, without the bound: every returned
    response appended in order, a failed call marking the newest entry. *)
Definition view (e : HistoryEntry) : option AIAction * string * bool :=
  (h_action e, h_reasoning e, h_success e).

Definition clearLast (l : list (option AIAction * string * bool))
    : list (option AIAction * string * bool) :=
  match length l with
  | 0 => l
  | S i => alter (fun '(a, r, _) => (a, r, false)) i l
  end.

Fixpoint unboundedHistory (outcomes : list (Settled AIResponse))
    (acc : list (option AIAction * string * bool))
    : list (option AIAction * string * bool) :=
  match outcomes with
  | [] => acc
  | Fulfilled r :: rest => unboundedHistory rest (acc ++ [(action r, reasoning r, true)])
  | Rejected _ :: rest => unboundedHistory rest (clearLast acc)
  end.

(** The [n] most recent elements. *)
Definition lastn {A} (n : nat) (l : list A) : list A := drop (length l - n) l.

End AIClient.

(** ** [content/index.ts]: the sender of page states *)
Module Content.

(** The object [hashState] serialises.  [JSON.stringify] writes its four
    properties in this order and is injective on them, so the strings it
    returns are compared by comparing the components. *)
Record Fingerprint := mkFingerprint {
  f_url : string;
  f_title : string;
  f_elementCount : nat;
  f_visibleElements : string
}.

#[global] Instance Fingerprint_eq_dec : EqDecision Fingerprint.
Proof. solve_decision. Defined.

(** [Array.prototype.join]. *)
Fixpoint join (sep : string) (l : list string) : string :=
  match l with
  | [] => ""
  | [x] => x
  | x :: rest => x +:+ sep +:+ join sep rest
  end.

Definition hashState (state : PageState) : Fingerprint :=
  {| f_url := ps_url state;
     f_title := ps_title state;
     f_elementCount := length (ps_elements state);
     f_visibleElements :=
       join "|"
         ((λ el, el_type el +:+ ":" +:+ el_path el +:+ ":"
                   +:+ default "undefined" (el_text el))
            <$> filter (λ el, el_isVisible el = true) (ps_elements state)) |}.

(** The fields of [class ContentScript], and the PAGE_STATE_UPDATE
    messages sent so far (not a field of the class). *)
Record t := mkContent {
  debounceTimeout : option Z;          (* due time of the pending timer *)
  lastStateHash : option Fingerprint;
  isInitialStateSet : bool;
  sent : list PageState
}.

Definition create : t := mkContent None None false [].

(** [sendPageState] on the page as it is now. *)
Definition sendPageState (state : PageState) (c : t) : t :=
  let stateHash := hashState state in
  if negb (isInitialStateSet c) || negb (bool_decide (Some stateHash = lastStateHash c))
  then mkContent (debounceTimeout c) (Some stateHash) true (sent c ++ [state])
  else c.

Inductive MutationType := childList | characterData | attributes.

#[global] Instance MutationType_eq_dec : EqDecision MutationType.
Proof. solve_decision. Defined.

(** What [handleDOMChanges] reads of a [MutationRecord]. *)
Record MutationRecord := mkMutation {
  m_type : MutationType;
  m_attributeName : option string;
  m_targetHidden : bool;     (* target is an Element that isHidden *)
  m_targetIsInput : bool     (* target instanceof HTMLInputElement *)
}.

Definition significant (c : t) (m : MutationRecord) : bool :=
  if negb (isInitialStateSet c) then true
  else if bool_decide (m_type m = attributes ∧ m_attributeName m = Some "style") then false
  else if m_targetHidden m then false
  else if m_targetIsInput m
       then bool_decide (m_type m = attributes ∧ m_attributeName m = Some "value")
  else bool_decide (m_type m = childList ∨ m_type m = characterData
                    ∨ (m_type m = attributes
                       ∧ default "" (m_attributeName m)
                           ∈ ["checked"; "selected"; "disabled"; "href"])).

(** [handleDOMChanges] at time [now]: re-arm the 500 ms timer. *)
Definition handleDOMChanges (now : Z) (mutations : list MutationRecord) (c : t) : t :=
  if existsb (significant c) mutations
  then mkContent (Some (now + 500)%Z) (lastStateHash c) (isInitialStateSet c) (sent c)
  else c.

(** The callback of that timer, [() => this.sendPageState()], once the
    clock has reached [now]. *)
Definition advance (now : Z) (page : PageState) (c : t) : t :=
  match debounceTimeout c with
  | Some due =>
      if decide (due ≤ now)%Z
      then sendPageState page
             (mkContent None (lastStateHash c) (isInitialStateSet c) (sent c))
      else c
  | None => c
  end.


End Content.

(** How far a call of an [async] method got. *)
Inductive Outcome (S : Type) :=
| Returned (s : S)              (* the promise was fulfilled *)
| Threw (e : JsError) (s : S)   (* the promise was rejected *)
| Cut (s : S).                  (* still running when the observation ends *)
Arguments Returned {S} s.
Arguments Threw {S} e s.
Arguments Cut {S} s.

Definition state_of {S} (o : Outcome S) : S :=
  match o with
  | Returned s => s
  | Threw _ s => s
  | Cut s => s
  end.

(** ** [background/index.ts], the revision with the error counter *)
Module Budget.

(** The fields of [class BackgroundService], and the effects performed
    so far (not a field of the class). *)
Record t := mkService {
  windowId : option Z;
  targetTabId : option Z;
  targetTabUrl : option string;
  _pageStateUpdateTimeout : option (Z * PageState);  (* due time, captured [state] *)
  executionState : ExecutionState;
  currentTask : option string;                       (* { prompt } *)
  lastPageState : option PageState;
  lastActionResult : ActionResult;
  contentScriptReadyTabs : list Z;
  errorCount : nat;
  effects : list Effect
}.

Definition MAX_ERRORS : nat := 5.

Definition create : t :=
  {| windowId := None; targetTabId := None; targetTabUrl := None;
     _pageStateUpdateTimeout := None;
     executionState := mkExec SIdle 0 0 None None [];
     currentTask := None; lastPageState := None;
     lastActionResult := mkResult true None;
     contentScriptReadyTabs := []; errorCount := 0; effects := [] |}.

Definition setExec (e : ExecutionState) (s : t) : t :=
  mkService (windowId s) (targetTabId s) (targetTabUrl s) (_pageStateUpdateTimeout s)
    e (currentTask s) (lastPageState s) (lastActionResult s)
    (contentScriptReadyTabs s) (errorCount s) (effects s).

Definition setTask (task : option string) (s : t) : t :=
  mkService (windowId s) (targetTabId s) (targetTabUrl s) (_pageStateUpdateTimeout s)
    (executionState s) task (lastPageState s) (lastActionResult s)
    (contentScriptReadyTabs s) (errorCount s) (effects s).

Definition setErrorCount (n : nat) (s : t) : t :=
  mkService (windowId s) (targetTabId s) (targetTabUrl s) (_pageStateUpdateTimeout s)
    (executionState s) (currentTask s) (lastPageState s) (lastActionResult s)
    (contentScriptReadyTabs s) n (effects s).

Definition setLastActionResult (r : ActionResult) (s : t) : t :=
  mkService (windowId s) (targetTabId s) (targetTabUrl s) (_pageStateUpdateTimeout s)
    (executionState s) (currentTask s) (lastPageState s) r
    (contentScriptReadyTabs s) (errorCount s) (effects s).

Definition setLastPageState (p : option PageState) (s : t) : t :=
  mkService (windowId s) (targetTabId s) (targetTabUrl s) (_pageStateUpdateTimeout s)
    (executionState s) (currentTask s) p (lastActionResult s)
    (contentScriptReadyTabs s) (errorCount s) (effects s).

Definition setTimeout (timer : option (Z * PageState)) (s : t) : t :=
  mkService (windowId s) (targetTabId s) (targetTabUrl s) timer
    (executionState s) (currentTask s) (lastPageState s) (lastActionResult s)
    (contentScriptReadyTabs s) (errorCount s) (effects s).

Definition setReadyTabs (tabs : list Z) (s : t) : t :=
  mkService (windowId s) (targetTabId s) (targetTabUrl s) (_pageStateUpdateTimeout s)
    (executionState s) (currentTask s) (lastPageState s) (lastActionResult s)
    tabs (errorCount s) (effects s).

(** Record one more call to the outside. *)
Definition perform (e : Effect) (s : t) : t :=
  mkService (windowId s) (targetTabId s) (targetTabUrl s) (_pageStateUpdateTimeout s)
    (executionState s) (currentTask s) (lastPageState s) (lastActionResult s)
    (contentScriptReadyTabs s) (errorCount s) (effects s ++ [e]).

Definition setStatus (st : Status) (e : ExecutionState) : ExecutionState :=
  mkExec st (currentStep e) (totalSteps e) (currentAction e) (error_ e) (logs e).

(** [this.executionState.logs.push(line)]. *)
Definition pushLog (line : LogLine) (e : ExecutionState) : ExecutionState :=
  mkExec (status e) (currentStep e) (totalSteps e) (currentAction e) (error_ e)
    (logs e ++ [line]).

Definition stepUp (e : ExecutionState) : ExecutionState :=
  mkExec (status e) (currentStep e + 1) (totalSteps e) (currentAction e) (error_ e)
    (logs e).

Section WithEnv.
Context (E : Env).

(** [updateExecutionState]; the broadcast to the extension views is
    fire-and-forget and its failure only logged, so it is left out. *)
Definition updateExecutionState (u : Updates) (s : t) : t :=
  setExec (merge (executionState s) u) s.

(** A log line appended to a copy of the current logs. *)
Definition logged (k : LogKind) (m : option string) (s : t) : option (list LogLine) :=
  Some (logs (executionState s) ++ [LogObject k m (date E (effects s))]).

Definition stopExecution (s : t) : t :=
  setErrorCount 0 (setExec (setStatus SIdle (executionState s)) s).

(** [executeInTab], taken as one call to the content script: the
    readiness wait, the send and the re-injection on a missing
    receiver are the environment's. *)
Definition executeInTab (tabId : Z) (command : string) (pl : option Payload)
    (s : t) : Settled () * t :=
  (tab E (effects s), perform (SendToTab tabId command pl) s).

Definition reinjectContentScript (s : t) : Settled () * t :=
  match targetTabId s with
  | None => (Rejected (Error "No target tab found"), s)
  | Some tabId => (scripting E (effects s), perform (Inject tabId) s)
  end.

(** [navigate]: the promise is rejected by the 15000 ms timer unless
    the tab completes loading first; then, after 2000 ms, the content
    script is injected again. *)
Definition navigate (target : option string) (s : t) : Settled () * t :=
  match targetTabId s with
  | None => (Rejected (Error "No target tab found"), s)
  | Some tabId =>
      let load := loading E (effects s) in
      let s1 := perform (TabsUpdate tabId target) s in
      match updateError load with
      | Some e => (Rejected e, s1)
      | None =>
          match completeAfter load with
          | Some elapsed =>
              if decide (elapsed < 15000)%Z
              then reinjectContentScript (perform (Sleep 2000) s1)
              else (Rejected (Error "Navigation timeout"), s1)
          | None => (Rejected (Error "Navigation timeout"), s1)
          end
      end
  end.

(** [performAction]: the switch on [action.type]; a type without a
    case falls through and does nothing. *)
Definition performAction (a : AIAction) (s0 : t) : Settled () * t :=
  let s := perform (Perform a) s0 in
  let tabId := default 0%Z (targetTabId s) in
  if decide (type a = "CLICK") then executeInTab tabId "click" (payload a) s
  else if decide (type a = "TYPE") then executeInTab tabId "type" (payload a) s
  else if decide (type a = "SUBMIT") then executeInTab tabId "submit" (payload a) s
  else if decide (type a = "SCROLL") then executeInTab tabId "scroll" (payload a) s
  else if decide (type a = "HOVER") then executeInTab tabId "hover" (payload a) s
  else if decide (type a = "STORE") then (Fulfilled (), s)
  else if decide (type a = "NAVIGATE") then
    match payload a with
    | None => (Rejected (TypeError "url"), s)
    | Some pl => navigate (url pl) s
    end
  else if decide (type a = "PRINT") then
    match payload a with
    | None => (Rejected (TypeError "text"), s)
    | Some pl =>
        (Fulfilled (),
         updateExecutionState
           (mkUpdates None None None None (logged info (text pl) s)) s)
    end
  else if decide (type a = "COMPLETE") then
    (Fulfilled (),
     updateExecutionState
       (mkUpdates (Some SIdle) None None None
          (logged info (Some "Task completed successfully") s)) s)
  else if decide (type a = "FAILED") then
    let why := default "Task failed" (Parser.truthy (payload a ≫= reason)) in
    (Fulfilled (),
     updateExecutionState
       (mkUpdates (Some SError) None None (Some why)
          (logged error (Some why) s)) s)
  else (Fulfilled (), s).

(** The [try]/[catch] of [executeAction] up to and including
    [this.errorCount += 1]: count the step, log it, perform the action,
    and reset or raise the error counter. *)
Definition attempt (a : AIAction) (s : t) : Settled () * t :=
  let s1 := setExec (pushLog (LogString ("Executing action: " +:+ type a))
                       (stepUp (executionState s))) s in
  match performAction a s1 with
  | (Fulfilled u, s2) => (Fulfilled u, setErrorCount 0 s2)
  | (Rejected e, s2) => (Rejected e, setErrorCount (errorCount s2 + 1) s2)
  end.

(** [executeAction], with [next] standing for the call of
    [requestNextAction] that ends it. *)
Definition executeAction (next : t → Outcome t) (a : AIAction) (s : t) : Outcome t :=
  match targetTabId s with
  | None => Threw (Error "No target tab found") s
  | Some _ =>
      let report (ok : bool) (lastError : option JsError) (s3 : t) :=
        let s4 := setLastActionResult (mkResult ok (message_of <$> lastError)) s3 in
        match status (executionState s4) with
        | SRunning => next s4
        | _ => Returned s4
        end in
      match attempt a s with
      | (Fulfilled _, s3) => report true None s3
      | (Rejected e, s3) =>
          if decide (MAX_ERRORS ≤ errorCount s3) then
            let s4 := setExec
                        (pushLog (LogString "Task failed due to too many errors.")
                           (setStatus SFailed (executionState s3))) s3 in
            Returned (stopExecution s4)
          else report false (Some e) s3
      end
  end.

(** What the decision loop does with a response; shared by
    [requestNextAction] and the page-state timer. *)
Definition route (next : t → Outcome t) (response : AIResponse) (s : t) : Outcome t :=
  match action response with
  | Some a =>
      executeAction next a
        (updateExecutionState
           (mkUpdates None None (Some a) None
              (logged info (Some ("AI Response: " +:+ reasoning response)) s)) s)
  | None =>
      if completed response then
        Returned
          (setTask None
             (updateExecutionState
                (mkUpdates (Some SIdle) None None None
                   (logged info (Some "Task completed successfully") s)) s))
      else Returned s
  end.

(** [this.aiClient.getNextAction(prompt, lastPageState, lastActionResult)]. *)
Definition ask (prompt : string) (s : t) : Settled AIResponse * t :=
  (model E (effects s),
   perform (Decide prompt (lastPageState s) (Some (lastActionResult s))) s).

(** [requestNextAction]; [fuel] bounds the number of decisions that are
    observed, and an error from anywhere inside the [try] is swallowed
    by its [catch]. *)
Fixpoint requestNextAction (fuel : nat) (s : t) : Outcome t :=
  match fuel with
  | 0 => Cut s
  | S fuel' =>
      match currentTask s with
      | None => Returned s
      | Some prompt =>
          match ask prompt s with
          | (Rejected _, s1) => Returned s1
          | (Fulfilled response, s1) =>
              match route (requestNextAction fuel') response s1 with
              | Threw _ s2 => Returned s2
              | other => other
              end
          end
      end
  end.

Definition handleNewTask (fuel : nat) (prompt : string) (s : t) : Outcome t :=
  let s1 := stopExecution s in
  let s2 := setExec (mkExec SRunning 0 0 None None []) s1 in
  let s3 := setTask (Some prompt) s2 in
  let s4 := setErrorCount 0 s3 in
  requestNextAction fuel s4.

(** [handlePageStateUpdate] at time [now]: cancel the pending timer and
    arm a new one for 500 ms later that captures [state]. *)
Definition handlePageStateUpdate (now : Z) (state : PageState) (s : t) : t :=
  setTimeout (Some ((now + 500)%Z, state)) s.

(** The callback of that timer. *)
Definition pageStateTimer (fuel : nat) (state : PageState) (s : t) : Outcome t :=
  let s1 := perform (Received state) (setLastPageState (Some state) s) in
  let finally (o : Outcome t) : Outcome t :=
    match o with
    | Returned s' => Returned (setTimeout None s')
    | Threw _ s' => Returned (setTimeout None s')
    | Cut s' => Cut s'
    end in
  match currentTask s1, status (executionState s1) with
  | Some prompt, SRunning =>
      match ask prompt s1 with
      | (Rejected _, s2) => finally (Returned s2)
      | (Fulfilled response, s2) =>
          finally (route (requestNextAction fuel) response s2)
      end
  | _, _ => finally (Returned s1)
  end.

(** The messages [chrome.runtime.onMessage] handles, and the firing of
    the page-state timer. *)
Inductive Message :=
| CONTENT_SCRIPT_READY (tabId : Z)
| START_TASK (prompt : string)
| PAGE_STATE_UPDATE (state : PageState)
| EXECUTION_STOP.

Definition onMessage (fuel : nat) (now : Z) (m : Message) (s : t) : Outcome t :=
  match m with
  | CONTENT_SCRIPT_READY tabId =>
      Returned (setReadyTabs (tabId :: contentScriptReadyTabs s) s)
  | START_TASK prompt => handleNewTask fuel prompt s
  | PAGE_STATE_UPDATE state => Returned (handlePageStateUpdate now state s)
  | EXECUTION_STOP => Returned (stopExecution s)
  end.

(** Let the clock reach [now]: a timer that is due runs its callback. *)
Definition advance (fuel : nat) (now : Z) (s : t) : Outcome t :=
  match _pageStateUpdateTimeout s with
  | Some (due, state) =>
      if decide (due ≤ now)%Z then pageStateTimer fuel state s else Returned s
  | None => Returned s
  end.

(** The service worker's event loop over timed messages, each handler
    run to its end before the next event is taken. *)
Fixpoint run (fuel : nat) (events : list (Z * Message)) (s : t) : Outcome t :=
  match events with
  | [] => Returned s
  | (now, m) :: rest =>
      match advance fuel now s with
      | Returned s1 =>
          match onMessage fuel now m s1 with
          | Returned s2 => run fuel rest s2
          | other => other
          end
      | other => other
      end
  end.

End WithEnv.

(** The actions handed to the executor switch, oldest first, and their
    number. *)
Definition performed (tr : list Effect) : list AIAction :=
  omap (λ e, match e with Perform a => Some a | _ => None end) tr.

Definition dispatched (tr : list Effect) : nat := length (performed tr).


(** Events other than the start of a task. *)
Definition notStart (ev : Z * Message) : Prop :=
  match ev.2 with
  | START_TASK _ => False
  | _ => True
  end.

(** A burst of page states: each arrives less than 500 ms after the one
    before it, the first less than 500 ms after [prev]. *)
Fixpoint withinWindow (prev : Z) (burst : list (Z * PageState)) : Prop :=
  match burst with
  | [] => True
  | (now, _) :: rest => (prev ≤ now < prev + 500)%Z ∧ withinWindow now rest
  end.



(** The commands sent to the content script. *)
Definition sends (tr : list Effect) : list string :=
  omap (λ e, match e with SendToTab _ c _ => Some c | _ => None end) tr.

(** The prompts put to the model. *)
Definition decisions (tr : list Effect) : list string :=
  omap (λ e, match e with Decide p _ _ => Some p | _ => None end) tr.

End Budget.

(** ** [background/index.ts], the revision with the running guard and the
    retry loop *)
Module Retry.

(** [this.currentTask]: [{ prompt }], later extended with the actions. *)
Record Task := mkTask {
  prompt : string;
  actions : option (list AIAction);
  currentActionIndex : option nat
}.

Record t := mkService {
  windowId : option Z;
  targetTabId : option Z;
  executionState : ExecutionState;
  currentTask : option Task;
  lastPageState : option PageState;
  effects : list Effect
}.

Definition create : t :=
  mkService None None (mkExec SIdle 0 0 None None []) None None [].

Definition setExec (e : ExecutionState) (s : t) : t :=
  mkService (windowId s) (targetTabId s) e (currentTask s) (lastPageState s) (effects s).

Definition setTask (task : option Task) (s : t) : t :=
  mkService (windowId s) (targetTabId s) (executionState s) task (lastPageState s)
    (effects s).

Definition setLastPageState (p : option PageState) (s : t) : t :=
  mkService (windowId s) (targetTabId s) (executionState s) (currentTask s) p (effects s).

Definition perform (e : Effect) (s : t) : t :=
  mkService (windowId s) (targetTabId s) (executionState s) (currentTask s)
    (lastPageState s) (effects s ++ [e]).

(** A template literal prints a missing property as [undefined]. *)
Definition shown (o : option string) : string := default "undefined" o.

(** [getActionDescription]; reading a property of a missing payload
    throws. *)
Definition getActionDescription (E : Env) (a : AIAction) : Settled string :=
  let withPayload (reading : string) (f : Payload → string) : Settled string :=
    match payload a with
    | None => Rejected (TypeError reading)
    | Some pl => Fulfilled (f pl)
    end in
  if decide (type a = "NAVIGATE") then
    withPayload "url" (λ pl, "Navigating to " +:+ shown (url pl))
  else if decide (type a = "CLICK") then
    withPayload "selector" (λ pl, "Clicking element " +:+ QUOTE +:+ shown (selector pl) +:+ QUOTE)
  else if decide (type a = "TYPE") then
    withPayload "text" (λ pl, "Typing " +:+ QUOTE +:+ shown (text pl) +:+ QUOTE +:+ " into "
                                +:+ QUOTE +:+ shown (selector pl) +:+ QUOTE)
  else if decide (type a = "SUBMIT") then
    withPayload "selector" (λ pl, "Submitting form " +:+ QUOTE +:+ shown (selector pl) +:+ QUOTE)
  else if decide (type a = "SCROLL") then
    withPayload "direction" (λ pl, "Scrolling " +:+ shown (direction pl) +:+ " by "
                                     +:+ shown (pretty <$> amount pl) +:+ "px")
  else if decide (type a = "HOVER") then
    withPayload "selector" (λ pl, "Hovering over element " +:+ QUOTE +:+ shown (selector pl)
                                    +:+ QUOTE)
  else if decide (type a = "STORE") then
    withPayload "append" (λ pl, "Storing "
                                  +:+ (if bool_decide (append pl = Some true)
                                       then "additional " else "")
                                  +:+ "data")
  else if decide (type a = "PRINT") then Fulfilled "Displaying information to user"
  else if decide (type a = "COMPLETE") then Fulfilled "Task completed successfully"
  else if decide (type a = "FAILED") then
    Fulfilled ("Task failed: "
                 +:+ default "Unknown reason" (Parser.truthy (payload a ≫= reason)))
  else Fulfilled (stringify E a).

Section WithEnv.
Context (E : Env).

Definition updateExecutionState (u : Updates) (s : t) : t :=
  setExec (merge (executionState s) u) s.

Definition logged (k : LogKind) (m : option string) (s : t) : option (list LogLine) :=
  Some (logs (executionState s) ++ [LogObject k m (date E (effects s))]).

(** [executeInTab]: one send, settled by the reply or the 5000 ms
    timer. *)
Definition executeInTab (tabId : Z) (command : string) (pl : option Payload)
    (s : t) : Settled () * t :=
  (tab E (effects s), perform (SendToTab tabId command pl) s).

(** [reinjectContentScript]: inject, wait 500 ms, ask for the page
    state. *)
Definition reinjectContentScript (s : t) : Settled () * t :=
  match targetTabId s with
  | None => (Fulfilled (), s)
  | Some tabId =>
      match scripting E (effects s), perform (Inject tabId) s with
      | Rejected e, s1 => (Rejected e, s1)
      | Fulfilled _, s1 =>
          executeInTab tabId "get_page_state" (Some noPayload) (perform (Sleep 500) s1)
      end
  end.

(** [navigate]: the 10000 ms timer stays armed until the page state
    has been requested, 1000 ms after the injection. *)
Definition navigate (target : option string) (s : t) : Settled () * t :=
  match targetTabId s with
  | None => (Rejected (Error "No target tab found"), s)
  | Some tabId =>
      let load := loading E (effects s) in
      let s1 := perform (TabsUpdate tabId target) s in
      match updateError load with
      | Some e => (Rejected e, s1)
      | None =>
          match completeAfter load with
          | Some elapsed =>
              if decide (elapsed + 1000 < 10000)%Z then
                match scripting E (effects s1), perform (Inject tabId) s1 with
                | Rejected e, s2 => (Rejected e, s2)
                | Fulfilled _, s2 =>
                    executeInTab tabId "get_page_state" (Some noPayload)
                      (perform (Sleep 1000) s2)
                end
              else (Rejected (Error "Navigation timeout"), s1)
          | None => (Rejected (Error "Navigation timeout"), s1)
          end
      end
  end.

(** The body of the inner [try] of the retry loop: the switch on
    [action.type]. *)
Definition tryOnce (tabId : Z) (a : AIAction) (s : t) : Settled () * t :=
  if decide (type a = "CLICK") then executeInTab tabId "click" (payload a) s
  else if decide (type a = "TYPE") then executeInTab tabId "type" (payload a) s
  else if decide (type a = "SUBMIT") then executeInTab tabId "submit" (payload a) s
  else if decide (type a = "SCROLL") then executeInTab tabId "scroll" (payload a) s
  else if decide (type a = "HOVER") then executeInTab tabId "hover" (payload a) s
  else if decide (type a = "STORE") then (Fulfilled (), s)
  else if decide (type a = "PRINT") then (Fulfilled (), s)
  else if decide (type a = "NAVIGATE") then (Fulfilled (), s)
  else if decide (type a = "COMPLETE") then
    (Fulfilled (),
     updateExecutionState
       (mkUpdates (Some SIdle) None None None
          (logged info (Some "Task completed successfully") s)) s)
  else if decide (type a = "FAILED") then
    let why := default "Task failed" (Parser.truthy (payload a ≫= reason)) in
    (Fulfilled (),
     updateExecutionState
       (mkUpdates (Some SError) None None (Some why) (logged error (Some why) s)) s)
  else (Rejected (Error ("Unsupported action type: " +:+ type a)), s).

Definition maxAttempts : nat := 3.

(** [while (attempts < maxAttempts)], by the number of attempts left:
    a failed attempt that was the last one rethrows, any other waits
    1000 ms and re-injects, ignoring a failure of the re-injection. *)
Fixpoint retryLoop (left : nat) (tabId : Z) (a : AIAction) (s : t) : Outcome t :=
  match left with
  | 0 => Returned s
  | S left' =>
      match tryOnce tabId a s with
      | (Fulfilled _, s1) => Returned s1
      | (Rejected e, s1) =>
          match left' with
          | 0 => Threw e s1
          | S _ =>
              let s2 := perform (Sleep 1000) s1 in
              retryLoop left' tabId a (reinjectContentScript s2).2
          end
      end
  end.

Definition executeAction (a : AIAction) (s : t) : Outcome t :=
  match targetTabId s with
  | None => Threw (Error "No target tab found") s
  | Some tabId =>
      match getActionDescription E a with
      | Rejected e => Threw e s
      | Fulfilled description =>
          let s1 := updateExecutionState
                      (mkUpdates None None (Some a) None
                         (logged info (Some description) s)) s in
          if decide (type a = "STORE") then Returned s1
          else if decide (type a = "PRINT") then
            match payload a with
            | None => Threw (TypeError "text") s1
            | Some pl =>
                Returned (updateExecutionState
                            (mkUpdates None None None None (logged info (text pl) s1))
                            s1)
            end
          else if decide (type a = "NAVIGATE") then
            match payload a with
            | None => Threw (TypeError "url") s1
            | Some pl =>
                match navigate (url pl) s1 with
                | (Fulfilled _, s2) => Returned s2
                | (Rejected e, s2) => Threw e s2
                end
            end
          else retryLoop maxAttempts tabId a s1
      end
  end.

(** [this.aiClient.getNextAction(prompt, this.lastPageState)]. *)
Definition ask (p : string) (s : t) : Settled AIResponse * t :=
  (model E (effects s), perform (Decide p (lastPageState s) None) s).

Definition handleNewTask (p : string) (s : t) : Outcome t :=
  match status (executionState s) with
  | SRunning => Threw (Error "A task is already running.") s
  | _ =>
      match targetTabId s with
      | None => Threw (Error "No target tab found") s
      | Some _ =>
          let s1 := setLastPageState None (setTask (Some (mkTask p None None)) s) in
          match ask p s1 with
          | (Rejected e, s2) => Threw e s2
          | (Fulfilled response, s2) =>
              match action response with
              | None => Threw (Error "No action received from AI") s2
              | Some a =>
                  let s3 := setTask (Some (mkTask p (Some [a]) (Some 0))) s2 in
                  let why := default "No reasoning provided"
                               (Parser.truthy (Some (reasoning response))) in
                  let s4 := updateExecutionState
                              (mkUpdates (Some SRunning) (Some 1) (Some a) None
                                 (Some [LogObject info
                                          (Some ("Starting task: " +:+ p +:+ LF
                                                   +:+ "AI Reasoning: " +:+ why))
                                          (date E (effects s3))])) s3 in
                  executeAction a s4
              end
          end
      end
  end.

Definition handlePageStateUpdate (state : PageState) (s : t) : Outcome t :=
  let s1 := perform (Received state) (setLastPageState (Some state) s) in
  let caught (o : Outcome t) : Outcome t :=
    match o with
    | Threw e s' =>
        Returned (updateExecutionState
                    (mkUpdates (Some SError) None None (Some (message_of e)) None) s')
    | other => other
    end in
  match currentTask s1, status (executionState s1) with
  | Some task, SRunning =>
      match ask (prompt task) s1 with
      | (Rejected e, s2) => caught (Threw e s2)
      | (Fulfilled response, s2) =>
          match action response with
          | Some a =>
              caught (executeAction a
                        (updateExecutionState
                           (mkUpdates None None (Some a) None
                              (logged info
                                 (Some ("AI Response: " +:+ reasoning response)) s2))
                           s2))
          | None =>
              if completed response then
                Returned
                  (setTask None
                     (updateExecutionState
                        (mkUpdates (Some SIdle) None None None
                           (logged info (Some "Task completed successfully") s2)) s2))
              else Returned s2
          end
      end
  | _, _ => Returned s1
  end.

(** [stopExecution]; [now] is the timestamp of the log entry. *)
Definition stopExecution (now : string) (s : t) : t :=
  setLastPageState None
    (setExec
       (mkExec SIdle 0 0 None None
          (logs (executionState s)
             ++ [LogObject info (Some "Task execution stopped by user") now]))
       (setTask None s)).

Inductive Message :=
| START_TASK (p : string)
| PAGE_STATE_UPDATE (state : PageState)
| EXECUTION_STOP.

(** The listener of [chrome.runtime.onMessage]: an error thrown by a
    handler is answered, published as status ['error'] and logged. *)
Definition onMessage (m : Message) (s : t) : t :=
  let handled :=
    match m with
    | START_TASK p => handleNewTask p s
    | PAGE_STATE_UPDATE state => handlePageStateUpdate state s
    | EXECUTION_STOP => Returned (stopExecution (date E (effects s)) s)
    end in
  match handled with
  | Threw e s' =>
      updateExecutionState
        (mkUpdates (Some SError) None None (Some (message_of e))
           (logged error (Some (message_of e)) s')) s'
  | other => state_of other
  end.

End WithEnv.

(** The sends of [command] to the content script among [tr]. *)
Definition attempts (command : string) (tr : list Effect) : nat :=
  length (omap (λ e, match e with
                     | SendToTab _ c _ => if decide (c = command) then Some c else None
                     | _ => None
                     end) tr).

(** The command [tryOnce] sends for an executor-bound action type. *)
Definition commandOf (ty : string) : string :=
  if decide (ty = "CLICK") then "click"
  else if decide (ty = "TYPE") then "type"
  else if decide (ty = "SUBMIT") then "submit"
  else if decide (ty = "SCROLL") then "scroll"
  else if decide (ty = "HOVER") then "hover"
  else "".

Definition executorBound (ty : string) : Prop :=
  ty ∈ ["CLICK"; "TYPE"; "SUBMIT"; "SCROLL"; "HOVER"].

End Retry.

(** ** Scripted environments and states used as concrete inputs *)
Module Scenario.

Definition click : AIAction :=
  mkAction "CLICK" (Some (mkPayload None (Some "#go") None None None None None)).

Definition goTo : AIAction :=
  mkAction "NAVIGATE"
    (Some (mkPayload (Some "https://example.org") None None None None None None)).

Definition decision (a : AIAction) : AIResponse :=
  mkResponse (Some a) "next" false false None.

(** A model that always asks for the same click, an executor that
    rejects every command. *)
Definition alwaysFailing : Env :=
  {| model := λ _, Fulfilled (decision click);
     tab := λ _, Rejected (Error "Action failed");
     scripting := λ _, Fulfilled ();
     loading := λ _, mkTabLoad None None;
     date := λ _, "2024-01-01T00:00:00.000Z";
     stringify := λ _, "{}" |}.

(** An executor that rejects the first two [click] commands and accepts
    everything else; the model gives no further decision. *)
Definition clicksSoFar (tr : list Effect) : nat :=
  length (omap (λ e, match e with
                     | SendToTab _ "click" _ => Some ()
                     | _ => None
                     end) tr).

Definition thirdTimeLucky : Env :=
  {| model := λ _, Rejected (Error "offline");
     tab := λ tr, if decide (clicksSoFar tr < 2)
                  then Rejected (Error "Action failed") else Fulfilled ();
     scripting := λ _, Fulfilled ();
     loading := λ _, mkTabLoad None None;
     date := λ _, "2024-01-01T00:00:00.000Z";
     stringify := λ _, "{}" |}.

(** A model that is unreachable and a tab that never finishes loading. *)
Definition silent : Env :=
  {| model := λ _, Rejected (Error "offline");
     tab := λ _, Fulfilled ();
     scripting := λ _, Fulfilled ();
     loading := λ _, mkTabLoad None None;
     date := λ _, "2024-01-01T00:00:00.000Z";
     stringify := λ _, "{}" |}.


(** The error-counter service with a target tab, idle. *)
Definition budgetReady : Budget.t :=
  Budget.mkService None (Some 7%Z) None None (mkExec SIdle 0 0 None None [])
    None None (mkResult true None) [7%Z] 0 [].

(** The same service at the start of a task. *)
Definition budgetRunning : Budget.t :=
  Budget.mkService None (Some 7%Z) None None (mkExec SRunning 0 0 None None [])
    (Some "book a table") None (mkResult true None) [7%Z] 0 [].

(** The same service in the middle of a task: three steps taken. *)
Definition budgetBusy : Budget.t :=
  Budget.mkService None (Some 7%Z) None None
    (mkExec SRunning 3 0 (Some click) None [LogString "Executing action: CLICK"])
    (Some "book a table") None (mkResult true None) [7%Z] 1 [].

(** The guarded service with a target tab, idle, and in the middle of a
    task. *)
Definition retryReady : Retry.t :=
  Retry.mkService None (Some 7%Z) (mkExec SIdle 0 0 None None []) None None [].

Definition retryBusy : Retry.t :=
  Retry.mkService None (Some 7%Z)
    (mkExec SRunning 1 0 (Some click) None
       [LogObject info (Some "Starting task: book a table") "2024-01-01T00:00:00.000Z"])
    (Some (Retry.mkTask "book a table" (Some [click]) (Some 0))) None [].

Definition pageA : PageState := mkPageState "https://a.example" "A" [] 1.
Definition pageB : PageState := mkPageState "https://b.example" "B" [] 2.

End Scenario.

(** ** Predicates on the states of the error-counter service *)
Module Guarantees.

(** One replacement of the execution state as the error-counter service
    makes it outside [handleNewTask]: the status is kept or becomes idle or
    error, the step counter does not decrease, the logs are extended. *)
Definition execStep (e e' : ExecutionState) : Prop :=
  (status e' = status e ∨ status e' = SIdle ∨ status e' = SError)
  ∧ currentStep e ≤ currentStep e'
  ∧ logs e `prefix_of` logs e'.

(** The state [handleNewTask] hands to [requestNextAction]. *)
Definition started (prompt : string) (s : Budget.t) : Budget.t :=
  Budget.setErrorCount 0
    (Budget.setTask (Some prompt)
       (Budget.setExec (mkExec SRunning 0 0 None None []) (Budget.stopExecution s))).

(** The model never answers without an action, as [AIResponseParser.parse]
    ensures for every response it lets through. *)
Definition answersWithAction (E : Env) : Prop :=
  ∀ tr r, model E tr = Fulfilled r → is_Some (action r).

Definition withinBudget (s : Budget.t) : Prop :=
  Budget.errorCount s < Budget.MAX_ERRORS.

Definition settledStatus (st : Status) : Prop :=
  st ∈ [SIdle; SRunning; SError].

(** The action types [performAction] and [tryOnce] have a case for. *)
Definition knownTypes : list string :=
  ["CLICK"; "TYPE"; "SUBMIT"; "SCROLL"; "HOVER"; "STORE"; "NAVIGATE"; "PRINT";
   "COMPLETE"; "FAILED"].

(** The action types whose description reads a property of the payload. *)
Definition needsPayload : list string :=
  ["NAVIGATE"; "CLICK"; "TYPE"; "SUBMIT"; "SCROLL"; "HOVER"; "STORE"].

(** The re-injections of the content script among [tr], and the waits of
    [delay] milliseconds. *)
Definition injections (tr : list Effect) : nat :=
  length (omap (λ e, match e with Inject tabId => Some tabId | _ => None end) tr).

Definition waits (delay : Z) (tr : list Effect) : nat :=
  length (omap (λ e, match e with
                     | Sleep d => if decide (d = delay) then Some d else None
                     | _ => None
                     end) tr).

(** What the dispatch of an action in the revision with the retry loop
    leaves alone: the task, the target tab, the last page state and the
    step counter are kept, the logs and the effects are extended, and the
    status is kept or becomes idle or error. *)
Definition dispatchStep (s s' : Retry.t) : Prop :=
  Retry.currentTask s' = Retry.currentTask s
  ∧ Retry.targetTabId s' = Retry.targetTabId s
  ∧ Retry.lastPageState s' = Retry.lastPageState s
  ∧ currentStep (Retry.executionState s') = currentStep (Retry.executionState s)
  ∧ logs (Retry.executionState s) `prefix_of` logs (Retry.executionState s')
  ∧ (status (Retry.executionState s') = status (Retry.executionState s)
     ∨ status (Retry.executionState s') = SIdle
     ∨ status (Retry.executionState s') = SError)
  ∧ Retry.effects s `prefix_of` Retry.effects s'.

(** The listener of the revision with the retry loop over the messages
    received in turn. *)
Definition handled (E : Env) (messages : list Retry.Message) (s : Retry.t) : Retry.t :=
  foldl (λ s m, Retry.onMessage E m s) s messages.

End Guarantees.

(** ** [services/storage.ts] and the provider of [services/ai-client.ts] *)
Module Storage.

Record TaskLog := mkTaskLog {
  tl_timestamp : Z;
  tl_prompt : string;
  tl_response : string
}.

(** [ExtensionSettings], as [SettingsForm] saves it. *)
Record ExtensionSettings := mkSettings {
  aiProvider : string;
  apiEndpoint : string;
  apiKey : string
}.

(** What [chrome.storage.local] holds under a key.  [StorageManager] is the
    only writer: it keeps an array of task logs under [taskLogs] and the
    settings object under [settings]. *)
Inductive Item :=
| TaskLogs (l : list TaskLog)
| Settings (x : ExtensionSettings).

(** [data.taskLogs || []]. *)
Definition getLogs (local : gmap string Item) : list TaskLog :=
  match local !! "taskLogs" with
  | Some (TaskLogs l) => l
  | _ => []
  end.

Definition logTask (now : Z) (prompt response : string) (local : gmap string Item)
    : gmap string Item :=
  <["taskLogs" := TaskLogs (getLogs local ++ [mkTaskLog now prompt response])]> local.

Definition clearLogs (local : gmap string Item) : gmap string Item :=
  delete "taskLogs" local.

Definition saveSettings (x : ExtensionSettings) (local : gmap string Item)
    : gmap string Item :=
  <["settings" := Settings x]> local.

Definition getSettings (local : gmap string Item) : option ExtensionSettings :=
  match local !! "settings" with
  | Some (Settings x) => Some x
  | _ => None
  end.

(** The state [SettingsForm] starts from. *)
Definition formDefaults : ExtensionSettings :=
  mkSettings "openai" "https://api.openai.com/v1/chat/completions" "".

(** [new OpenAIProvider({ provider: 'openai', apiKey })]. *)
Record OpenAIProvider := mkProvider {
  key : string
}.

(** [AIClient.getProvider] on the cached [this.provider] and the store as
    it is at the call; returns the result and the new [this.provider]. *)
Definition getProvider (local : gmap string Item) (provider : option OpenAIProvider)
    : Settled OpenAIProvider * option OpenAIProvider :=
  match provider with
  | Some p => (Fulfilled p, provider)
  | None =>
      match Parser.truthy (apiKey <$> getSettings local) with
      | None =>
          (Rejected (Error "AI provider not configured. Please set up your API key."),
           None)
      | Some k => (Fulfilled (mkProvider k), Some (mkProvider k))
      end
  end.

(** The calls of [getProvider] made in turn on one client, each on the
    store of its time; the results, and the provider cached at the end. *)
Fixpoint getProviders (stores : list (gmap string Item)) (provider : option OpenAIProvider)
    : list (Settled OpenAIProvider) * option OpenAIProvider :=
  match stores with
  | [] => ([], provider)
  | local :: rest =>
      let '(r, p1) := getProvider local provider in
      let '(rs, p2) := getProviders rest p1 in
      (r :: rs, p2)
  end.

(** [OpenAIProvider.generateCompletion] on what the API call gave:
    [completion.choices[0]?.message?.content], or the error it threw. *)
Definition generateCompletion (reply : Settled (option string)) : Settled string :=
  match reply with
  | Rejected e => Rejected e
  | Fulfilled content =>
      match Parser.truthy content with
      | None => Rejected (Error "No completion content received from OpenAI")
      | Some c => Fulfilled c
      end
  end.

End Storage.

(** ** [services/dom-extractor.ts] *)
Module Extractor.

(** The code units below 256 that [\s] matches and [trim] removes: tab,
    line feed, vertical tab, form feed, carriage return, space, no-break
    space. *)
Definition isSpace (c : Ascii.ascii) : bool :=
  bool_decide (Ascii.nat_of_ascii c ∈ [9; 10; 11; 12; 13; 32; 160]).

Definition SPACE : Ascii.ascii := Ascii.ascii_of_nat 32.

(** [text.replace(/\s+/g, ' ')]; [inRun] tells that the character before
    was whitespace. *)
Fixpoint collapse (inRun : bool) (s : string) : string :=
  match s with
  | "" => ""
  | String c rest =>
      if isSpace c
      then if inRun then collapse true rest else String SPACE (collapse true rest)
      else String c (collapse false rest)
  end.

Fixpoint trimStart (s : string) : string :=
  match s with
  | "" => ""
  | String c rest => if isSpace c then trimStart rest else s
  end.

Fixpoint trimEnd (s : string) : string :=
  match s with
  | "" => ""
  | String c rest =>
      match trimEnd rest with
      | "" => if isSpace c then "" else String c ""
      | kept => String c kept
      end
  end.

(** [String.prototype.trim]. *)
Definition trim (s : string) : string := trimEnd (trimStart s).

(** [String.prototype.toLowerCase] on code units below 256: the letters
    A to Z, and the capital letters of the Latin-1 range. *)
Definition lowerChar (c : Ascii.ascii) : Ascii.ascii :=
  let n := Ascii.nat_of_ascii c in
  if bool_decide ((65 ≤ n ∧ n ≤ 90) ∨ (192 ≤ n ∧ n ≤ 222 ∧ n ≠ 215))
  then Ascii.ascii_of_nat (n + 32)
  else c.

Fixpoint toLowerCase (s : string) : string :=
  match s with
  | "" => ""
  | String c rest => String (lowerChar c) (toLowerCase rest)
  end.

(** An element as [generateSelector] walks it: its tag name, id, input
    type when it is an [HTMLInputElement], whether it is [document.body],
    its position among the children of its parent, and that parent. *)
#[warnings="-register-all"] Inductive Node :=
| mkNode (tagName id : string) (inputType : option string) (isBody : bool)
    (index : nat) (parentElement : option Node).

Definition tagName (n : Node) : string := match n with mkNode t _ _ _ _ _ => t end.
Definition id (n : Node) : string := match n with mkNode _ i _ _ _ _ => i end.
Definition inputType (n : Node) : option string :=
  match n with mkNode _ _ ty _ _ _ => ty end.
Definition isBody (n : Node) : bool := match n with mkNode _ _ _ b _ _ => b end.
Definition index (n : Node) : nat := match n with mkNode _ _ _ _ i _ => i end.
Definition parentElement (n : Node) : option Node :=
  match n with mkNode _ _ _ _ _ p => p end.

(** The selector one round of the loop writes:
    [`${current.tagName.toLowerCase()}:nth-child(${index})`], with
    [index = siblings.indexOf(current) + 1]. *)
Definition nthChild (current : Node) : string :=
  toLowerCase (tagName current) +:+ ":nth-child(" +:+ pretty (index current + 1) +:+ ")".

(** The [while] loop of [generateSelector]: each round overwrites the
    selector with the description of the current node and moves to its
    parent. *)
Fixpoint climb (current : Node) (selector : string) : string :=
  match current with
  | mkNode _ _ _ body _ (Some parent) =>
      if body then selector else climb parent (nthChild current)
  | mkNode _ _ _ _ _ None => selector
  end.

Definition generateSelector (element : Node) : string :=
  if negb (bool_decide (id element = "")) then "#" +:+ id element
  else
    match Parser.truthy (inputType element) with
    | Some ty => "input[type=" +:+ QUOTE +:+ ty +:+ QUOTE +:+ "]"
    | None => climb element (toLowerCase (tagName element))
    end.

(** What the extractor reads of an element besides its place in the tree.
    Visibility, geometry and the computed style are the browser's. *)
Record Element := mkDomElement {
  node : Node;
  isHidden : bool;            (* this.isHidden(element) *)
  scriptOrStyle : bool;       (* HTMLScriptElement or HTMLStyleElement *)
  isClickable : bool;         (* onclick attribute or role button *)
  isHoverable : bool;         (* pointer cursor, onmouseover, onmouseenter *)
  isInViewport : bool;        (* this.isInViewport(element) *)
  ariaLabel : option string;
  title : option string;
  placeholder : option string;
  value : option string;      (* this.getElementValue(element) *)
  textContent : option string
}.

Definition interactiveTags : list string :=
  ["a"; "button"; "input"; "select"; "textarea"; "form"].

Definition isInteractiveElement (element : Element) : bool :=
  bool_decide (toLowerCase (tagName (node element)) ∈ interactiveTags)
  || isClickable element || isHoverable element.

(** [a || b] on strings that may be missing. *)
Definition orElse (a : option string) (b : string) : string :=
  default b (Parser.truthy a).

Definition getVisibleText (element : Element) : string :=
  let named :=
    if isInteractiveElement element
    then orElse (ariaLabel element)
           (orElse (title element)
              (orElse (placeholder element) (orElse (value element) "")))
    else "" in
  let text :=
    if bool_decide (named = "")
    then orElse (trim <$> textContent element) ""
    else named in
  collapse false (AIClient.slice0 150 text).

(** The properties of the extracted [PageElement] that the page state
    keeps here. *)
Definition extractElementInfo (element : Element) : PageElement :=
  mkElement (toLowerCase (tagName (node element))) (Some (getVisibleText element)) true
    (generateSelector (node element)).

(** The test of the loop of [extractElements] for one element. *)
Definition included (element : Element) : bool :=
  negb (isHidden element)
  && negb (scriptOrStyle element)
  && ((isInteractiveElement element || negb (bool_decide (getVisibleText element = "")))
      && (isInViewport element || isInteractiveElement element)).

(** The entry for the scroll position; [scrollY] is [window.scrollY] in
    whole pixels. *)
Definition scrollPosition (scrollY : Z) : PageElement :=
  mkElement "scroll-position"
    (Some ("Page scrolled " +:+ pretty scrollY +:+ "px from top")) true "window".

Definition extractElements (scrollY : Z) (allElements : list Element) : list PageElement :=
  (extractElementInfo <$> filter (λ el, included el = true) allElements)
    ++ [scrollPosition scrollY].

End Extractor.

(** ** [content/index.ts]: the message listener, the initial send and the
    mutation timer *)
Module Page.
Import Content.

(** What a [catch] receives here: an [Error], or the object
    [chrome.runtime.lastError], which is no instance of [Error]. *)
Inductive Thrown :=
| Err (e : JsError)
| LastError (message : string).

(** The page the content script is on: what [sendPageState] reads. *)
Record View := mkView {
  href : string;
  documentTitle : string;
  scrollY : Z;
  allElements : list Extractor.Element;
  now : Z
}.

(** The [state] object [sendPageState] builds. *)
Definition stateOf (v : View) : PageState :=
  mkPageState (href v) (documentTitle v)
    (Extractor.extractElements (scrollY v) (allElements v)) (now v).

(** [sendPageState] with the runtime's answer to the message, the message
    of [chrome.runtime.lastError] when it is set: the fingerprint is stored
    before the message is sent, and a failed send is thrown. *)
Definition sendPageStateVia (lastError : option string) (state : PageState) (c : t)
    : option Thrown * t :=
  let stateHash := hashState state in
  if negb (isInitialStateSet c) || negb (bool_decide (Some stateHash = lastStateHash c))
  then (LastError <$> lastError,
        mkContent (debounceTimeout c) (Some stateHash) true (sent c ++ [state]))
  else (None, c).

(** The loop of [sendInitialState]: one round per element of [tries] (the
    page as it is at that round and the runtime's answer), left at the
    first round that does not throw.  Returns the number of rounds made. *)
Fixpoint sendInitialRounds (tries : list (PageState * option string)) (c : t) : nat * t :=
  match tries with
  | [] => (0, c)
  | (page, lastError) :: rest =>
      match sendPageStateVia lastError page c with
      | (None, c1) => (1, c1)
      | (Some _, c1) =>
          let '(n, c2) := sendInitialRounds rest c1 in (S n, c2)
      end
  end.

(** [sendInitialState]: three rounds at most. *)
Definition sendInitialState (tries : list (PageState * option string)) (c : t) : nat * t :=
  sendInitialRounds (take 3 tries) c.

(** [{ success, error? }]. *)
Record Response := mkReply {
  ok : bool;
  err : option string
}.

Definition commands : list string :=
  ["click"; "type"; "submit"; "scroll"; "hover"].

(** What happens around one message: the outcome of the DOM handler
    ([handleClick] and the like), the page when [get_page_state] reads it,
    the page 100 ms after the command, and the runtime's answers to the two
    possible sends. *)
Record Around := mkAround {
  handler : Settled ();
  pageAtCommand : PageState;
  replyAtCommand : option string;
  pageAfter : PageState;
  replyAfter : option string
}.

(** The [catch] of [processMessage]:
    [error instanceof Error ? error.message : 'Unknown error']. *)
Definition answerOf (e : Thrown) : Response :=
  match e with
  | Err e => mkReply false (Some (message_of e))
  | LastError _ => mkReply false (Some "Unknown error")
  end.

(** [processMessage] of the [onMessage] listener, for a message of type
    [type]. *)
Definition processMessage (type : string) (w : Around) (c : t) : Response * t :=
  let after (c' : t) :=
    match sendPageStateVia (replyAfter w) (pageAfter w) c' with
    | (None, c2) => (mkReply true None, c2)
    | (Some e, c2) => (answerOf e, c2)
    end in
  let command := Extractor.toLowerCase type in
  if decide (command = "get_page_state") then
    match sendPageStateVia (replyAtCommand w) (pageAtCommand w) c with
    | (None, c1) => after c1
    | (Some e, c1) => (answerOf e, c1)
    end
  else if decide (command ∈ commands) then
    match handler w with
    | Fulfilled _ => after c
    | Rejected e => (answerOf (Err e), c)
    end
  else (answerOf (Err (Error ("Unknown action type: " +:+ type))), c).

(** One batch of mutations at time [at_]; a timer that is due runs first,
    on the page as it was when the timer was due. *)
Definition step (pageAt : Z → PageState) (at_ : Z) (mutations : list MutationRecord)
    (c : t) : t :=
  handleDOMChanges at_ mutations
    (advance at_ (pageAt (default at_ (debounceTimeout c))) c).

Fixpoint run (pageAt : Z → PageState) (events : list (Z * list MutationRecord)) (c : t)
    : t :=
  match events with
  | [] => c
  | (at_, mutations) :: rest => run pageAt rest (step pageAt at_ mutations c)
  end.

(** Batches that follow each other by less than 500 ms. *)
Fixpoint closeTogether (prev : Z) (events : list (Z * list MutationRecord)) : Prop :=
  match events with
  | [] => True
  | (at_, _) :: rest => (prev ≤ at_ < prev + 500)%Z ∧ closeTogether at_ rest
  end.

End Page.

(** ** [popup/App.tsx]: the list of tasks shown *)
Module Popup.

(** [logs[0]?.timestamp]: undefined without a first entry, and for an
    entry that is a plain string. *)
Definition firstTimestamp (state : ExecutionState) : option string :=
  match logs state with
  | LogObject _ _ timestamp :: _ => Some timestamp
  | _ => None
  end.

(** The STATE_UPDATE listener on the list [tasks]. *)
Definition onStateUpdate (state : ExecutionState) (prevTasks : list ExecutionState)
    : list ExecutionState :=
  if decide (0 < length (logs state)) then
    match prevTasks with
    | [] => [state]
    | first :: rest =>
        if decide (firstTimestamp first ≠ firstTimestamp state)
        then state :: prevTasks
        else state :: rest
    end
  else prevTasks.

(** The listener over the state updates received in turn. *)
Definition onStateUpdates (states : list ExecutionState) (tasks : list ExecutionState)
    : list ExecutionState :=
  foldl (λ tasks state, onStateUpdate state tasks) tasks states.

End Popup.

(** ** [components/TaskHistory.tsx]: the log entries shown for a task *)
Module History.

(** [String.prototype.indexOf]. *)
Fixpoint indexOf (pat s : string) : option nat :=
  if String.prefix pat s then Some 0
  else match s with
       | "" => None
       | String _ rest => S <$> indexOf pat rest
       end.

(** [s.slice(n)] for [0 <= n]. *)
Fixpoint sliceFrom (n : nat) (s : string) : string :=
  match n, s with
  | S n', String _ rest => sliceFrom n' rest
  | _, _ => s
  end.

(** [s.replace(pat, rep)] for a string pattern: the first occurrence. *)
Definition replaceFirst (pat rep s : string) : string :=
  match indexOf pat s with
  | None => s
  | Some i => AIClient.slice0 i s +:+ rep +:+ sliceFrom (i + String.length pat) s
  end.

Definition formatStartingMessage (message : string) : string :=
  let taskText := replaceFirst "Starting task: " "" message in
  let cleanTaskText :=
    match indexOf "AI Reasoning:" taskText with
    | Some reasoningIndex => Extractor.trim (AIClient.slice0 reasoningIndex taskText)
    | None => Extractor.trim taskText
    end in
  "Starting " +:+ QUOTE +:+ cleanTaskText +:+ QUOTE.

(** [formatFailedMessage]; [reasonOf message] is [None] when
    [JSON.parse(message)] throws and the [reason] property of the parsed
    object otherwise. *)
Definition formatFailedMessage (reasonOf : string → option (option string))
    (message : string) : string :=
  match reasonOf message with
  | None => message
  | Some reason => default "Task failed" (Parser.truthy reason)
  end.

(** A log entry as it is shown. *)
Record Entry := mkEntry {
  kind : LogKind;
  message : string;
  timestamp : string
}.

(** The [filter] and the [map] of [actionLogs] on one log entry: what is
    shown for it, if anything.  A log entry that is a plain string has no
    [message] property. *)
Definition entry (reasonOf : string → option (option string)) (log : LogLine)
    : option Entry :=
  match log with
  | LogObject k (Some m) t =>
      if negb (bool_decide (m = ""))
         && negb (String.prefix "AI Response:" m)
         && negb (String.prefix "AI Reasoning:" m)
      then
        Some (mkEntry k
                (if String.prefix "Starting task:" m then formatStartingMessage m
                 else if String.prefix "{" m
                         && bool_decide
                              (is_Some (indexOf (QUOTE +:+ "reason" +:+ QUOTE) m))
                      then formatFailedMessage reasonOf m
                      else m)
                t)
      else None
  | _ => None
  end.

Definition actionLogs (reasonOf : string → option (option string))
    (task : ExecutionState) : list Entry :=
  reverse (omap (entry reasonOf) (logs task)).

Inductive Icon := Loader | XCircle | CheckCircle.

(** The icon of the entry at [logIndex]. *)
Definition icon (task : ExecutionState) (logIndex : nat) (log : Entry) : Icon :=
  match status task, logIndex with
  | SRunning, 0 => Loader
  | _, _ =>
      match kind log with
      | error => XCircle
      | _ => CheckCircle
      end
  end.

Definition icons (reasonOf : string → option (option string)) (task : ExecutionState)
    : list Icon :=
  imap (icon task) (actionLogs reasonOf task).

(** The log entries that are never shown. *)
Definition hidden (log : LogLine) : Prop :=
  match log with
  | LogString _ => True
  | LogObject _ None _ => True
  | LogObject _ (Some m) _ =>
      m = "" ∨ String.prefix "AI Response:" m = true
      ∨ String.prefix "AI Reasoning:" m = true
  end.

End History.

(** ** Predicates on extracted text and on views of a page *)
Module Shapes.

(** No whitespace but single spaces: every whitespace character is a
    space, and none is followed by another one. *)
Fixpoint singleSpaced (s : string) : Prop :=
  match s with
  | "" => True
  | String c rest =>
      (Extractor.isSpace c = true →
       c = Extractor.SPACE
       ∧ match rest with
         | String d _ => Extractor.isSpace d = false
         | "" => True
         end)
      ∧ singleSpaced rest
  end.

(** Two views of the same document: the same address, title and elements,
    at any scroll offsets and times. *)
Definition sameDocument (v1 v2 : Page.View) : Prop :=
  Page.href v1 = Page.href v2
  ∧ Page.documentTitle v1 = Page.documentTitle v2
  ∧ Page.allElements v1 = Page.allElements v2.

End Shapes.

(** ** More concrete inputs *)
Module Cases.

(** A model that always asks for [a], an executor that accepts every
    command. *)
Definition asking (a : AIAction) : Env :=
  {| model := λ _, Fulfilled (Scenario.decision a);
     tab := λ _, Fulfilled ();
     scripting := λ _, Fulfilled ();
     loading := λ _, mkTabLoad None (Some 1200%Z);
     date := λ _, "2024-01-01T00:00:00.000Z";
     stringify := λ _, "{}" |}.

Definition finish : AIAction := mkAction "COMPLETE" None.

Definition giveUp : AIAction :=
  mkAction "FAILED" (Some (mkPayload None None None None None None (Some "no results"))).

Definition dance : AIAction := mkAction "DANCE" None.

Definition bareClick : AIAction := mkAction "CLICK" None.

(** The error-counter service without a target tab. *)
Definition budgetNoTab : Budget.t :=
  Budget.mkService None None None None (mkExec SIdle 0 0 None None [])
    None None (mkResult true None) [] 0 [].

Definition keyed (k : string) : gmap string Storage.Item :=
  Storage.saveSettings (Storage.mkSettings "openai" "https://api.openai.com" k) ∅.

Definition html : Extractor.Node := Extractor.mkNode "HTML" "" None false 0 None.

Definition body : Extractor.Node := Extractor.mkNode "BODY" "" None true 1 (Some html).

Definition section : Extractor.Node :=
  Extractor.mkNode "SECTION" "" None false 2 (Some body).

Definition heading : Extractor.Node :=
  Extractor.mkNode "H1" "" None false 0 (Some section).

Definition plain (n : Extractor.Node) (textContent : string) : Extractor.Element :=
  Extractor.mkDomElement n false false false false true None None None None
    (Some textContent).

Definition newChild : Content.MutationRecord :=
  Content.mkMutation Content.childList None false false.

(** A page with one heading, scrolled to [scrollY] and read at [now]. *)
Definition article (scrollY now : Z) : Page.View :=
  Page.mkView "https://a.example/post" "Post" scrollY [plain heading "Hello  world"] now.

(** What happens around a command whose handler succeeds while the
    runtime cannot deliver the page state. *)
Definition undelivered : Page.Around :=
  Page.mkAround (Fulfilled ()) Scenario.pageA (Some "Receiving end does not exist.")
    Scenario.pageB (Some "Receiving end does not exist.").

End Cases.

(** ** [background/index.ts], the revision with the error counter, as the
    event loop runs it

    One event is handled at a time, and an [async] call runs until the
    first promise it has to wait for: the answer of the language model, or
    [executeInTab] and [navigate], which are taken as calls that settle
    later with a result of their own.  Everything between two such waits is
    one uninterrupted piece of code.  The calls in flight, the armed timers
    and the calls made are kept beside the fields of the class. *)
Module Live.

(** The handler a call in flight belongs to: [handleNewTask], or the
    callback of a page-state timer, whose [finally] runs when the call
    chain ends. *)
Inductive Origin := ByStart | ByTimer.

(** What a call in flight waits for. *)
Inductive Wait :=
| ForModel                   (* await this.aiClient.getNextAction(...) *)
| ForAction (a : AIAction).  (* await this.performAction(action) *)

Record Thread := mkThread {
  tid : nat;
  origin : Origin;
  wait : Wait
}.

(** The calls the service makes that settle later. *)
Inductive Call :=
| GetNextAction (prompt : string) (page : option PageState) (last : ActionResult)
| ExecuteInTab (tabId : option Z) (command : string) (pl : option Payload)
| Navigate (target : option string).

(** A timer armed by [setTimeout]: its id, the time it is due and the
    page state its callback has captured. *)
Record Timer := mkTimer {
  timerId : nat;
  due : Z;
  captured : PageState
}.

Record t := mkLive {
  targetTabId : option Z;
  _pageStateUpdateTimeout : option nat;
  executionState : ExecutionState;
  currentTask : option string;
  lastPageState : option PageState;
  lastActionResult : ActionResult;
  contentScriptReadyTabs : list Z;
  errorCount : nat;
  timers : list Timer;      (* the timers that are armed *)
  threads : list Thread;    (* the calls in flight *)
  fresh : nat;              (* the next timer or call id *)
  calls : list Call;        (* the calls made, oldest first *)
  ran : list PageState      (* the page states of the timer callbacks run *)
}.

Definition create : t :=
  {| targetTabId := None; _pageStateUpdateTimeout := None;
     executionState := mkExec SIdle 0 0 None None [];
     currentTask := None; lastPageState := None;
     lastActionResult := mkResult true None;
     contentScriptReadyTabs := []; errorCount := 0;
     timers := []; threads := []; fresh := 1; calls := []; ran := [] |}.

Definition setHandle (h : option nat) (s : t) : t :=
  mkLive (targetTabId s) h (executionState s) (currentTask s) (lastPageState s)
    (lastActionResult s) (contentScriptReadyTabs s) (errorCount s) (timers s)
    (threads s) (fresh s) (calls s) (ran s).

Definition setExec (e : ExecutionState) (s : t) : t :=
  mkLive (targetTabId s) (_pageStateUpdateTimeout s) e (currentTask s) (lastPageState s)
    (lastActionResult s) (contentScriptReadyTabs s) (errorCount s) (timers s)
    (threads s) (fresh s) (calls s) (ran s).

Definition setTask (task : option string) (s : t) : t :=
  mkLive (targetTabId s) (_pageStateUpdateTimeout s) (executionState s) task
    (lastPageState s) (lastActionResult s) (contentScriptReadyTabs s) (errorCount s)
    (timers s) (threads s) (fresh s) (calls s) (ran s).

Definition setLastPageState (p : option PageState) (s : t) : t :=
  mkLive (targetTabId s) (_pageStateUpdateTimeout s) (executionState s) (currentTask s)
    p (lastActionResult s) (contentScriptReadyTabs s) (errorCount s) (timers s)
    (threads s) (fresh s) (calls s) (ran s).

Definition setLastActionResult (r : ActionResult) (s : t) : t :=
  mkLive (targetTabId s) (_pageStateUpdateTimeout s) (executionState s) (currentTask s)
    (lastPageState s) r (contentScriptReadyTabs s) (errorCount s) (timers s)
    (threads s) (fresh s) (calls s) (ran s).

Definition setReadyTabs (tabs : list Z) (s : t) : t :=
  mkLive (targetTabId s) (_pageStateUpdateTimeout s) (executionState s) (currentTask s)
    (lastPageState s) (lastActionResult s) tabs (errorCount s) (timers s)
    (threads s) (fresh s) (calls s) (ran s).

Definition setErrorCount (n : nat) (s : t) : t :=
  mkLive (targetTabId s) (_pageStateUpdateTimeout s) (executionState s) (currentTask s)
    (lastPageState s) (lastActionResult s) (contentScriptReadyTabs s) n (timers s)
    (threads s) (fresh s) (calls s) (ran s).

Definition setTimers (l : list Timer) (s : t) : t :=
  mkLive (targetTabId s) (_pageStateUpdateTimeout s) (executionState s) (currentTask s)
    (lastPageState s) (lastActionResult s) (contentScriptReadyTabs s) (errorCount s) l
    (threads s) (fresh s) (calls s) (ran s).

Definition setThreads (l : list Thread) (s : t) : t :=
  mkLive (targetTabId s) (_pageStateUpdateTimeout s) (executionState s) (currentTask s)
    (lastPageState s) (lastActionResult s) (contentScriptReadyTabs s) (errorCount s)
    (timers s) l (fresh s) (calls s) (ran s).

(** Take the next id. *)
Definition tick (s : t) : t :=
  mkLive (targetTabId s) (_pageStateUpdateTimeout s) (executionState s) (currentTask s)
    (lastPageState s) (lastActionResult s) (contentScriptReadyTabs s) (errorCount s)
    (timers s) (threads s) (S (fresh s)) (calls s) (ran s).

(** Make a call that settles later. *)
Definition call (c : Call) (s : t) : t :=
  mkLive (targetTabId s) (_pageStateUpdateTimeout s) (executionState s) (currentTask s)
    (lastPageState s) (lastActionResult s) (contentScriptReadyTabs s) (errorCount s)
    (timers s) (threads s) (fresh s) (calls s ++ [c]) (ran s).

Definition record (state : PageState) (s : t) : t :=
  mkLive (targetTabId s) (_pageStateUpdateTimeout s) (executionState s) (currentTask s)
    (lastPageState s) (lastActionResult s) (contentScriptReadyTabs s) (errorCount s)
    (timers s) (threads s) (fresh s) (calls s) (ran s ++ [state]).

(** Suspend at a promise: the call chain of [o] is in flight, waiting for [w]. *)
Definition suspend (o : Origin) (w : Wait) (s : t) : t :=
  tick (setThreads (threads s ++ [mkThread (fresh s) o w]) s).

(** The call chain of [o] has come to its end: the callback of a timer
    runs its [finally], [this._pageStateUpdateTimeout = null]. *)
Definition finish (o : Origin) (s : t) : t :=
  match o with
  | ByStart => s
  | ByTimer => setHandle None s
  end.

Section WithClock.
(** [new Date(now).toISOString()]. *)
Context (iso : Z → string).

Definition updateExecutionState (u : Updates) (s : t) : t :=
  setExec (merge (executionState s) u) s.

Definition logged (now : Z) (k : LogKind) (m : option string) (s : t)
    : option (list LogLine) :=
  Some (logs (executionState s) ++ [LogObject k m (iso now)]).

Definition stopExecution (s : t) : t :=
  setErrorCount 0 (setExec (Budget.setStatus SIdle (executionState s)) s).

(** [requestNextAction] up to its [await]. *)
Definition requestNextAction (o : Origin) (s : t) : t :=
  match currentTask s with
  | None => finish o s
  | Some prompt =>
      suspend o ForModel
        (call (GetNextAction prompt (lastPageState s) (lastActionResult s)) s)
  end.

(** [executeAction] from the end of its [try]/[catch] on, once
    [performAction] has settled with [result]. *)
Definition afterAction (o : Origin) (result : Settled ()) (s : t) : t :=
  let report (ok : bool) (lastError : option JsError) (s3 : t) :=
    let s4 := setLastActionResult (mkResult ok (message_of <$> lastError)) s3 in
    match status (executionState s4) with
    | SRunning => requestNextAction o s4
    | _ => finish o s4
    end in
  match result with
  | Fulfilled _ => report true None (setErrorCount 0 s)
  | Rejected e =>
      let s1 := setErrorCount (errorCount s + 1) s in
      if decide (Budget.MAX_ERRORS ≤ errorCount s1) then
        finish o
          (stopExecution
             (setExec
                (Budget.pushLog (LogString "Task failed due to too many errors.")
                   (Budget.setStatus SFailed (executionState s1))) s1))
      else report false (Some e) s1
  end.

(** [performAction] up to its first [await], if it has one. *)
Inductive Performed :=
| Finished (result : Settled ()) (s : t)   (* no await: the promise has settled *)
| Pending (s : t).                         (* waiting for executeInTab or navigate *)

Definition performAction (now : Z) (a : AIAction) (s : t) : Performed :=
  let inTab (command : string) :=
    Pending (call (ExecuteInTab (targetTabId s) command (payload a)) s) in
  if decide (type a = "CLICK") then inTab "click"
  else if decide (type a = "TYPE") then inTab "type"
  else if decide (type a = "SUBMIT") then inTab "submit"
  else if decide (type a = "SCROLL") then inTab "scroll"
  else if decide (type a = "HOVER") then inTab "hover"
  else if decide (type a = "STORE") then Finished (Fulfilled ()) s
  else if decide (type a = "NAVIGATE") then
    match payload a with
    | None => Finished (Rejected (TypeError "url")) s
    | Some pl =>
        match targetTabId s with
        | None => Finished (Rejected (Error "No target tab found")) s
        | Some _ => Pending (call (Navigate (url pl)) s)
        end
    end
  else if decide (type a = "PRINT") then
    match payload a with
    | None => Finished (Rejected (TypeError "text")) s
    | Some pl =>
        Finished (Fulfilled ())
          (updateExecutionState
             (mkUpdates None None None None (logged now info (text pl) s)) s)
    end
  else if decide (type a = "COMPLETE") then
    Finished (Fulfilled ())
      (updateExecutionState
         (mkUpdates (Some SIdle) None None None
            (logged now info (Some "Task completed successfully") s)) s)
  else if decide (type a = "FAILED") then
    let why := default "Task failed" (Parser.truthy (payload a ≫= reason)) in
    Finished (Fulfilled ())
      (updateExecutionState
         (mkUpdates (Some SError) None None (Some why)
            (logged now error (Some why) s)) s)
  else Finished (Fulfilled ()) s.

(** [executeAction] from its start; the error it throws without a target
    tab is caught by the [catch] of its caller, which ends the chain. *)
Definition executeAction (now : Z) (o : Origin) (a : AIAction) (s : t) : t :=
  match targetTabId s with
  | None => finish o s
  | Some _ =>
      let s1 := setExec
                  (Budget.pushLog (LogString ("Executing action: " +:+ type a))
                     (Budget.stepUp (executionState s))) s in
      match performAction now a s1 with
      | Finished result s2 => afterAction o result s2
      | Pending s2 => suspend o (ForAction a) s2
      end
  end.

(** What [requestNextAction] and the timer callback do once
    [getNextAction] has settled. *)
Definition onModel (now : Z) (o : Origin) (answer : Settled AIResponse) (s : t) : t :=
  match answer with
  | Rejected _ => finish o s
  | Fulfilled response =>
      match action response with
      | Some a =>
          executeAction now o a
            (updateExecutionState
               (mkUpdates None None (Some a) None
                  (logged now info (Some ("AI Response: " +:+ reasoning response)) s))
               s)
      | None =>
          if completed response then
            finish o
              (setTask None
                 (updateExecutionState
                    (mkUpdates (Some SIdle) None None None
                       (logged now info (Some "Task completed successfully") s)) s))
          else finish o s
      end
  end.

Definition handleNewTask (prompt : string) (s : t) : t :=
  let s1 := stopExecution s in
  let s2 := setExec (mkExec SRunning 0 0 None None []) s1 in
  let s3 := setTask (Some prompt) s2 in
  let s4 := setErrorCount 0 s3 in
  requestNextAction ByStart s4.

(** [handlePageStateUpdate] at time [now]: [clearTimeout] on the handle
    that is stored, if one is, then [setTimeout] for 500 ms later. *)
Definition handlePageStateUpdate (now : Z) (state : PageState) (s : t) : t :=
  let armed :=
    match _pageStateUpdateTimeout s with
    | Some id => filter (λ tm, timerId tm ≠ id) (timers s)
    | None => timers s
    end in
  tick (setHandle (Some (fresh s))
          (setTimers (armed ++ [mkTimer (fresh s) (now + 500)%Z state]) s)).

(** The callback of a page-state timer up to its first [await]. *)
Definition pageStateTimer (state : PageState) (s : t) : t :=
  let s1 := record state (setLastPageState (Some state) s) in
  match currentTask s1, status (executionState s1) with
  | Some prompt, SRunning =>
      suspend ByTimer ForModel
        (call (GetNextAction prompt (lastPageState s1) (lastActionResult s1)) s1)
  | _, _ => finish ByTimer s1
  end.

Definition onMessage (now : Z) (m : Budget.Message) (s : t) : t :=
  match m with
  | Budget.CONTENT_SCRIPT_READY tabId =>
      setReadyTabs (tabId :: contentScriptReadyTabs s) s
  | Budget.START_TASK prompt => handleNewTask prompt s
  | Budget.PAGE_STATE_UPDATE state => handlePageStateUpdate now state s
  | Budget.EXECUTION_STOP => stopExecution s
  end.

(** What the event loop takes next. *)
Inductive Input :=
| Receive (m : Budget.Message)                            (* chrome.runtime.onMessage *)
| ModelSettles (id : nat) (answer : Settled AIResponse)   (* getNextAction settles *)
| ActionSettles (id : nat) (result : Settled ())          (* executeInTab or navigate settles *)
| Idle.                                                   (* nothing but the clock *)

Definition awaiting (id : nat) (s : t) : option Thread :=
  head (filter (λ th, tid th = id) (threads s)).

Definition resume (id : nat) (s : t) : t :=
  setThreads (filter (λ th, tid th ≠ id) (threads s)) s.

(** One input; [None] when a promise is said to settle that no call in
    flight waits for. *)
Definition handle (now : Z) (i : Input) (s : t) : option t :=
  match i with
  | Receive m => Some (onMessage now m s)
  | ModelSettles id answer =>
      match awaiting id s with
      | Some (mkThread _ o ForModel) => Some (onModel now o answer (resume id s))
      | _ => None
      end
  | ActionSettles id result =>
      match awaiting id s with
      | Some (mkThread _ o (ForAction _)) => Some (afterAction o result (resume id s))
      | _ => None
      end
  | Idle => Some s
  end.

(** The timers due at [now] run their callbacks, in the order they were
    armed. *)
Definition fireDue (now : Z) (s : t) : t :=
  foldl (λ s tm, pageStateTimer (captured tm) s)
    (setTimers (filter (λ tm, ¬ (due tm ≤ now)%Z) (timers s)) s)
    (filter (λ tm, (due tm ≤ now)%Z) (timers s)).

Definition step (ev : Z * Input) (s : t) : option t :=
  handle ev.1 ev.2 (fireDue ev.1 s).

(** The event loop over timed inputs. *)
Fixpoint run (events : list (Z * Input)) (s : t) : option t :=
  match events with
  | [] => Some s
  | ev :: rest =>
      match step ev s with
      | Some s1 => run rest s1
      | None => None
      end
  end.

End WithClock.

(** Inputs other than START_TASK. *)
Definition notStart (ev : Z * Input) : Prop :=
  match ev.2 with
  | Receive (Budget.START_TASK _) => False
  | _ => True
  end.

(** An answer of the model that carries an action: the decision loop hands
    the action to [executeAction]. *)
Definition handsOver (ev : Z * Input) : bool :=
  match ev.2 with
  | ModelSettles _ (Fulfilled response) => bool_decide (is_Some (action response))
  | _ => false
  end.

(** The number of actions handed to [executeAction] over [events]. *)
Definition handedOver (events : list (Z * Input)) : nat :=
  length (filter (λ ev, handsOver ev = true) events).



(** [s'] has the target tab and the step counter of [s]. *)
Definition keepsCount (s s' : t) : Prop :=
  targetTabId s' = targetTabId s
  ∧ currentStep (executionState s') = currentStep (executionState s).




(** An input from outside the service: a message or the passing of time,
    not the settling of a call the service made. *)
Definition fromOutside (ev : Z * Input) : Prop :=
  match ev.2 with
  | Receive _ | Idle => True
  | _ => False
  end.

(** No call is in flight. *)
Definition quiescent (s : t) : Prop := threads s = [].

End Live.

(** ** Concrete inputs for the event loop *)
Module LiveCases.

Definition iso (now : Z) : string := "2024-01-01T00:00:00.000Z".

(** The service with a target tab, idle. *)
Definition ready : Live.t :=
  Live.mkLive (Some 7%Z) None (mkExec SIdle 0 0 None None []) None None
    (mkResult true None) [7%Z] 0 [] [] 1 [] [].

(** The service without a target tab. *)
Definition noTab : Live.t := Live.create.

(** The service stopped, with nothing in flight. *)
Definition stopped : Live.t :=
  Live.mkLive (Some 7%Z) None (mkExec SIdle 3 0 (Some Scenario.click) None [])
    (Some "book a table") None (mkResult true None) [7%Z] 0 [] [] 1 [] [].

(** The service in the middle of a task, the model's answer awaited. *)
Definition asking : Live.t :=
  Live.mkLive (Some 7%Z) None (mkExec SRunning 3 0 (Some Scenario.click) None [])
    (Some "book a table") None (mkResult true None) [7%Z] 4
    [] [Live.mkThread 1 Live.ByStart Live.ForModel] 2
    [Live.GetNextAction "book a table" None (mkResult true None)] [].


End LiveCases.

(* ====================================================================== *)
(** * Properties *)
(* ====================================================================== *)

(** ** The AI client: stored data, printed data and the action history *)
Section AIClientFacts.
Import Parser AIClient.

Lemma slice0_length n s : String.length (slice0 n s) = n `min` String.length s.
Proof.
  revert s; induction n as [|n IH]; intros [|ch s]; simpl; auto.
Qed.

Lemma slice0_prefix n s : ∃ rest, s = slice0 n s +:+ rest.
Proof.
  revert s; induction n as [|n IH]; intros s.
  - exists s. by destruct s.
  - destruct s as [|ch s]; [by exists ""|].
    destruct (IH s) as [rest Hrest]. exists rest.
    change (String ch s = String ch (slice0 n s +:+ rest)). by rewrite <- Hrest.
Qed.

Lemma slice0_all n s : String.length s ≤ n → slice0 n s = s.
Proof.
  revert s; induction n as [|n IH]; intros [|ch s]; simpl; intros H;
    try done; try lia.
  f_equal. apply IH. lia.
Qed.

Lemma validateStoredData_spec txt :
  validateStoredData txt = slice0 MAX_STORED_LENGTH txt.
Proof.
  unfold validateStoredData. case_decide; [done|].
  symmetry. apply slice0_all. lia.
Qed.

Lemma validatePrintData_spec txt :
  validatePrintData txt = slice0 MAX_PRINT_LENGTH txt.
Proof.
  unfold validatePrintData. case_decide; [done|].
  symmetry. apply slice0_all. lia.
Qed.

Lemma validateStoredData_empty txt : validateStoredData txt = "" ↔ txt = "".
Proof.
  rewrite validateStoredData_spec. split; [|by intros ->].
  destruct txt; [done|]. unfold MAX_STORED_LENGTH. simpl. discriminate.
Qed.

Lemma getNextAction_store now txt app c :
  getNextAction now (storeResponse txt app) c =
    let stored :=
      if bool_decide (app = Some true) && negb (bool_decide (currentStoredData c = ""))
      then currentStoredData c +:+ LF +:+ validateStoredData txt
      else validateStoredData txt in
    let r := {| action := Some (mkAction "STORE"
                   (Some (mkPayload None None (Some txt) app None None None)));
                reasoning := ""; completed := false; failed := false;
                storedData := Some (mkStored stored (ms now)) |} in
    (Fulfilled r, addToHistory now r true (mkClient (actionHistory c) stored)).
Proof. reflexivity. Qed.

Lemma getNextAction_print now txt c :
  getNextAction now (printResponse txt) c =
    let r := {| action := Some (mkAction "PRINT"
                   (Some (mkPayload None None (Some (validatePrintData txt))
                            None None None None)));
                reasoning := ""; completed := false; failed := false;
                storedData := None |} in
    (Fulfilled r, addToHistory now r true c).
Proof. reflexivity. Qed.

End AIClientFacts.

Section HistoryFacts.
Import Parser AIClient.

Lemma tail_drop {A} (k : nat) (l : list A) : tail (drop k l) = drop (S k) l.
Proof.
  revert l; induction k as [|k IH]; intros [|x l]; simpl; done.
Qed.

Lemma lastn_length {A} n (l : list A) : length (lastn n l) = n `min` length l.
Proof. unfold lastn. rewrite length_drop. lia. Qed.

(** Pushing and shifting on the bounded list follows the last ten
    elements of the unbounded one. *)
Lemma lastn_snoc {A} (l : list A) x :
  lastn 10 (l ++ [x]) =
    if decide (10 < length (lastn 10 l ++ [x]))
    then shift (lastn 10 l ++ [x]) else lastn 10 l ++ [x].
Proof.
  rewrite length_app, lastn_length. unfold lastn, shift.
  rewrite length_app. change (length [x]) with 1. case_decide as H.
  - replace (length l + 1 - 10) with (S (length l - 10)) by lia.
    rewrite <- (drop_app_le l [x]) by lia.
    by rewrite tail_drop.
  - replace (length l + 1 - 10) with 0 by lia.
    replace (length l - 10) with 0 by lia. by rewrite !drop_0.
Qed.

Lemma view_markLastFailed h :
  view <$> markLastFailed h = clearLast (view <$> h).
Proof.
  unfold markLastFailed, clearLast. rewrite length_fmap.
  destruct (length h) as [|i]; [done|].
  apply list_fmap_alter. apply Forall_forall. by intros [].
Qed.

Lemma lastn_clearLast (l : list (option AIAction * string * bool)) :
  lastn 10 (clearLast l) = clearLast (lastn 10 l).
Proof.
  unfold clearLast at 2. rewrite lastn_length.
  unfold clearLast, lastn. destruct (length l) as [|i] eqn:Hlen.
  - by rewrite Hlen.
  - rewrite length_alter, Hlen.
    rewrite drop_alter_ge by lia.
    replace (10 `min` S i) with (S (i - (S i - 10))) by lia. done.
Qed.

Lemma handleParsed_history now r c :
  match handleParsed now r c with
  | (Fulfilled r', c') =>
      let pushed := actionHistory c ++ [mkEntry (action r') (reasoning r') (iso now) true] in
      actionHistory c' = if decide (10 < length pushed) then shift pushed else pushed
  | (Rejected _, c') => actionHistory c' = actionHistory c
  end.
Proof.
  unfold handleParsed. destruct (action r) as [a|]; [|done].
  destruct (decide (type a = "STORE")).
  { destruct (payload a) as [pl|]; [|done]. by destruct (text pl). }
  destruct (decide (type a = "PRINT")).
  { destruct (payload a) as [pl|]; [|done]. by destruct (text pl). }
  by case_decide.
Qed.

(** What one call does to the history: a returned response is pushed
    (and the oldest entry shifted out past ten), a failed call marks the
    newest entry. *)
Lemma getNextAction_history now answer c :
  match getNextAction now answer c with
  | (Fulfilled r, c') =>
      let pushed := actionHistory c ++ [mkEntry (action r) (reasoning r) (iso now) true] in
      actionHistory c' = if decide (10 < length pushed) then shift pushed else pushed
  | (Rejected _, c') => actionHistory c' = markLastFailed (actionHistory c)
  end.
Proof.
  destruct answer as [|e|raw]; try done.
  unfold getNextAction. destruct (parse raw) as [r|e]; [|done].
  pose proof (handleParsed_history now r c) as H.
  destruct (handleParsed now r c) as [[r'|e] c']; [done|].
  simpl. by rewrite H.
Qed.

Lemma getNextActionPlain_history now answer c :
  match getNextActionPlain now answer c with
  | (Fulfilled r, c') =>
      let pushed := actionHistory c ++ [mkEntry (action r) (reasoning r) (iso now) true] in
      actionHistory c' = if decide (10 < length pushed) then shift pushed else pushed
  | (Rejected _, c') => actionHistory c' = markLastFailed (actionHistory c)
  end.
Proof.
  destruct answer as [|e|raw]; try done.
  unfold getNextActionPlain. by destruct (parse raw) as [r|e].
Qed.

Lemma session_history call calls :
  (∀ now answer c,
     match call now answer c with
     | (Fulfilled r, c') =>
         let pushed := actionHistory c ++ [mkEntry (action r) (reasoning r) (iso now) true] in
         actionHistory c' = if decide (10 < length pushed) then shift pushed else pushed
     | (Rejected _, c') => actionHistory c' = markLastFailed (actionHistory c)
     end) →
  ∀ c acc,
    view <$> actionHistory c = lastn 10 acc →
    view <$> actionHistory (session call calls c).2
      = lastn 10 (unboundedHistory (session call calls c).1 acc).
Proof.
  intros Hcall.
  induction calls as [|[now answer] calls IH]; intros c acc Hinv; [done|].
  simpl. pose proof (Hcall now answer c) as Hstep.
  destruct (call now answer c) as [[r|e] c1].
  - specialize (IH c1 (acc ++ [(action r, reasoning r, true)])).
    destruct (session call calls c1) as [rs c2]. simpl in *. apply IH.
    rewrite Hstep, lastn_snoc, <- Hinv.
    rewrite !length_app, !length_fmap. change (length [_]) with 1.
    clear Hstep. case_decide; unfold shift; [rewrite fmap_tail|]; by rewrite fmap_app.
  - specialize (IH c1 (clearLast acc)).
    destruct (session call calls c1) as [rs c2]. simpl in *. apply IH.
    by rewrite Hstep, view_markLastFailed, lastn_clearLast, Hinv.
Qed.

End HistoryFacts.

(** C10. On every client state reachable from a fresh client through any
    sequence of [getNextAction] calls, in either revision of the client,
    the action history holds at most ten entries, and they are the ten most
    recent (action, reasoning, success) entries in order, newest last: each
    returned response was appended and the oldest entry evicted once the
    length exceeded ten. *)
Theorem action_history_keeps_last_ten :
  (∀ calls : list (Clock * AIClient.Completion),
     let '(outcomes, c) :=
       AIClient.session AIClient.getNextAction calls AIClient.create in
     length (AIClient.actionHistory c) ≤ 10 ∧
     AIClient.view <$> AIClient.actionHistory c
       = AIClient.lastn 10 (AIClient.unboundedHistory outcomes []))
  ∧ (∀ calls : list (Clock * AIClient.Completion),
       let '(outcomes, c) :=
         AIClient.session AIClient.getNextActionPlain calls AIClient.create in
       length (AIClient.actionHistory c) ≤ 10 ∧
       AIClient.view <$> AIClient.actionHistory c
         = AIClient.lastn 10 (AIClient.unboundedHistory outcomes [])).
Proof.
  assert (∀ call calls,
    AIClient.view <$> AIClient.actionHistory
                        (AIClient.session call calls AIClient.create).2
      = AIClient.lastn 10
          (AIClient.unboundedHistory
             (AIClient.session call calls AIClient.create).1 []) →
    let '(outcomes, c) := AIClient.session call calls AIClient.create in
    length (AIClient.actionHistory c) ≤ 10 ∧
    AIClient.view <$> AIClient.actionHistory c
      = AIClient.lastn 10 (AIClient.unboundedHistory outcomes [])) as Hbound.
  { intros call calls H.
    destruct (AIClient.session call calls AIClient.create) as [outcomes c].
    simpl in H. split; [|done].
    rewrite <- (length_fmap AIClient.view), H, lastn_length. lia. }
  split; intros calls; apply Hbound; apply session_history; try done.
  - apply getNextAction_history.
  - apply getNextActionPlain_history.
Qed.

(** ** The parser and the decision handed to the loop *)

Lemma parse_outcome raw r :
  Parser.parse raw = Fulfilled r →
  ∃ a, action r = Some a
       ∧ completed r = bool_decide (type a = "COMPLETE")
       ∧ failed r = bool_decide (type a = "FAILED").
Proof.
  destruct raw as [| |[[[ty pl]|] rs]]; simpl; try done.
  destruct (Parser.truthy ty) as [t|]; [|done].
  intros [= <-]. by eexists.
Qed.

Lemma handleParsed_outcome now r c r' c' :
  AIClient.handleParsed now r c = (Fulfilled r', c') →
  completed r' = completed r ∧ failed r' = failed r
  ∧ ∃ a a', action r = Some a ∧ action r' = Some a' ∧ type a' = type a.
Proof.
  unfold AIClient.handleParsed. destruct (action r) as [a|] eqn:Ha; [|done].
  destruct (decide (type a = "STORE")).
  { destruct (payload a) as [pl|]; [|done]. destruct (text pl); [|done].
    intros [= <- <-]. simpl. eauto 10. }
  destruct (decide (type a = "PRINT")).
  { destruct (payload a) as [pl|]; [|done]. destruct (text pl); [|done].
    intros [= <- <-]. simpl. eauto 10. }
  case_decide; intros [= <- <-]; eauto 10.
Qed.

(** C9, as the code has it. Every decision [getNextAction] returns to the
    decision loop, in either revision of the client, carries an action;
    [completed] is set exactly when that action's type is COMPLETE and
    [failed] exactly when it is FAILED, so the two flags are never set
    together and both are clear for every other action type. *)
Theorem decision_flags_follow_action_type :
  ∀ call now answer c r,
    call = AIClient.getNextAction ∨ call = AIClient.getNextActionPlain →
    (call now answer c).1 = Fulfilled r →
    ∃ a, action r = Some a
         ∧ completed r = bool_decide (type a = "COMPLETE")
         ∧ failed r = bool_decide (type a = "FAILED")
         ∧ ¬ (completed r = true ∧ failed r = true)
         ∧ (type a ≠ "COMPLETE" → type a ≠ "FAILED" →
            completed r = false ∧ failed r = false).
Proof.
  intros call now answer c r Hcall Hr.
  assert (∃ a, action r = Some a
               ∧ completed r = bool_decide (type a = "COMPLETE")
               ∧ failed r = bool_decide (type a = "FAILED")) as (a & Ha & Hc & Hf).
  { destruct answer as [|e|raw]; [by destruct Hcall as [-> | ->]..|].
    destruct Hcall as [-> | ->].
    - unfold AIClient.getNextAction in Hr.
      destruct (Parser.parse raw) as [r0|e] eqn:Hp; [|done].
      destruct (AIClient.handleParsed now r0 c) as [[r'|e] c'] eqn:Hh; [|done].
      simpl in Hr. injection Hr as ->.
      destruct (parse_outcome _ _ Hp) as (a0 & Ha0 & Hc & Hf).
      destruct (handleParsed_outcome _ _ _ _ _ Hh)
        as (Hc' & Hf' & a & a' & Ha & Ha' & Hty).
      simplify_eq. exists a'. by rewrite Hc', Hf', Hc, Hf, Hty.
    - unfold AIClient.getNextActionPlain in Hr.
      destruct (Parser.parse raw) as [r0|e] eqn:Hp; [|done].
      simpl in Hr. injection Hr as ->. by apply parse_outcome in Hp. }
  exists a. rewrite Hc, Hf. repeat split; try done.
  - intros [H1 H2]. apply bool_decide_eq_true in H1, H2. congruence.
  - by apply bool_decide_eq_false.
  - by apply bool_decide_eq_false.
Qed.

Lemma decision_flags_follow_action_type_witness :
  ∃ a, action {| action := Some (mkAction "CLICK" None); reasoning := "";
                 completed := false; failed := false; storedData := None |} = Some a
       ∧ false = bool_decide (type a = "COMPLETE")
       ∧ false = bool_decide (type a = "FAILED")
       ∧ ¬ (false = true ∧ false = true)
       ∧ (type a ≠ "COMPLETE" → type a ≠ "FAILED" → false = false ∧ false = false).
Proof.
  apply (decision_flags_follow_action_type AIClient.getNextAction (mkClock "" 0)
           (AIClient.Completed (Parser.Json (Parser.mkParsed
              (Some (Parser.mkRawAction (Some "CLICK") None)) None)))
           AIClient.create).
  - left. reflexivity.
  - reflexivity.
Defined.

(** C9, counterexample. The model answers with the action COMPLETE: the
    decision returned carries an action and has [completed] set, so the
    stated outcome rule fails. *)
Lemma complete_decision_has_action_and_flag :
  ∃ r, (AIClient.getNextAction (mkClock "" 0)
          (AIClient.Completed (Parser.Json (Parser.mkParsed
             (Some (Parser.mkRawAction (Some "COMPLETE") None)) None)))
          AIClient.create).1 = Fulfilled r
       ∧ is_Some (action r) ∧ completed r = true
       ∧ ¬ singleOutcome r.
Proof.
  eexists. split; [reflexivity|]. simpl. split; [by eexists|]. split; [done|].
  intros [_ H]. destruct H as [H _]; [by eexists|]. discriminate.
Qed.

(** ** Stored and printed text *)

(** C8. A STORE of "x" followed by a STORE of "y" in append mode leaves the
    buffer "x", line feed, "y", and a following STORE of "z" with append
    off replaces it by "z"; for arbitrary texts the same holds with every
    text cut to its first 2000 characters (an empty buffer is replaced
    rather than extended). Stored and printed text longer than the maximum
    is truncated to the maximum, a prefix of the original, and the call
    still returns a response. *)
Theorem store_appends_replaces_and_truncates :
  (∀ c n1 n2 n3,
     let c1 := (AIClient.getNextAction n1 (AIClient.storeResponse "x" None) c).2 in
     let c2 := (AIClient.getNextAction n2 (AIClient.storeResponse "y" (Some true)) c1).2 in
     let c3 := (AIClient.getNextAction n3 (AIClient.storeResponse "z" (Some false)) c2).2 in
     AIClient.currentStoredData c1 = "x"
     ∧ AIClient.currentStoredData c2 = "x" +:+ LF +:+ "y"
     ∧ AIClient.currentStoredData c3 = "z")
  ∧ (∀ c n1 n2 n3 x y z,
     let c1 := (AIClient.getNextAction n1 (AIClient.storeResponse x None) c).2 in
     let c2 := (AIClient.getNextAction n2 (AIClient.storeResponse y (Some true)) c1).2 in
     let c3 := (AIClient.getNextAction n3 (AIClient.storeResponse z (Some false)) c2).2 in
     AIClient.currentStoredData c1 = AIClient.validateStoredData x
     ∧ AIClient.currentStoredData c2 =
         (if decide (x = "") then AIClient.validateStoredData y
          else AIClient.validateStoredData x +:+ LF +:+ AIClient.validateStoredData y)
     ∧ AIClient.currentStoredData c3 = AIClient.validateStoredData z)
  ∧ (∀ txt,
       String.length (AIClient.validateStoredData txt)
         = AIClient.MAX_STORED_LENGTH `min` String.length txt
       ∧ (∃ rest, txt = AIClient.validateStoredData txt +:+ rest)
       ∧ String.length (AIClient.validatePrintData txt)
         = AIClient.MAX_PRINT_LENGTH `min` String.length txt
       ∧ (∃ rest, txt = AIClient.validatePrintData txt +:+ rest))
  ∧ (∀ now c txt app,
       ∃ r, (AIClient.getNextAction now (AIClient.storeResponse txt app) c).1 = Fulfilled r
            ∧ sd_text <$> storedData r
              = Some (AIClient.currentStoredData
                        (AIClient.getNextAction now (AIClient.storeResponse txt app) c).2))
  ∧ (∀ now c txt,
       ∃ r a pl, (AIClient.getNextAction now (AIClient.printResponse txt) c).1 = Fulfilled r
            ∧ action r = Some a ∧ type a = "PRINT" ∧ payload a = Some pl
            ∧ text pl = Some (AIClient.validatePrintData txt)).
Proof.
  split; [|split; [|split; [|split]]].
  - intros c n1 n2 n3. rewrite !getNextAction_store. simpl. done.
  - intros c n1 n2 n3 x y z. rewrite !getNextAction_store. simpl.
    split; [done|]. split; [|done].
    destruct (decide (x = "")) as [->|Hx]; [done|].
    rewrite bool_decide_eq_false_2; [done|].
    by rewrite validateStoredData_empty.
  - intros txt. rewrite validateStoredData_spec, validatePrintData_spec.
    rewrite !slice0_length. repeat split; try done; apply slice0_prefix.
  - intros now c txt app. rewrite getNextAction_store. simpl. by eexists.
  - intros now c txt. rewrite getNextAction_print. simpl. by eexists _, _, _.
Qed.

(** ** The error-counter service: steps, dispatches and deliveries *)
Section BudgetSteps.
Import Budget.
Context (E : Env).

















End BudgetSteps.

(** ** The step counter under the event loop *)
Section LiveCount.
Import Live.
Context (iso : Z → string).

Lemma keepsCount_trans s1 s2 s3 : keepsCount s1 s2 → keepsCount s2 s3 → keepsCount s1 s3.
Proof. intros [A1 A2] [B1 B2]. split; congruence. Qed.

Lemma finish_count o s : keepsCount s (finish o s).
Proof. by destruct o. Qed.

Lemma suspend_count o w s : keepsCount s (suspend o w s).
Proof. by split. Qed.

Lemma requestNextAction_count o s : keepsCount s (requestNextAction o s).
Proof.
  unfold requestNextAction. destruct (currentTask s); [by split|apply finish_count].
Qed.

Lemma afterAction_count o result s : keepsCount s (afterAction o result s).
Proof.
  unfold afterAction. destruct result as [u|e].
  - simpl. destruct (status (executionState s)); simpl;
      first [ eapply keepsCount_trans; [|apply requestNextAction_count]; by split
            | eapply keepsCount_trans; [|apply finish_count]; by split ].
  - case_decide.
    + eapply keepsCount_trans; [|apply finish_count]. by split.
    + simpl. destruct (status (executionState s)); simpl;
        first [ eapply keepsCount_trans; [|apply requestNextAction_count]; by split
              | eapply keepsCount_trans; [|apply finish_count]; by split ].
Qed.

Lemma performAction_count now a s :
  match performAction iso now a s with
  | Finished _ s' => keepsCount s s'
  | Pending s' => keepsCount s s'
  end.
Proof.
  unfold performAction. repeat case_decide; try by split.
  - destruct (payload a); [|by split]. by destruct (targetTabId s).
  - by destruct (payload a).
Qed.

Lemma executeAction_count now o a s :
  let s' := executeAction iso now o a s in
  targetTabId s' = targetTabId s
  ∧ currentStep (executionState s')
    = currentStep (executionState s) + (if targetTabId s is Some _ then 1 else 0).
Proof.
  unfold executeAction. destruct (targetTabId s) as [tabId|] eqn:Htab.
  - set (s1 := setExec _ s).
    assert (targetTabId s1 = Some tabId
            ∧ currentStep (executionState s1) = currentStep (executionState s) + 1)
      as [H1 H2] by done.
    pose proof (performAction_count now a s1) as Hp.
    destruct (performAction iso now a s1) as [result s2|s2].
    + destruct (afterAction_count o result s2) as [A1 A2]. destruct Hp as [B1 B2].
      simpl. split; congruence.
    + destruct (suspend_count o (ForAction a) s2) as [A1 A2]. destruct Hp as [B1 B2].
      simpl. split; congruence.
  - destruct (finish_count o s) as [A1 A2]. simpl. rewrite A1, A2, Htab. split; [done|lia].
Qed.

Lemma onModel_count now o answer s :
  let s' := onModel iso now o answer s in
  targetTabId s' = targetTabId s
  ∧ currentStep (executionState s')
    = currentStep (executionState s)
      + match answer with
        | Fulfilled response =>
            if action response is Some _ then (if targetTabId s is Some _ then 1 else 0) else 0
        | Rejected _ => 0
        end.
Proof.
  unfold onModel. destruct answer as [response|e].
  - destruct (action response) as [a|].
    + match goal with |- context [executeAction iso now o a ?s1] =>
        destruct (executeAction_count now o a s1) as [A1 A2]
      end. simpl in *. by rewrite A1, A2.
    + destruct (completed response).
      * match goal with |- context [finish o ?s1] =>
          destruct (finish_count o s1) as [A1 A2]
        end. simpl in *. rewrite A1, A2. split; [done|lia].
      * destruct (finish_count o s) as [A1 A2]. simpl. rewrite A1, A2. split; [done|lia].
  - destruct (finish_count o s) as [A1 A2]. simpl. rewrite A1, A2. split; [done|lia].
Qed.

Lemma pageStateTimer_count state s : keepsCount s (pageStateTimer state s).
Proof.
  unfold pageStateTimer. simpl. destruct (currentTask s); [|by split].
  by destruct (status (executionState s)).
Qed.

Lemma fireDue_count now s : keepsCount s (fireDue now s).
Proof.
  unfold fireDue.
  set (s0 := setTimers _ s). assert (keepsCount s s0) as H0 by done. clearbody s0.
  revert s0 H0. induction (filter _ (timers s)) as [|tm l IH]; intros s0 H0; [done|].
  simpl. apply IH. eapply keepsCount_trans; [exact H0|apply pageStateTimer_count].
Qed.

Lemma step_count ev s s' :
  step iso ev s = Some s' →
  notStart ev →
  targetTabId s' = targetTabId s
  ∧ currentStep (executionState s')
    = currentStep (executionState s)
      + (if handsOver ev then (if targetTabId s is Some _ then 1 else 0) else 0).
Proof.
  destruct ev as [now i]. unfold step, notStart, handsOver. simpl.
  destruct (fireDue_count now s) as [F1 F2]. revert F1 F2.
  generalize (fireDue now s). intros s0 F1 F2. rewrite <- F1, <- F2. clear F1 F2.
  destruct i as [m|id answer|id result|]; simpl.
  - intros [= <-] Hm. destruct m; try done; simpl; (split; [done|lia]).
  - destruct (awaiting id s0) as [[k o [|a]]|]; try done. intros [= <-] _.
    destruct (onModel_count now o answer (resume id s0)) as [A1 A2].
    simpl in *. rewrite A1, A2. split; [done|].
    destruct answer as [response|e]; [|done].
    destruct (action response); [|done].
    by rewrite bool_decide_true by by eexists.
  - destruct (awaiting id s0) as [[k o [|a]]|]; try done. intros [= <-] _.
    destruct (afterAction_count o result (resume id s0)) as [A1 A2].
    simpl in *. rewrite A1, A2. split; [done|lia].
  - intros [= <-] _. split; [done|lia].
Qed.

Lemma handedOver_cons ev events :
  handedOver (ev :: events) = (if handsOver ev then 1 else 0) + handedOver events.
Proof.
  unfold handedOver. destruct (handsOver ev) eqn:H.
  - by rewrite filter_cons_True.
  - rewrite filter_cons_False; [done|]. by rewrite H.
Qed.

Lemma handedOver_app l1 l2 : handedOver (l1 ++ l2) = handedOver l1 + handedOver l2.
Proof. unfold handedOver. by rewrite filter_app, length_app. Qed.

Lemma run_count events : ∀ s s',
  run iso events s = Some s' →
  Forall notStart events →
  targetTabId s' = targetTabId s
  ∧ currentStep (executionState s')
    = currentStep (executionState s)
      + (if targetTabId s is Some _ then handedOver events else 0).
Proof.
  induction events as [|ev events IH]; intros s s' Hrun Hns.
  { injection Hrun as <-. split; [done|]. destruct (targetTabId s); simpl;
      unfold handedOver; simpl; lia. }
  apply Forall_cons in Hns as [Hev Hns]. simpl in Hrun.
  destruct (step iso ev s) as [s1|] eqn:Hstep; [|done].
  destruct (step_count ev s s1 Hstep Hev) as [A1 A2].
  destruct (IH s1 s' Hrun Hns) as [B1 B2].
  split; [congruence|]. rewrite B2, A2, A1, handedOver_cons.
  destruct (targetTabId s), (handsOver ev); lia.
Qed.

End LiveCount.

(** C7, as the code has it. While a target tab is set, the step counter
    equals the number of actions handed to [executeAction] since the last
    START_TASK: it is 0 when START_TASK has been handled, and over any
    inputs without a further START_TASK (messages, timers, answers of the
    model to the loop of this task, of an earlier task still in flight or of
    a page-state callback, results of the actions) it has grown by one for
    every answer of the model that carried an action; so it never decreases
    between two START_TASKs. *)
Theorem step_counter_counts_actions_handed_over :
  ∀ iso t0 prompt (earlier later : list (Z * Live.Input)) (s started midway final : Live.t),
    is_Some (Live.targetTabId s) →
    Forall Live.notStart (earlier ++ later) →
    Live.run iso [(t0, Live.Receive (Budget.START_TASK prompt))] s = Some started →
    Live.run iso earlier started = Some midway →
    Live.run iso later midway = Some final →
    currentStep (Live.executionState started) = 0
    ∧ currentStep (Live.executionState midway) = Live.handedOver earlier
    ∧ currentStep (Live.executionState final) = Live.handedOver (earlier ++ later)
    ∧ currentStep (Live.executionState midway)
      ≤ currentStep (Live.executionState final).
Proof.
  intros iso t0 prompt earlier later s started midway final [tabId Htab] Hns H0 H1 H2.
  apply Forall_app in Hns as [Hn1 Hn2].
  assert (Live.targetTabId started = Some tabId
          ∧ currentStep (Live.executionState started) = 0) as [Ht0 Hc0].
  { simpl in H0. unfold Live.step in H0. simpl in H0. injection H0 as <-.
    destruct (fireDue_count t0 s) as [F1 _]. split; [|done].
    simpl. congruence. }
  destruct (run_count iso earlier started midway H1 Hn1) as [Ht1 Hc1].
  destruct (run_count iso later midway final H2 Hn2) as [Ht2 Hc2].
  rewrite Ht0 in Hc1. rewrite Ht1, Ht0 in Hc2.
  rewrite handedOver_app. lia.
Qed.

Lemma step_counter_counts_actions_handed_over_witness :
  let click := Live.ModelSettles 1 (Fulfilled (Scenario.decision Scenario.click)) in
  let again := Live.ModelSettles 3 (Fulfilled (Scenario.decision Scenario.click)) in
  ∃ final,
    Live.run LiveCases.iso
      [(0%Z, Live.Receive (Budget.START_TASK "book a table"));
       (10%Z, click); (20%Z, Live.ActionSettles 2 (Fulfilled ())); (30%Z, again)]
      LiveCases.ready = Some final
    ∧ currentStep (Live.executionState final) = 2.
Proof.
  intros click again.
  pose (start := [(0%Z, Live.Receive (Budget.START_TASK "book a table"))]).
  pose (earlier := [(10%Z, click); (20%Z, Live.ActionSettles 2 (Fulfilled ()))]).
  pose (later := [(30%Z, again)]).
  pose (started := default LiveCases.ready (Live.run LiveCases.iso start LiveCases.ready)).
  pose (midway := default LiveCases.ready (Live.run LiveCases.iso earlier started)).
  pose (final := default LiveCases.ready (Live.run LiveCases.iso later midway)).
  exists final. split; [by vm_compute|].
  assert (is_Some (Live.targetTabId LiveCases.ready)) as Htab by (by eexists).
  assert (Forall Live.notStart (earlier ++ later)) as Hns
    by (repeat constructor).
  assert (Live.run LiveCases.iso start LiveCases.ready = Some started) as H0
    by (vm_compute; reflexivity).
  assert (Live.run LiveCases.iso earlier started = Some midway) as H1
    by (vm_compute; reflexivity).
  assert (Live.run LiveCases.iso later midway = Some final) as H2
    by (vm_compute; reflexivity).
  destruct (step_counter_counts_actions_handed_over LiveCases.iso 0%Z "book a table"
              earlier later LiveCases.ready started midway final Htab Hns H0 H1 H2)
    as (_ & _ & Hfinal & _).
  exact Hfinal.
Defined.

(** C7, counterexample. Without a target tab, the task is started and the
    model answers with a click: the action is recorded as the current one
    and handed to [executeAction], which throws before it counts. One
    action has been handed over, the counter is 0, and the task is still
    running. *)
Lemma action_without_target_tab_is_not_counted :
  let events :=
    [(10%Z, Live.ModelSettles 1 (Fulfilled (Scenario.decision Scenario.click)))] in
  ∃ started final,
    Live.run LiveCases.iso [(0%Z, Live.Receive (Budget.START_TASK "book a table"))]
      LiveCases.noTab = Some started
    ∧ Live.run LiveCases.iso events started = Some final
    ∧ Forall Live.notStart events
    ∧ Live.handedOver events = 1
    ∧ currentAction (Live.executionState final) = Some Scenario.click
    ∧ status (Live.executionState final) = SRunning
    ∧ currentStep (Live.executionState final) = 0
    ∧ currentStep (Live.executionState final) ≠ Live.handedOver events.
Proof.
  intros events. eexists _, _.
  split; [vm_compute; reflexivity|]. split; [vm_compute; reflexivity|].
  split; [repeat constructor|].
  repeat split; try (vm_compute; reflexivity). vm_compute. lia.
Qed.

(** ** The error budget *)

(** Whatever the environment: the failure that brings the counter to
    [MAX_ERRORS] ends [executeAction] at once, without a further decision,
    with the status reset to idle by [stopExecution] and the task kept. *)
Lemma executeAction_trips E next a s e s3 :
  is_Some (Budget.targetTabId s) →
  Budget.attempt E a s = (Rejected e, s3) →
  Budget.MAX_ERRORS ≤ Budget.errorCount s3 →
  ∃ s', Budget.executeAction E next a s = Returned s'
        ∧ status (Budget.executionState s') = SIdle
        ∧ Budget.currentTask s' = Budget.currentTask s3
        ∧ Budget.errorCount s' = 0
        ∧ Budget.effects s' = Budget.effects s3.
Proof.
  intros [tabId Htab] Ha Hmax. unfold Budget.executeAction. rewrite Htab, Ha.
  rewrite decide_True by done. by eexists.
Qed.

(** C1, the code at the failing input. With an executor that rejects every
    command and a model that keeps asking for a click, a task started on
    the error-counter service ends after exactly five dispatches, five
    sends and five decisions, however long the run is observed; the log
    records the failure, but the status left behind is idle, not failed,
    the task is still set and the counter is back at 0. *)
Theorem fifth_failure_leaves_idle_with_task_kept :
  ∀ extra,
    let o := Budget.handleNewTask Scenario.alwaysFailing (5 + extra) "buy milk"
               Scenario.budgetReady in
    (∃ s', o = Returned s')
    ∧ status (Budget.executionState (state_of o)) = SIdle
    ∧ status (Budget.executionState (state_of o)) ≠ SFailed
    ∧ Budget.currentTask (state_of o) = Some "buy milk"
    ∧ Budget.errorCount (state_of o) = 0
    ∧ last (logs (Budget.executionState (state_of o)))
        = Some (LogString "Task failed due to too many errors.")
    ∧ Budget.dispatched (Budget.effects (state_of o)) = 5
    ∧ Budget.sends (Budget.effects (state_of o)) = replicate 5 "click"
    ∧ Budget.decisions (Budget.effects (state_of o)) = replicate 5 "buy milk".
Proof.
  intros extra. cbv zeta.
  change (5 + extra) with (S (S (S (S (S extra))))).
  vm_compute. repeat split; eauto; done.
Qed.

(** ** The retry loop *)
Section RetryFacts.
Import Retry.
Context (E : Env).

Lemma executorBound_cases ty :
  executorBound ty →
  ty = "CLICK" ∨ ty = "TYPE" ∨ ty = "SUBMIT" ∨ ty = "SCROLL" ∨ ty = "HOVER".
Proof. unfold executorBound. rewrite !elem_of_cons, elem_of_nil. tauto. Qed.

Lemma tryOnce_executorBound tabId a s :
  executorBound (type a) →
  tryOnce E tabId a s = executeInTab E tabId (commandOf (type a)) (payload a) s.
Proof.
  intros H. apply executorBound_cases in H.
  unfold tryOnce. destruct H as [H|[H|[H|[H|H]]]]; rewrite H; reflexivity.
Qed.

Lemma commandOf_not_page_state ty :
  executorBound ty → commandOf ty ≠ "get_page_state".
Proof.
  intros H. apply executorBound_cases in H.
  destruct H as [H|[H|[H|[H|H]]]]; rewrite H; done.
Qed.

Lemma description_executorBound a :
  executorBound (type a) → is_Some (payload a) →
  ∃ d, getActionDescription E a = Fulfilled d.
Proof.
  intros H [pl Hpl]. apply executorBound_cases in H.
  unfold getActionDescription. rewrite Hpl.
  destruct H as [H|[H|[H|[H|H]]]]; rewrite H; by eexists.
Qed.

Lemma executeAction_executorBound a s tabId :
  executorBound (type a) → is_Some (payload a) → targetTabId s = Some tabId →
  ∃ s1, effects s1 = effects s ∧ targetTabId s1 = Some tabId
        ∧ executeAction E a s = retryLoop E maxAttempts tabId a s1.
Proof.
  intros H Hpl Htab. destruct (description_executorBound a H Hpl) as [d Hd].
  unfold executeAction. rewrite Htab, Hd.
  apply executorBound_cases in H.
  eexists. split; [|split]; [| |destruct H as [H|[H|[H|[H|H]]]]; rewrite H; reflexivity];
    done.
Qed.

Lemma attempts_app c tr1 tr2 : attempts c (tr1 ++ tr2) = attempts c tr1 + attempts c tr2.
Proof. unfold attempts. by rewrite omap_app, length_app. Qed.

Lemma reinject_state s tabId :
  targetTabId s = Some tabId →
  (reinjectContentScript E s).2 =
    match scripting E (effects s) with
    | Fulfilled _ =>
        perform (SendToTab tabId "get_page_state" (Some noPayload))
          (perform (Sleep 500) (perform (Inject tabId) s))
    | Rejected _ => perform (Inject tabId) s
    end.
Proof.
  intros Htab. unfold reinjectContentScript. rewrite Htab.
  by destruct (scripting E (effects s)).
Qed.

Lemma retryLoop_S n tabId a s :
  retryLoop E (S n) tabId a s =
    match tryOnce E tabId a s with
    | (Fulfilled _, s1) => Returned s1
    | (Rejected e, s1) =>
        match n with
        | 0 => Threw e s1
        | S _ => retryLoop E n tabId a (reinjectContentScript E (perform (Sleep 1000) s1)).2
        end
    end.
Proof. reflexivity. Qed.

Ltac failedRound :=
  rewrite retryLoop_S;
  match goal with
  | Htry : ∀ s', tryOnce _ _ _ s' = _ |- _ => rewrite Htry
  end;
  unfold executeInTab;
  match goal with
  | |- context [tab E ?tr] => destruct (tab E tr) as [[]|?] eqn:?
  end; cbv beta iota.

Ltac reinjected :=
  match goal with
  | Htab : targetTabId _ = Some ?tabId |- _ =>
      rewrite (reinject_state _ tabId) by exact Htab
  end;
  match goal with
  | |- context [scripting E ?tr] => destruct (scripting E tr) as [[]|?] eqn:?
  end.

Lemma retryLoop_shape a s tabId :
  executorBound (type a) → targetTabId s = Some tabId →
  let o := retryLoop E maxAttempts tabId a s in
  let send := SendToTab tabId (commandOf (type a)) (payload a) in
  ∃ new,
    effects (state_of o) = effects s ++ new
    ∧ 1 ≤ attempts (commandOf (type a)) new ≤ 3
    ∧ (∀ i, new !! i = Some send →
            i + 1 = length new
            ∨ (new !! (i + 1) = Some (Sleep 1000) ∧ new !! (i + 2) = Some (Inject tabId)))
    ∧ last new = Some send
    ∧ match o with
      | Returned _ => tab E (effects s ++ removelast new) = Fulfilled ()
      | Threw e _ =>
          attempts (commandOf (type a)) new = 3
          ∧ tab E (effects s ++ removelast new) = Rejected e
      | Cut _ => False
      end.
Proof.
  intros Hb Htab.
  pose proof (commandOf_not_page_state _ Hb) as Hc.
  pose proof (λ s', tryOnce_executorBound tabId a s' Hb) as Htry.
  set (c := commandOf (type a)) in *. clearbody c.
  assert (∀ x y : string, (if decide (c = c) then Some x else None) = Some x) as Hcc
    by (intros; by rewrite decide_True).
  assert (∀ x : string, (if decide ("get_page_state" = c) then Some x else None) = None)
    as Hgc by (intros; by rewrite decide_False).
  unfold maxAttempts. cbv zeta.
  assert (∀ tr1 tr2 r, tab E tr1 = r → tr2 = tr1 → tab E tr2 = r) as Hsame
    by (by intros ??? <- ->).
  repeat first [reinjected | failedRound].
  all: cbn [state_of].
  all: cbn [state_of];
    (eexists; split; [simpl; rewrite <- ?app_assoc; simpl; reflexivity|]);
    unfold attempts; cbn [omap list_omap app length];
    rewrite ?Hcc, ?Hgc by done; cbn [length];
    (split; [lia|]); (split; [|split; [done|]]);
    try (intros i Hi;
         repeat (destruct i as [|i]; simpl in *; simplify_eq; auto));
    try done; cbn [removelast app]; rewrite ?app_nil_r; try (split; [done|]);
    match goal with
    | H : tab E ?x = ?r |- tab E ?y = ?r =>
        apply (Hsame _ _ _ H); simpl; by rewrite <- ?app_assoc
    end.
Qed.
End RetryFacts.

Section BudgetAttempt.
Import Budget.
Context (E : Env).

Lemma sends_app tr1 tr2 : sends (tr1 ++ tr2) = sends tr1 ++ sends tr2.
Proof. unfold sends. by rewrite omap_app. Qed.

End BudgetAttempt.

Section RetryAnswers.
Import Retry.
Context (E : Env).

(** The answer to every attempt of the retry loop: a success is the last
    effect of the dispatch, a failure is the error thrown or is followed by
    the wait and the re-injection. *)
Lemma retryLoop_answers a tabId left :
  executorBound (type a) →
  ∀ s, targetTabId s = Some tabId →
    let o := retryLoop E left tabId a s in
    let send := SendToTab tabId (commandOf (type a)) (payload a) in
    ∃ new,
      effects (state_of o) = effects s ++ new
      ∧ ∀ i, new !! i = Some send →
          match tab E (effects s ++ take i new) with
          | Fulfilled _ => i + 1 = length new ∧ ∃ s', o = Returned s'
          | Rejected e =>
              (i + 1 = length new ∧ ∃ s', o = Threw e s')
              ∨ (new !! (i + 1) = Some (Sleep 1000)
                 ∧ new !! (i + 2) = Some (Inject tabId))
          end.
Proof.
  intros Hb. pose proof (commandOf_not_page_state _ Hb) as Hc.
  induction left as [|left IH]; intros s Htab o send; subst o.
  { exists []. split; [by rewrite app_nil_r|]. by intros i. }
  rewrite retryLoop_S, tryOnce_executorBound by done. unfold executeInTab.
  destruct (tab E (effects s)) as [u|e] eqn:Ht.
  - exists [send]. split; [done|]. intros [|i] Hi; [|by destruct i].
    simpl. rewrite app_nil_r, Ht. split; [done|by eexists].
  - destruct left as [|left].
    + exists [send]. split; [done|]. intros [|i] Hi; [|by destruct i].
      simpl. rewrite app_nil_r, Ht. left. split; [done|by eexists].
    + fold send. set (s1 := perform (Sleep 1000) (perform send s)).
      assert (targetTabId s1 = Some tabId) as Htab1 by done.
      rewrite (reinject_state E s1 tabId Htab1).
      set (s2 := match scripting E (effects s1) with
                 | Fulfilled _ => _ | Rejected _ => _ end).
      assert (∃ rest, effects s2 = effects s ++ [send; Sleep 1000; Inject tabId] ++ rest
                      ∧ targetTabId s2 = Some tabId
                      ∧ ∀ i, rest !! i ≠ Some send)
        as (rest & He2 & Htab2 & Hrest).
      { subst s2. destruct (scripting E (effects s1)); simpl.
        - eexists. split; [by rewrite <- !app_assoc|]. split; [done|].
          intros [|[|i]]; simpl; try done. intros [= ? ?]. by apply Hc.
        - exists []. split; [by rewrite <- !app_assoc|]. split; [done|]. by intros i. }
      clearbody s2.
      destruct (IH s2 Htab2) as (new' & Hnew' & Hans). fold send in Hans.
      exists ([send; Sleep 1000; Inject tabId] ++ rest ++ new').
      split. { rewrite Hnew', He2. by rewrite <- !app_assoc. }
      intros i Hi. destruct i as [|[|[|i]]]; simpl in Hi; try done.
      * simpl. rewrite app_nil_r, Ht. by right.
      * destruct (decide (i < length rest)) as [Hlt|Hge].
        { rewrite lookup_app_l in Hi by done. by destruct (Hrest i). }
        rewrite lookup_app_r in Hi by lia.
        specialize (Hans _ Hi).
        assert (effects s ++ take (S (S (S i))) ([send; Sleep 1000; Inject tabId] ++ rest ++ new')
                = effects s2 ++ take (i - length rest) new') as ->.
        { rewrite He2. simpl. rewrite take_app_ge by lia. by rewrite <- !app_assoc. }
        assert (∀ k, ([send; Sleep 1000; Inject tabId] ++ rest ++ new')
                       !! (S (S (S i)) + k)
                     = new' !! (i - length rest + k)) as Hk.
        { intros k. simpl. rewrite lookup_app_r by lia. f_equal. lia. }
        rewrite !Hk.
        assert (S (S (S i)) + 1 = length ([send; Sleep 1000; Inject tabId] ++ rest ++ new')
                ↔ i - length rest + 1 = length new') as Hlen.
        { simpl. rewrite length_app. lia. }
        destruct (tab E (effects s2 ++ take (i - length rest) new')); rewrite Hlen; exact Hans.
Qed.

End RetryAnswers.

Section LiveDispatch.
Import Live.
Context (iso : Z → string).

Lemma performAction_executorBound now a s :
  Retry.executorBound (type a) →
  performAction iso now a s
  = Pending (call (ExecuteInTab (targetTabId s) (Retry.commandOf (type a)) (payload a)) s).
Proof.
  intros H. apply executorBound_cases in H. unfold performAction.
  destruct H as [H|[H|[H|[H|H]]]]; rewrite H; reflexivity.
Qed.

Lemma requestNextAction_calls o s :
  calls (requestNextAction o s) = calls s
  ∨ ∃ prompt, calls (requestNextAction o s)
              = calls s ++ [GetNextAction prompt (lastPageState s) (lastActionResult s)].
Proof.
  unfold requestNextAction. destruct (currentTask s) as [prompt|].
  - right. by exists prompt.
  - left. by destruct o.
Qed.

End LiveDispatch.

(** C2, as the code has it. In the revision with the retry loop, a Click,
    Type, Submit, Scroll or Hover action that carries a payload goes
    through [executeInTab] at least once and at most three times. An
    attempt that succeeds is the last effect of the dispatch, which then
    returns; an attempt that fails is either the third, whose error the
    dispatch throws to its caller, or is followed by a 1000 ms wait and a
    re-injection of the content script, whose own failure is ignored. That
    revision keeps no error counter. In the revision with the error
    counter, the dispatch of such an action calls [executeInTab] once, with
    the target tab, the command and the payload, and waits for that call to
    settle, leaving the counter as it is; what [executeInTab] does before
    it settles is not part of this statement. When the call has settled,
    the counter is 0 after a success, one higher after a failure that
    leaves it below the maximum, and 0 again, with the status idle and the
    failure logged, after the failure that reaches the maximum; the
    dispatch never calls [executeInTab] a second time: the only call that
    can follow is the next decision request. *)
Theorem retry_returns_at_first_success_budget_calls_once :
  (∀ E (a : AIAction) (s : Retry.t) tabId,
     Retry.executorBound (type a) →
     is_Some (payload a) →
     Retry.targetTabId s = Some tabId →
     let o := Retry.executeAction E a s in
     let send := SendToTab tabId (Retry.commandOf (type a)) (payload a) in
     ∃ new,
       Retry.effects (state_of o) = Retry.effects s ++ new
       ∧ 1 ≤ Retry.attempts (Retry.commandOf (type a)) new ≤ 3
       ∧ last new = Some send
       ∧ (∀ i, new !! i = Some send →
            match tab E (Retry.effects s ++ take i new) with
            | Fulfilled _ => i + 1 = length new ∧ ∃ s', o = Returned s'
            | Rejected e =>
                (i + 1 = length new
                 ∧ Retry.attempts (Retry.commandOf (type a)) new = 3
                 ∧ ∃ s', o = Threw e s')
                ∨ (new !! (i + 1) = Some (Sleep 1000)
                   ∧ new !! (i + 2) = Some (Inject tabId))
            end))
  ∧ (∀ iso now (a : AIAction) (s : Live.t) o tabId,
       Retry.executorBound (type a) →
       Live.targetTabId s = Some tabId →
       let s1 := Live.executeAction iso now o a s in
       Live.calls s1
       = Live.calls s
           ++ [Live.ExecuteInTab (Some tabId) (Retry.commandOf (type a)) (payload a)]
       ∧ Live.threads s1
         = Live.threads s ++ [Live.mkThread (Live.fresh s) o (Live.ForAction a)]
       ∧ Live.errorCount s1 = Live.errorCount s)
  ∧ (∀ o result (s : Live.t),
       let s' := Live.afterAction o result s in
       (Live.calls s' = Live.calls s
        ∨ ∃ prompt page lastResult,
            Live.calls s' = Live.calls s ++ [Live.GetNextAction prompt page lastResult])
       ∧ match result with
         | Fulfilled _ =>
             Live.errorCount s' = 0
             ∧ Live.lastActionResult s' = mkResult true None
         | Rejected e =>
             if decide (Live.errorCount s + 1 < Budget.MAX_ERRORS) then
               Live.errorCount s' = Live.errorCount s + 1
               ∧ Live.lastActionResult s' = mkResult false (Some (message_of e))
             else
               Live.errorCount s' = 0
               ∧ status (Live.executionState s') = SIdle
               ∧ last (logs (Live.executionState s'))
                 = Some (LogString "Task failed due to too many errors.")
               ∧ Live.calls s' = Live.calls s
         end).
Proof.
  split; [|split].
  - intros E a s tabId Hb Hpl Htab o send.
    destruct (executeAction_executorBound E a s tabId Hb Hpl Htab)
      as (s1 & He & Htab1 & Heq).
    subst o. rewrite Heq, <- He.
    destruct (retryLoop_shape E a s1 tabId Hb Htab1)
      as (new & Hnew & Hn & _ & Hlast & Hout).
    destruct (retryLoop_answers E a tabId Retry.maxAttempts Hb s1 Htab1)
      as (new' & Hnew' & Hans).
    assert (new' = new) as -> by (rewrite Hnew in Hnew'; by apply app_inv_head in Hnew').
    exists new. repeat split; try done; try lia.
    intros i Hi. specialize (Hans i Hi). fold send in Hans.
    destruct (tab E (Retry.effects s1 ++ take i new)) as [u|e]; [done|].
    destruct Hans as [[Hl [s' Hs']]|Hr]; [|by right].
    left. split; [done|]. split; [|by eexists].
    rewrite Hs' in Hout. by destruct Hout.
  - intros iso now a s o tabId Hb Htab s1. subst s1.
    unfold Live.executeAction. rewrite Htab.
    rewrite performAction_executorBound by done. simpl. by rewrite Htab.
  - intros o result s s'. subst s'. unfold Live.afterAction.
    destruct result as [u|e].
    + simpl.
      match goal with |- context [Live.requestNextAction o ?s4] =>
        pose proof (requestNextAction_calls o s4) as Hc;
        assert (Live.errorCount (Live.requestNextAction o s4) = 0
                ∧ Live.lastActionResult (Live.requestNextAction o s4) = mkResult true None)
          as Hk by (unfold Live.requestNextAction; destruct (Live.currentTask s4);
                    [done|by destruct o])
      end.
      destruct (status (Live.executionState s)); simpl;
        try (split; [left; by destruct o|by destruct o]).
      split; [|done]. destruct Hc as [Hc|[p Hc]]; [by left|right]. by eexists _, _, _.
    + case_decide as Hmax; simpl in Hmax.
      * rewrite decide_False by lia. by destruct o; simpl; rewrite last_snoc; auto.
      * rewrite decide_True by lia. simpl.
        match goal with |- context [Live.requestNextAction o ?s4] =>
          pose proof (requestNextAction_calls o s4) as Hc;
          assert (Live.errorCount (Live.requestNextAction o s4) = Live.errorCount s + 1
                  ∧ Live.lastActionResult (Live.requestNextAction o s4)
                    = mkResult false (Some (message_of e)))
            as Hk by (unfold Live.requestNextAction; destruct (Live.currentTask s4);
                      [done|by destruct o])
        end.
        destruct (status (Live.executionState s)); simpl;
          try (split; [left; by destruct o|by destruct o]).
        split; [|done]. destruct Hc as [Hc|[p Hc]]; [by left|right]. by eexists _, _, _.
Qed.

Lemma retry_returns_at_first_success_budget_calls_once_witness :
  Retry.executorBound (type Scenario.click)
  ∧ is_Some (payload Scenario.click)
  ∧ Retry.targetTabId Scenario.retryReady = Some 7%Z
  ∧ (∃ new,
       Retry.effects (state_of (Retry.executeAction Scenario.thirdTimeLucky Scenario.click
                                  Scenario.retryReady))
         = Retry.effects Scenario.retryReady ++ new
       ∧ 1 ≤ Retry.attempts "click" new ≤ 3
       ∧ last new = Some (SendToTab 7%Z "click" (payload Scenario.click)))
  ∧ Live.targetTabId LiveCases.ready = Some 7%Z
  ∧ Live.calls (Live.executeAction LiveCases.iso 0 Live.ByStart Scenario.click
                  LiveCases.ready)
    = [Live.ExecuteInTab (Some 7%Z) "click" (payload Scenario.click)].
Proof.
  assert (Retry.executorBound (type Scenario.click)) as Hb
    by (unfold Retry.executorBound; simpl; rewrite elem_of_cons; by left).
  assert (is_Some (payload Scenario.click)) as Hpl by (by eexists).
  split; [exact Hb|]. split; [exact Hpl|]. split; [reflexivity|]. split.
  - destruct (proj1 retry_returns_at_first_success_budget_calls_once
                Scenario.thirdTimeLucky Scenario.click Scenario.retryReady 7%Z
                Hb Hpl eq_refl)
      as (new & He & Hn & Hlast & _).
    exists new. split; [exact He|]. split; [exact Hn|exact Hlast].
  - split; [reflexivity|].
    exact (proj1 (proj1 (proj2 retry_returns_at_first_success_budget_calls_once)
                    LiveCases.iso 0%Z Scenario.click LiveCases.ready Live.ByStart 7%Z
                    Hb eq_refl)).
Defined.

(** C2, counterexample. The content script rejects the first two clicks
    and would accept the third. On the service that keeps the error
    counter, the dispatch of a click sends one command, reports failure and
    leaves the counter at 1: it neither retries nor ends in success with
    the counter at 0. *)
Lemma budget_dispatch_fails_after_one_send :
  let o := Budget.executeAction Scenario.thirdTimeLucky
             (Budget.requestNextAction Scenario.thirdTimeLucky 1)
             Scenario.click Scenario.budgetRunning in
  Budget.sends (Budget.effects (state_of o)) = ["click"]
  ∧ Budget.lastActionResult (state_of o) = mkResult false (Some "Action failed")
  ∧ Budget.errorCount (state_of o) = 1
  ∧ ¬ (success (Budget.lastActionResult (state_of o)) = true
       ∧ Budget.errorCount (state_of o) = 0).
Proof.
  vm_compute. repeat split; try done. intros [H _]. discriminate.
Qed.

(** ** Starting and stopping a task *)





(** C5, as the code has it. In the revision whose [stopExecution] clears
    the task, every call sets the status to idle (never to stopped), clears
    the task and the last page state, resets the step counter and appends
    one "Task execution stopped by user" entry to the logs, also when the
    service is idle already; a second call changes nothing but the logs,
    which get a second entry. In the revision with the error counter
    [stopExecution] sets the status to idle and the error counter to 0,
    touches neither the task, the logs nor the pending page state, and
    calling it twice is the same as calling it once. *)
Theorem stop_sets_idle_and_logs_every_call :
  (∀ now (s : Retry.t),
     let s' := Retry.stopExecution now s in
     status (Retry.executionState s') = SIdle
     ∧ Retry.currentTask s' = None
     ∧ Retry.lastPageState s' = None
     ∧ currentStep (Retry.executionState s') = 0
     ∧ logs (Retry.executionState s')
       = logs (Retry.executionState s)
           ++ [LogObject info (Some "Task execution stopped by user") now])
  ∧ (∀ now1 now2 (s : Retry.t),
       let once := Retry.stopExecution now1 s in
       let twice := Retry.stopExecution now2 once in
       twice = Retry.setExec
                 (mkExec SIdle 0 0 None None
                    (logs (Retry.executionState once)
                       ++ [LogObject info (Some "Task execution stopped by user") now2]))
                 once
       ∧ length (logs (Retry.executionState twice))
         = S (length (logs (Retry.executionState once))))
  ∧ (∀ s : Budget.t,
       let s' := Budget.stopExecution s in
       Budget.stopExecution s' = s'
       ∧ status (Budget.executionState s') = SIdle
       ∧ Budget.errorCount s' = 0
       ∧ Budget.currentTask s' = Budget.currentTask s
       ∧ logs (Budget.executionState s') = logs (Budget.executionState s)
       ∧ Budget._pageStateUpdateTimeout s' = Budget._pageStateUpdateTimeout s
       ∧ Budget.lastPageState s' = Budget.lastPageState s).
Proof.
  split; [|split].
  - intros now s. simpl. done.
  - intros now1 now2 s. simpl. split; [done|].
    rewrite !length_app. simpl. lia.
  - intros s. simpl. done.
Qed.

(** C5, counterexample. On the idle service of the revision whose
    [stopExecution] logs, a call is not a no-op, two calls do not leave the
    state one call leaves, and the status reached is idle, not stopped. *)
Lemma stop_twice_differs_from_stop_once :
  let now := "2024-01-01T00:00:00.000Z" in
  let once := Retry.stopExecution now Scenario.retryReady in
  let twice := Retry.stopExecution now once in
  status (Retry.executionState Scenario.retryReady) = SIdle
  ∧ once ≠ Scenario.retryReady
  ∧ twice ≠ once
  ∧ status (Retry.executionState once) ≠ SStopped.
Proof.
  simpl. repeat split; done.
Qed.

(** ** Navigation *)

(** C6. A NAVIGATE action whose tab does not report a completed load within
    the timeout (15000 ms in the revision with the error counter, 10000 ms
    in the revision with the retry loop) fails with "Navigation timeout"
    after a single [chrome.tabs.update]: nothing is re-sent or re-injected.
    In the revision with the error counter the failure raises the
    consecutive-failure counter by exactly 1, and, as long as that does not
    reach the maximum, the next decision is requested with that counter
    and the failure as last result. In the revision with the retry loop
    the error is thrown to the caller before the loop is entered. *)
Theorem navigation_timeout_counts_one_failure :
  (∀ E a pl (s : Budget.t) tabId,
     type a = "NAVIGATE" →
     payload a = Some pl →
     Budget.targetTabId s = Some tabId →
     neverLoaded 15000 (loading E (Budget.effects s ++ [Perform a])) →
     let r := (Budget.attempt E a s).1 in
     let s' := (Budget.attempt E a s).2 in
     r = Rejected (Error "Navigation timeout")
     ∧ Budget.errorCount s' = Budget.errorCount s + 1
     ∧ Budget.effects s' = Budget.effects s ++ [Perform a; TabsUpdate tabId (url pl)]
     ∧ (∀ next,
          Budget.errorCount s + 1 < Budget.MAX_ERRORS →
          status (Budget.executionState s) = SRunning →
          ∃ s4, Budget.executeAction E next a s = next s4
                ∧ Budget.errorCount s4 = Budget.errorCount s + 1
                ∧ Budget.lastActionResult s4
                  = mkResult false (Some "Navigation timeout")))
  ∧ (∀ E a pl (s : Retry.t) tabId,
       type a = "NAVIGATE" →
       payload a = Some pl →
       Retry.targetTabId s = Some tabId →
       neverLoaded 10000 (loading E (Retry.effects s)) →
       ∃ s', Retry.executeAction E a s = Threw (Error "Navigation timeout") s'
             ∧ Retry.effects s' = Retry.effects s ++ [TabsUpdate tabId (url pl)]).
Proof.
  split.
  - intros E a pl s tabId Hty Hpl Htab [Hupd Hload] r s'.
    assert (Budget.attempt E a s
            = (Rejected (Error "Navigation timeout"),
               Budget.setErrorCount (Budget.errorCount s + 1)
                 (Budget.perform (TabsUpdate tabId (url pl))
                    (Budget.perform (Perform a)
                       (Budget.setExec
                          (Budget.pushLog (LogString ("Executing action: " +:+ type a))
                             (Budget.stepUp (Budget.executionState s))) s))))) as Hatt.
    { unfold Budget.attempt, Budget.performAction. rewrite Hty. simpl.
      rewrite Hpl. unfold Budget.navigate. simpl. rewrite Htab, Hupd.
      destruct (completeAfter _) as [elapsed|] eqn:Hc; [|done].
      specialize (Hload elapsed eq_refl). rewrite decide_False by lia. done. }
    subst r s'. rewrite Hatt. simpl. rewrite <- app_assoc.
    repeat split; try done.
    intros next Hlt Hrun. unfold Budget.executeAction. rewrite Htab, Hatt.
    simpl. rewrite decide_False by (unfold Budget.MAX_ERRORS in *; lia).
    rewrite Hrun. by eexists.
  - intros E a pl s tabId Hty Hpl Htab [Hupd Hload].
    unfold Retry.executeAction, Retry.getActionDescription.
    rewrite Htab, Hty. simpl. rewrite Hpl. unfold Retry.navigate. simpl.
    rewrite Htab, Hupd.
    destruct (completeAfter _) as [elapsed|] eqn:Hc.
    + specialize (Hload elapsed eq_refl). rewrite decide_False by lia. by eexists.
    + by eexists.
Qed.

Lemma navigation_timeout_counts_one_failure_witness :
  ((Budget.attempt Scenario.silent Scenario.goTo Scenario.budgetRunning).1
     = Rejected (Error "Navigation timeout")
   ∧ Budget.errorCount
       (Budget.attempt Scenario.silent Scenario.goTo Scenario.budgetRunning).2
     = Budget.errorCount Scenario.budgetRunning + 1)
  ∧ ∃ s', Retry.executeAction Scenario.silent Scenario.goTo Scenario.retryReady
            = Threw (Error "Navigation timeout") s'
          ∧ Retry.effects s'
            = Retry.effects Scenario.retryReady
                ++ [TabsUpdate 7 (Some "https://example.org")].
Proof.
  split.
  - destruct (proj1 navigation_timeout_counts_one_failure Scenario.silent
                Scenario.goTo
                (mkPayload (Some "https://example.org") None None None None None None)
                Scenario.budgetRunning 7%Z) as (Hr & Hc & _).
    + reflexivity.
    + reflexivity.
    + reflexivity.
    + split; [reflexivity|]. simpl. discriminate.
    + split; [exact Hr|exact Hc].
  - apply (proj2 navigation_timeout_counts_one_failure Scenario.silent
             Scenario.goTo
             (mkPayload (Some "https://example.org") None None None None None None)
             Scenario.retryReady 7%Z).
    + reflexivity.
    + reflexivity.
    + reflexivity.
    + split; [reflexivity|]. simpl. discriminate.
Defined.

(** ** Page-state updates: the sender's fingerprint and the 500 ms timer *)

Section ContentFacts.
Import Content.


End ContentFacts.

(** ** Page-state timers under the event loop *)
Section LiveTimers.
Import Live.
Context (iso : Z → string).

Lemma filter_keeps_all {A} (P : A → Prop) `{!∀ x, Decision (P x)} (l : list A) :
  (∀ x, x ∈ l → P x) → filter P l = l.
Proof.
  induction l as [|x l IH]; intros Hall; [done|].
  rewrite filter_cons_True by (apply Hall; by left).
  f_equal. apply IH. intros y Hy. apply Hall. by right.
Qed.

Lemma filter_drops_all {A} (P : A → Prop) `{!∀ x, Decision (P x)} (l : list A) :
  (∀ x, x ∈ l → ¬ P x) → filter P l = [].
Proof.
  induction l as [|x l IH]; intros Hall; [done|].
  rewrite filter_cons_False by (apply Hall; by left).
  apply IH. intros y Hy. apply Hall. by right.
Qed.

Lemma setTimers_same s : setTimers (timers s) s = s.
Proof. by destruct s. Qed.














(** No timer is due: nothing fires. *)
Lemma fireDue_none now s :
  (∀ tm, tm ∈ timers s → (now < due tm)%Z) → fireDue now s = s.
Proof.
  intros H. unfold fireDue.
  rewrite (filter_drops_all (λ tm, (due tm ≤ now)%Z))
    by (intros tm Htm; specialize (H tm Htm); lia).
  rewrite (filter_keeps_all (λ tm, ¬ (due tm ≤ now)%Z))
    by (intros tm Htm; specialize (H tm Htm); lia).
  apply setTimers_same.
Qed.







End LiveTimers.



(* ====================================================================== *)
(** * The error-counter service over whole runs *)

Section Closure.
Import Budget Guarantees.
Context (E : Env) (P : t → Prop).
Hypothesis P_perform : ∀ s e, P s → P (perform e s).
Hypothesis P_exec : ∀ s e', P s → execStep (executionState s) e' → P (setExec e' s).
Hypothesis P_reset : ∀ s, P s → P (setErrorCount 0 s).
Hypothesis P_raise :
  ∀ s, P s → errorCount s + 1 < MAX_ERRORS → P (setErrorCount (errorCount s + 1) s).
Hypothesis P_result : ∀ s r, P s → P (setLastActionResult r s).
Hypothesis P_page : ∀ s p, P s → P (setLastPageState p s).
Hypothesis P_timer : ∀ s x, P s → P (setTimeout x s).
Hypothesis P_ready : ∀ s l, P s → P (setReadyTabs l s).
Hypothesis P_done :
  ∀ s r, P s → (∃ tr, model E tr = Fulfilled r) → action r = None → P (setTask None s).
Hypothesis P_start : ∀ s prompt, P s → P (started prompt s).

Lemma execStep_refl e : execStep e e.
Proof. unfold execStep. auto. Qed.

Lemma execStep_trans e1 e2 e3 : execStep e1 e2 → execStep e2 e3 → execStep e1 e3.
Proof.
  intros (Hs1 & Hc1 & Hl1) (Hs2 & Hc2 & Hl2). split; [|split].
  - destruct Hs2 as [->|[->| ->]]; auto.
  - lia.
  - by etrans.
Qed.

Lemma execStep_log e u :
  match u_status u with
  | None | Some SIdle | Some SError => True
  | _ => False
  end →
  u_currentStep u = None →
  (∀ l, u_logs u = Some l → logs e `prefix_of` l) →
  execStep e (merge e u).
Proof.
  intros Hst Hstep Hlogs. unfold execStep, merge. simpl. rewrite Hstep. simpl.
  split; [|split; [done|]].
  - destruct (u_status u) as [[]|]; simpl in *; auto; done.
  - destruct (u_logs u) as [l|]; simpl; [by apply Hlogs|done].
Qed.

Lemma kept_by_update s u :
  P s →
  match u_status u with
  | None | Some SIdle | Some SError => True
  | _ => False
  end →
  u_currentStep u = None →
  (∀ l, u_logs u = Some l → logs (executionState s) `prefix_of` l) →
  P (updateExecutionState u s).
Proof. intros. apply P_exec; [done|]. by apply execStep_log. Qed.

Lemma kept_by_logged s k m st cur err :
  P s →
  match st with
  | None | Some SIdle | Some SError => True
  | _ => False
  end →
  P (updateExecutionState (mkUpdates st None cur err (logged E k m s)) s).
Proof.
  intros HP Hst. apply kept_by_update; try done.
  intros l [= <-]. by apply prefix_app_r.
Qed.

Lemma kept_by_performAction a s : P s → P (performAction E a s).2.
Proof.
  intros HP. unfold performAction.
  assert (P (perform (Perform a) s)) as H1 by by apply P_perform.
  set (s1 := perform (Perform a) s) in *. clearbody s1.
  repeat case_decide; unfold executeInTab; simpl; try by apply P_perform.
  - done.
  - destruct (payload a); [|done]. unfold navigate.
    destruct (targetTabId s1); [|done].
    destruct (updateError _); simpl; [by apply P_perform|].
    destruct (completeAfter _); simpl; [|by apply P_perform].
    case_decide; simpl; [|by apply P_perform].
    unfold reinjectContentScript. simpl. destruct (targetTabId s1); simpl;
      repeat apply P_perform; done.
  - destruct (payload a); [|done]. simpl. by apply kept_by_logged.
  - by apply kept_by_logged.
  - by apply kept_by_logged.
  - done.
Qed.

Lemma kept_by_executeAction next a s :
  (∀ s1, P s1 → P (state_of (next s1))) →
  P s → P (state_of (executeAction E next a s)).
Proof.
  intros Hnext HP. unfold executeAction.
  destruct (targetTabId s); [|done].
  unfold attempt.
  set (s1 := setExec _ s).
  assert (P s1) as H1.
  { apply P_exec; [done|]. unfold execStep. simpl. split; [auto|]. split; [lia|].
    by apply prefix_app_r. }
  pose proof (kept_by_performAction a s1 H1) as H2.
  destruct (performAction E a s1) as [[u|e] s2]; simpl in H2.
  - assert (P (setLastActionResult (mkResult true None) (setErrorCount 0 s2))) as H4
      by by apply P_result, P_reset.
    simpl. destruct (status (executionState s2)); simpl; try done. by apply Hnext.
  - simpl. case_decide as Hmax.
    + simpl. apply (P_reset (setExec _ s2)). apply P_exec; [done|].
      unfold execStep. simpl. split; [auto|]. split; [lia|]. by apply prefix_app_r.
    + assert (P (setLastActionResult (mkResult false (Some (message_of e)))
                   (setErrorCount (errorCount s2 + 1) s2))) as H4.
      { apply P_result, P_raise; [done|]. lia. }
      destruct (status (executionState s2)); simpl; try done. by apply Hnext.
Qed.

Lemma kept_by_route next r s :
  (∀ s1, P s1 → P (state_of (next s1))) →
  (∃ tr, model E tr = Fulfilled r) →
  P s → P (state_of (route E next r s)).
Proof.
  intros Hnext Hr HP. unfold route. destruct (action r) as [a|] eqn:Ha.
  - apply kept_by_executeAction; [done|]. by apply kept_by_logged.
  - destruct (completed r); simpl; [|done].
    apply P_done with r; [|done..]. by apply kept_by_logged.
Qed.

Lemma kept_by_requestNextAction fuel :
  ∀ s, P s → P (state_of (requestNextAction E fuel s)).
Proof.
  induction fuel as [|fuel IH]; intros s HP; simpl; [done|].
  destruct (currentTask s) as [prompt|]; [|done].
  unfold ask. destruct (model E (effects s)) as [r|e] eqn:Hm; simpl.
  - match goal with |- context [route E ?k r ?s1] =>
      assert (P (state_of (route E k r s1))) as Hr
        by (apply kept_by_route; [exact IH|by eexists|by apply P_perform]);
      by destruct (route E k r s1)
    end.
  - by apply P_perform.
Qed.

Lemma kept_by_pageStateTimer fuel state s :
  P s → P (state_of (pageStateTimer E fuel state s)).
Proof.
  intros HP. unfold pageStateTimer.
  set (s1 := perform (Received state) (setLastPageState (Some state) s)).
  assert (P s1) as H1 by by apply P_perform, P_page.
  assert (∀ o, P (state_of o) →
            P (state_of (match o with
                         | Returned s' => Returned (setTimeout None s')
                         | Threw _ s' => Returned (setTimeout None s')
                         | Cut s' => Cut s'
                         end))) as Hfin.
  { intros [s'|e s'|s'] Ho; simpl in *; try done; by apply P_timer. }
  destruct (currentTask s1) as [prompt|]; [|by apply (Hfin (Returned s1))].
  destruct (status (executionState s1)); try by apply (Hfin (Returned s1)).
  unfold ask. destruct (model E (effects s1)) as [r|e] eqn:Hm.
  - apply Hfin. apply kept_by_route;
      [apply kept_by_requestNextAction|by eexists|by apply P_perform].
  - apply (Hfin (Returned _)). by apply P_perform.
Qed.

Lemma kept_by_advance fuel now s : P s → P (state_of (advance E fuel now s)).
Proof.
  intros HP. unfold advance. destruct (_pageStateUpdateTimeout s) as [[due state]|];
    [|done].
  case_decide; [by apply kept_by_pageStateTimer|done].
Qed.

Lemma kept_by_stopExecution s : P s → P (stopExecution s).
Proof.
  intros HP. apply (P_reset (setExec _ s)). apply P_exec; [done|].
  unfold execStep. simpl. auto.
Qed.

Lemma kept_by_onMessage_notStart fuel now m s :
  notStart (now, m) → P s → P (state_of (onMessage E fuel now m s)).
Proof.
  destruct m; simpl; try done; intros _ HP.
  - by apply P_ready.
  - by apply P_timer.
  - by apply kept_by_stopExecution.
Qed.

Lemma kept_by_run_notStart fuel events : ∀ s,
  Forall notStart events → P s → P (state_of (run E fuel events s)).
Proof.
  induction events as [|[now m] events IH]; intros s Hev HP; simpl; [done|].
  apply Forall_cons in Hev as [Hm Hev].
  pose proof (kept_by_advance fuel now s HP) as Ha.
  destruct (advance E fuel now s) as [s1|e s1|s1]; simpl in Ha; try done.
  pose proof (kept_by_onMessage_notStart fuel now m s1 Hm Ha) as Hm'.
  destruct (onMessage E fuel now m s1) as [s2|e s2|s2]; simpl in Hm'; try done.
  by apply IH.
Qed.

Lemma kept_by_onMessage fuel now m s : P s → P (state_of (onMessage E fuel now m s)).
Proof.
  intros HP. destruct m as [tabId|prompt|state|];
    try by apply kept_by_onMessage_notStart.
  simpl. unfold handleNewTask. apply kept_by_requestNextAction.
  by apply (P_start s prompt).
Qed.

Lemma kept_by_run fuel events : ∀ s, P s → P (state_of (run E fuel events s)).
Proof.
  induction events as [|[now m] events IH]; intros s HP; simpl; [done|].
  pose proof (kept_by_advance fuel now s HP) as Ha.
  destruct (advance E fuel now s) as [s1|e s1|s1]; simpl in Ha; try done.
  pose proof (kept_by_onMessage fuel now m s1 Ha) as Hm'.
  destruct (onMessage E fuel now m s1) as [s2|e s2|s2]; simpl in Hm'; try done.
  by apply IH.
Qed.

End Closure.

(** X1. On the service with the error counter, the counter of consecutive
    failures is below [MAX_ERRORS] after every handled event: whatever the
    model, the content script and the tab do, and whatever messages arrive,
    a run that starts with the counter below the maximum never leaves it at
    or above the maximum. *)
Theorem error_counter_stays_below_the_maximum :
  ∀ E fuel (events : list (Z * Budget.Message)) (s : Budget.t),
    Guarantees.withinBudget s →
    Guarantees.withinBudget (state_of (Budget.run E fuel events s)).
Proof.
  intros E fuel events s Hs.
  apply (kept_by_run E Guarantees.withinBudget); unfold Guarantees.withinBudget;
    try done; try (by intros; simpl).
  - intros s0 _. simpl. unfold Budget.MAX_ERRORS. lia.
  - intros s0 prompt _. simpl. unfold Budget.MAX_ERRORS. lia.
Qed.

Lemma error_counter_stays_below_the_maximum_witness :
  Guarantees.withinBudget Scenario.budgetReady
  ∧ Guarantees.withinBudget
      (state_of (Budget.run Scenario.alwaysFailing 9
                   [(0%Z, Budget.START_TASK "buy milk")] Scenario.budgetReady)).
Proof.
  assert (Guarantees.withinBudget Scenario.budgetReady) as H
    by (unfold Guarantees.withinBudget; vm_compute; lia).
  split; [exact H|].
  exact (error_counter_stays_below_the_maximum Scenario.alwaysFailing 9
           [(0%Z, Budget.START_TASK "buy milk")] Scenario.budgetReady H).
Defined.

(** X2. On the service with the error counter, the status left behind by a
    handled event is always idle, running or error: a run that starts in
    one of these never ends an event with status failed, paused or stopped,
    although [executeAction] assigns failed on the way. *)
Theorem status_is_idle_running_or_error :
  ∀ E fuel (events : list (Z * Budget.Message)) (s : Budget.t),
    Guarantees.settledStatus (status (Budget.executionState s)) →
    Guarantees.settledStatus
      (status (Budget.executionState (state_of (Budget.run E fuel events s)))).
Proof.
  intros E fuel events s Hs.
  apply (kept_by_run E
           (λ s, Guarantees.settledStatus (status (Budget.executionState s))));
    try done.
  - intros s0 e' H (Hst & _). simpl. unfold Guarantees.settledStatus in *.
    destruct Hst as [->|[->| ->]]; [done|..]; repeat constructor.
  - intros s0 p H. simpl. unfold Guarantees.settledStatus. repeat constructor.
Qed.

Lemma status_is_idle_running_or_error_witness :
  Guarantees.settledStatus (status (Budget.executionState Scenario.budgetReady))
  ∧ Guarantees.settledStatus
      (status (Budget.executionState
         (state_of (Budget.run Scenario.alwaysFailing 9
                      [(0%Z, Budget.START_TASK "buy milk")] Scenario.budgetReady)))).
Proof.
  assert (Guarantees.settledStatus (status (Budget.executionState Scenario.budgetReady)))
    as H by (unfold Guarantees.settledStatus; simpl; repeat constructor).
  split; [exact H|].
  exact (status_is_idle_running_or_error Scenario.alwaysFailing 9
           [(0%Z, Budget.START_TASK "buy milk")] Scenario.budgetReady H).
Defined.

(** X3. On the service with the error counter, a task once set is never
    cleared: when every answer of the model carries an action, as the
    response parser guarantees, [currentTask] stays set through every run,
    also after the task completed, failed, ran out of its error budget or
    was stopped. *)
Theorem current_task_is_never_cleared :
  ∀ E fuel (events : list (Z * Budget.Message)) (s : Budget.t),
    Guarantees.answersWithAction E →
    is_Some (Budget.currentTask s) →
    is_Some (Budget.currentTask (state_of (Budget.run E fuel events s))).
Proof.
  intros E fuel events s HE Hs.
  apply (kept_by_run E (λ s, is_Some (Budget.currentTask s))); try done.
  intros s0 r _ [tr Htr] Hnone. apply HE in Htr. rewrite Hnone in Htr.
  by destruct Htr.
Qed.

Lemma current_task_is_never_cleared_witness :
  Guarantees.answersWithAction (Cases.asking Cases.finish)
  ∧ is_Some (Budget.currentTask Scenario.budgetRunning)
  ∧ is_Some (Budget.currentTask
      (state_of (Budget.run (Cases.asking Cases.finish) 4
                   [(0%Z, Budget.PAGE_STATE_UPDATE Scenario.pageA);
                    (700%Z, Budget.EXECUTION_STOP)] Scenario.budgetRunning))).
Proof.
  assert (Guarantees.answersWithAction (Cases.asking Cases.finish)) as HE.
  { intros tr r [= <-]. by eexists. }
  assert (is_Some (Budget.currentTask Scenario.budgetRunning)) as Hs by by eexists.
  split; [exact HE|]. split; [exact Hs|].
  exact (current_task_is_never_cleared (Cases.asking Cases.finish) 4
           [(0%Z, Budget.PAGE_STATE_UPDATE Scenario.pageA);
            (700%Z, Budget.EXECUTION_STOP)] Scenario.budgetRunning HE Hs).
Defined.

(** X4. On the service with the error counter, between two START_TASK
    messages the execution state only moves forward: over any events other
    than START_TASK the logs are extended and never dropped or rewritten,
    the step counter does not decrease, and the status is the one before or
    has become idle or error; so a task that is no longer running is not
    set running again by anything but a new START_TASK. *)
Theorem execution_state_moves_forward_between_starts :
  ∀ E fuel (events : list (Z * Budget.Message)) (s : Budget.t),
    Forall Budget.notStart events →
    let e := Budget.executionState s in
    let e' := Budget.executionState (state_of (Budget.run E fuel events s)) in
    logs e `prefix_of` logs e'
    ∧ currentStep e ≤ currentStep e'
    ∧ (status e' = status e ∨ status e' = SIdle ∨ status e' = SError)
    ∧ (status e ≠ SRunning → status e' ≠ SRunning).
Proof.
  intros E fuel events s Hev e e'.
  assert (Guarantees.execStep e e') as (Hst & Hc & Hl).
  { apply (kept_by_run_notStart E
             (λ s', Guarantees.execStep e (Budget.executionState s'))); try done.
    - intros s0 e0 H1 H2. simpl. by eapply execStep_trans.
    - apply execStep_refl. }
  repeat split; try done.
  intros Hne Hrun. destruct Hst as [H|[H|H]]; congruence.
Qed.

Lemma execution_state_moves_forward_between_starts_witness :
  let events := [(0%Z, Budget.PAGE_STATE_UPDATE Scenario.pageA);
                 (700%Z, Budget.EXECUTION_STOP)] in
  let e := Budget.executionState Scenario.budgetBusy in
  let e' := Budget.executionState
              (state_of (Budget.run Scenario.alwaysFailing 9 events Scenario.budgetBusy)) in
  Forall Budget.notStart events
  ∧ logs e `prefix_of` logs e'
  ∧ currentStep e ≤ currentStep e'
  ∧ (status e' = status e ∨ status e' = SIdle ∨ status e' = SError)
  ∧ (status e ≠ SRunning → status e' ≠ SRunning).
Proof.
  intros events e e'.
  assert (Forall Budget.notStart events) as H by (repeat constructor).
  split; [exact H|].
  exact (execution_state_moves_forward_between_starts Scenario.alwaysFailing 9 events
           Scenario.budgetBusy H).
Defined.

Section LiveStop.
Import Live.
Context (iso : Z → string).

(** What stays as it is while the service is stopped. *)
Lemma fireDue_stopped now s :
  status (executionState s) ≠ SRunning →
  let s' := fireDue now s in
  threads s' = threads s
  ∧ executionState s' = executionState s
  ∧ calls s' = calls s
  ∧ currentTask s' = currentTask s.
Proof.
  intros Hs. unfold fireDue.
  set (s0 := setTimers _ s).
  assert (threads s0 = threads s ∧ executionState s0 = executionState s
          ∧ calls s0 = calls s ∧ currentTask s0 = currentTask s) as H0 by done.
  clearbody s0. revert s0 H0.
  induction (filter _ (timers s)) as [|tm l IH]; intros s0 H0; [done|].
  simpl. apply IH. destruct H0 as (A1 & A2 & A3 & A4).
  unfold pageStateTimer. simpl. rewrite A2, A4.
  destruct (currentTask s); [|done].
  by destruct (status (executionState s)).
Qed.

Lemma onMessage_stopped now m s :
  (∀ prompt, m ≠ Budget.START_TASK prompt) →
  status (executionState s) ≠ SRunning →
  let s' := onMessage now m s in
  threads s' = threads s
  ∧ status (executionState s') ≠ SRunning
  ∧ logs (executionState s') = logs (executionState s)
  ∧ currentStep (executionState s') = currentStep (executionState s)
  ∧ calls s' = calls s
  ∧ currentTask s' = currentTask s.
Proof.
  intros Hm Hs. destruct m as [tabId|prompt|state|]; simpl; try done.
  by destruct (Hm prompt).
Qed.

End LiveStop.

(** X5. On the service with the error counter, a service that is not
    running and has no call in flight stays inert until the next
    START_TASK: whatever page states, ready notices and stop requests
    arrive, and whenever page-state timers fire, every input is taken, the
    model is not asked, no action is dispatched, no call is left in flight,
    and the logs, the step counter and the task stay as they are. A stop
    request that arrives while the model's answer is awaited does not stop
    that call chain: when the answer comes with a Click, Type, Submit,
    Scroll or Hover action, the status is idle and still the action is
    recorded, logged, counted and sent to the tab. *)
Theorem stop_takes_effect_once_nothing_is_in_flight :
  (∀ iso events (s : Live.t),
     Live.quiescent s →
     status (Live.executionState s) ≠ SRunning →
     Forall Live.notStart events →
     Forall Live.fromOutside events →
     ∃ s', Live.run iso events s = Some s'
           ∧ Live.quiescent s'
           ∧ status (Live.executionState s') ≠ SRunning
           ∧ Live.calls s' = Live.calls s
           ∧ logs (Live.executionState s') = logs (Live.executionState s)
           ∧ currentStep (Live.executionState s')
             = currentStep (Live.executionState s)
           ∧ Live.currentTask s' = Live.currentTask s)
  ∧ (∀ iso (s : Live.t) id o t1 t2 response a tabId,
       Live.timers s = [] →
       Live.targetTabId s = Some tabId →
       Live.awaiting id s = Some (Live.mkThread id o Live.ForModel) →
       action response = Some a →
       Retry.executorBound (type a) →
       ∃ s', Live.run iso
               [(t1, Live.Receive Budget.EXECUTION_STOP);
                (t2, Live.ModelSettles id (Fulfilled response))] s = Some s'
             ∧ status (Live.executionState s') = SIdle
             ∧ Live.calls s'
               = Live.calls s
                   ++ [Live.ExecuteInTab (Some tabId) (Retry.commandOf (type a)) (payload a)]
             ∧ currentStep (Live.executionState s')
               = currentStep (Live.executionState s) + 1
             ∧ currentAction (Live.executionState s') = Some a
             ∧ logs (Live.executionState s')
               = logs (Live.executionState s)
                   ++ [LogObject info (Some ("AI Response: " +:+ reasoning response))
                         (iso t2);
                       LogString ("Executing action: " +:+ type a)]
             ∧ Live.threads s'
               = filter (λ th, Live.tid th ≠ id) (Live.threads s)
                   ++ [Live.mkThread (Live.fresh s) o (Live.ForAction a)]).
Proof.
  split.
  - intros iso events. induction events as [|[now i] events IH];
      intros s Hq Hs Hns Hout.
    { by exists s. }
    apply Forall_cons in Hns as [Hn Hns]. apply Forall_cons in Hout as [Ho Hout].
    destruct (fireDue_stopped now s Hs) as (F1 & F2 & F3 & F4).
    assert (∃ s1, Live.step iso (now, i) s = Some s1
                  ∧ Live.threads s1 = Live.threads s
                  ∧ status (Live.executionState s1) ≠ SRunning
                  ∧ logs (Live.executionState s1) = logs (Live.executionState s)
                  ∧ currentStep (Live.executionState s1)
                    = currentStep (Live.executionState s)
                  ∧ Live.calls s1 = Live.calls s
                  ∧ Live.currentTask s1 = Live.currentTask s)
      as (s1 & E1 & A1 & A2 & A3 & A4 & A5 & A6).
    { unfold Live.step. simpl. destruct i as [m| | |]; try done; simpl.
      - eexists. split; [done|].
        destruct (onMessage_stopped now m (Live.fireDue now s))
          as (B1 & B2 & B3 & B4 & B5 & B6).
        { intros prompt ->. exact Hn. }
        { by rewrite F2. }
        rewrite B1, B3, B4, B5, B6, F1, F2, F3, F4. done.
      - eexists. split; [done|]. by rewrite F1, F2, F3, F4. }
    destruct (IH s1) as (s' & E' & C1 & C2 & C3 & C4 & C5 & C6); try done.
    { unfold Live.quiescent in *. congruence. }
    exists s'. cbn [Live.run]. rewrite E1.
    split; [done|]. split; [done|]. split; [done|]. repeat split; congruence.
  - intros iso s id o t1 t2 response a tabId Ht Htab Hw Ha Hb.
    eexists. split.
    { cbn [Live.run]. unfold Live.step. cbn [fst snd Live.handle].
      rewrite (fireDue_none t1 s)
        by (rewrite Ht; intros tm Hin; by apply elem_of_nil in Hin).
      cbn [Live.onMessage].
      rewrite (fireDue_none t2 (Live.stopExecution s))
        by (simpl; rewrite Ht; intros tm Hin; by apply elem_of_nil in Hin).
      change (Live.awaiting id (Live.stopExecution s)) with (Live.awaiting id s).
      rewrite Hw. reflexivity. }
    unfold Live.onModel. rewrite Ha. unfold Live.executeAction.
    cbn [Live.targetTabId Live.updateExecutionState Live.setExec Live.resume
         Live.setThreads Live.stopExecution Live.setErrorCount].
    rewrite Htab. rewrite performAction_executorBound by done.
    simpl. rewrite Htab. destruct (Live.executionState s); simpl.
    rewrite <- app_assoc. done.
Qed.

Lemma stop_takes_effect_once_nothing_is_in_flight_witness :
  (∃ s', Live.run LiveCases.iso
           [(0%Z, Live.Receive (Budget.PAGE_STATE_UPDATE Scenario.pageA));
            (600%Z, Live.Idle);
            (700%Z, Live.Receive Budget.EXECUTION_STOP)] LiveCases.stopped = Some s'
         ∧ Live.calls s' = []
         ∧ currentStep (Live.executionState s') = 3)
  ∧ (∃ s', Live.run LiveCases.iso
             [(10%Z, Live.Receive Budget.EXECUTION_STOP);
              (20%Z, Live.ModelSettles 1 (Fulfilled (Scenario.decision Scenario.click)))]
             LiveCases.asking = Some s'
           ∧ status (Live.executionState s') = SIdle
           ∧ currentStep (Live.executionState s') = 4).
Proof.
  split.
  - destruct (proj1 stop_takes_effect_once_nothing_is_in_flight LiveCases.iso
                [(0%Z, Live.Receive (Budget.PAGE_STATE_UPDATE Scenario.pageA));
                 (600%Z, Live.Idle);
                 (700%Z, Live.Receive Budget.EXECUTION_STOP)] LiveCases.stopped)
      as (s' & Hrun & _ & _ & Hcalls & _ & Hstep & _).
    + reflexivity.
    + discriminate.
    + repeat constructor.
    + repeat constructor.
    + exists s'. split; [exact Hrun|]. split; [exact Hcalls|exact Hstep].
  - destruct (proj2 stop_takes_effect_once_nothing_is_in_flight LiveCases.iso
                LiveCases.asking 1 Live.ByStart 10%Z 20%Z
                (Scenario.decision Scenario.click) Scenario.click 7%Z)
      as (s' & Hrun & Hst & _ & Hstep & _).
    + reflexivity.
    + reflexivity.
    + reflexivity.
    + reflexivity.
    + unfold Retry.executorBound. simpl. rewrite elem_of_cons. by left.
    + exists s'. split; [exact Hrun|]. split; [exact Hst|exact Hstep].
Defined.

(** X6. On the service with the error counter, a task started while no
    target tab is set stalls silently: the model is asked once, its answer
    is logged, the dispatch fails with "No target tab found" inside
    [requestNextAction], whose [catch] swallows it, and the call returns
    with the status still running, step counter 0, no error recorded, the
    error counter at 0 and nothing performed. *)
Theorem start_without_target_tab_stalls_running :
  ∀ E fuel prompt (s : Budget.t) r a,
    Budget.targetTabId s = None →
    model E (Budget.effects s) = Fulfilled r →
    action r = Some a →
    ∃ s', Budget.handleNewTask E (S fuel) prompt s = Returned s'
          ∧ status (Budget.executionState s') = SRunning
          ∧ currentStep (Budget.executionState s') = 0
          ∧ error_ (Budget.executionState s') = None
          ∧ currentAction (Budget.executionState s') = Some a
          ∧ logs (Budget.executionState s')
            = [LogObject info (Some ("AI Response: " +:+ reasoning r))
                 (date E (Budget.effects s'))]
          ∧ Budget.errorCount s' = 0
          ∧ Budget.currentTask s' = Some prompt
          ∧ Budget.effects s'
            = Budget.effects s
                ++ [Decide prompt (Budget.lastPageState s)
                      (Some (Budget.lastActionResult s))].
Proof.
  intros E fuel prompt s r a Htab Hm Ha.
  destruct r as [act why done_ failed_ stored]. simpl in Ha. subst act.
  unfold Budget.handleNewTask. simpl. unfold Budget.ask. simpl. rewrite Hm.
  unfold Budget.route, Budget.executeAction. simpl. rewrite Htab.
  eexists; split; [done|]. done.
Qed.

Lemma start_without_target_tab_stalls_running_witness :
  Budget.targetTabId Cases.budgetNoTab = None
  ∧ model (Cases.asking Scenario.click) (Budget.effects Cases.budgetNoTab)
    = Fulfilled (Scenario.decision Scenario.click)
  ∧ action (Scenario.decision Scenario.click) = Some Scenario.click
  ∧ ∃ s', Budget.handleNewTask (Cases.asking Scenario.click) 3 "buy milk"
            Cases.budgetNoTab = Returned s'
          ∧ status (Budget.executionState s') = SRunning
          ∧ currentStep (Budget.executionState s') = 0
          ∧ error_ (Budget.executionState s') = None
          ∧ currentAction (Budget.executionState s') = Some Scenario.click
          ∧ logs (Budget.executionState s')
            = [LogObject info
                 (Some ("AI Response: " +:+ reasoning (Scenario.decision Scenario.click)))
                 (date (Cases.asking Scenario.click) (Budget.effects s'))]
          ∧ Budget.errorCount s' = 0
          ∧ Budget.currentTask s' = Some "buy milk"
          ∧ Budget.effects s'
            = Budget.effects Cases.budgetNoTab
                ++ [Decide "buy milk" (Budget.lastPageState Cases.budgetNoTab)
                      (Some (Budget.lastActionResult Cases.budgetNoTab))].
Proof.
  split; [reflexivity|]. split; [reflexivity|]. split; [reflexivity|].
  exact (start_without_target_tab_stalls_running (Cases.asking Scenario.click) 2
           "buy milk" Cases.budgetNoTab (Scenario.decision Scenario.click)
           Scenario.click eq_refl eq_refl eq_refl).
Defined.

(** X7. On the service with the error counter, a COMPLETE or FAILED action
    ends the decision loop: it is counted as a step and as a success, so the
    error counter is reset; COMPLETE leaves status idle, FAILED leaves status
    error with the reason of the payload, or "Task failed" when the payload
    gives none, as error text and as last log entry; nothing is sent to the
    content script, no further decision is requested, and the task stays
    set. *)
Theorem terminal_action_ends_the_loop :
  ∀ E next (a : AIAction) (s : Budget.t) tabId,
    Budget.targetTabId s = Some tabId →
    type a = "COMPLETE" ∨ type a = "FAILED" →
    ∃ s', Budget.executeAction E next a s = Returned s'
          ∧ Budget.effects s' = Budget.effects s ++ [Perform a]
          ∧ currentStep (Budget.executionState s')
            = currentStep (Budget.executionState s) + 1
          ∧ Budget.errorCount s' = 0
          ∧ Budget.lastActionResult s' = mkResult true None
          ∧ Budget.currentTask s' = Budget.currentTask s
          ∧ (type a = "COMPLETE" →
             status (Budget.executionState s') = SIdle
             ∧ error_ (Budget.executionState s') = error_ (Budget.executionState s)
             ∧ last (logs (Budget.executionState s'))
               = Some (LogObject info (Some "Task completed successfully")
                         (date E (Budget.effects s'))))
          ∧ (type a = "FAILED" →
             let why := default "Task failed" (Parser.truthy (payload a ≫= reason)) in
             status (Budget.executionState s') = SError
             ∧ error_ (Budget.executionState s') = Some why
             ∧ last (logs (Budget.executionState s'))
               = Some (LogObject error (Some why) (date E (Budget.effects s')))).
Proof.
  intros E next a s tabId Htab Hty.
  unfold Budget.executeAction, Budget.attempt, Budget.performAction. rewrite Htab.
  destruct Hty as [Hty|Hty]; rewrite Hty; simpl.
  - eexists; split; [done|]. simpl. do 5 (split; [done|]). split; [|done].
    intros _. repeat split; try done. by rewrite last_snoc.
  - eexists; split; [done|]. simpl. do 5 (split; [done|]). split; [done|].
    intros _. repeat split; try done. by rewrite last_snoc.
Qed.

Lemma terminal_action_ends_the_loop_witness :
  Budget.targetTabId Scenario.budgetBusy = Some 7%Z
  ∧ (type Cases.giveUp = "COMPLETE" ∨ type Cases.giveUp = "FAILED")
  ∧ ∃ s', Budget.executeAction Scenario.silent
            (Budget.requestNextAction Scenario.silent 3) Cases.giveUp
            Scenario.budgetBusy = Returned s'
          ∧ Budget.effects s' = Budget.effects Scenario.budgetBusy ++ [Perform Cases.giveUp]
          ∧ currentStep (Budget.executionState s')
            = currentStep (Budget.executionState Scenario.budgetBusy) + 1
          ∧ Budget.errorCount s' = 0
          ∧ Budget.lastActionResult s' = mkResult true None
          ∧ Budget.currentTask s' = Budget.currentTask Scenario.budgetBusy
          ∧ (type Cases.giveUp = "COMPLETE" →
             status (Budget.executionState s') = SIdle
             ∧ error_ (Budget.executionState s')
               = error_ (Budget.executionState Scenario.budgetBusy)
             ∧ last (logs (Budget.executionState s'))
               = Some (LogObject info (Some "Task completed successfully")
                         (date Scenario.silent (Budget.effects s'))))
          ∧ (type Cases.giveUp = "FAILED" →
             let why := default "Task failed"
                          (Parser.truthy (payload Cases.giveUp ≫= reason)) in
             status (Budget.executionState s') = SError
             ∧ error_ (Budget.executionState s') = Some why
             ∧ last (logs (Budget.executionState s'))
               = Some (LogObject error (Some why)
                         (date Scenario.silent (Budget.effects s')))).
Proof.
  split; [reflexivity|]. split; [right; reflexivity|].
  exact (terminal_action_ends_the_loop Scenario.silent
           (Budget.requestNextAction Scenario.silent 3) Cases.giveUp
           Scenario.budgetBusy 7%Z eq_refl (or_intror eq_refl)).
Defined.

(** X8. On the service with the error counter, an action whose type has no
    case in [performAction] is taken as a success: the step is counted and
    logged, nothing is sent to the content script or the tab, the error
    counter is reset to 0, the last result reports success, and, the status
    being running, the next decision is requested. *)
Theorem unknown_action_type_counts_as_success :
  ∀ E next (a : AIAction) (s : Budget.t) tabId,
    Budget.targetTabId s = Some tabId →
    type a ∉ Guarantees.knownTypes →
    status (Budget.executionState s) = SRunning →
    ∃ s', Budget.executeAction E next a s = next s'
          ∧ Budget.effects s' = Budget.effects s ++ [Perform a]
          ∧ Budget.executionState s'
            = Budget.pushLog (LogString ("Executing action: " +:+ type a))
                (Budget.stepUp (Budget.executionState s))
          ∧ Budget.errorCount s' = 0
          ∧ Budget.lastActionResult s' = mkResult true None.
Proof.
  intros E next a s tabId Htab Hty Hrun.
  unfold Guarantees.knownTypes in Hty. rewrite !not_elem_of_cons in Hty.
  destruct Hty as (H1 & H2 & H3 & H4 & H5 & H6 & H7 & H8 & H9 & H10 & _).
  unfold Budget.executeAction, Budget.attempt, Budget.performAction. rewrite Htab.
  repeat (case_decide; [done|]). simpl. rewrite Hrun.
  eexists; split; [done|]. done.
Qed.

Lemma unknown_action_type_counts_as_success_witness :
  Budget.targetTabId Scenario.budgetBusy = Some 7%Z
  ∧ (type Cases.dance ∉ Guarantees.knownTypes)
  ∧ status (Budget.executionState Scenario.budgetBusy) = SRunning
  ∧ ∃ s', (Budget.executeAction Scenario.silent
             (Budget.requestNextAction Scenario.silent 3) Cases.dance
             Scenario.budgetBusy
           = Budget.requestNextAction Scenario.silent 3 s')
          ∧ Budget.effects s' = Budget.effects Scenario.budgetBusy ++ [Perform Cases.dance]
          ∧ Budget.executionState s'
            = Budget.pushLog (LogString ("Executing action: " +:+ type Cases.dance))
                (Budget.stepUp (Budget.executionState Scenario.budgetBusy))
          ∧ Budget.errorCount s' = 0
          ∧ Budget.lastActionResult s' = mkResult true None.
Proof.
  assert (type Cases.dance ∉ Guarantees.knownTypes) as H.
  { unfold Guarantees.knownTypes. rewrite !not_elem_of_cons.
    repeat split; try discriminate. apply not_elem_of_nil. }
  split; [reflexivity|]. split; [exact H|]. split; [reflexivity|].
  exact (unknown_action_type_counts_as_success Scenario.silent
           (Budget.requestNextAction Scenario.silent 3) Cases.dance
           Scenario.budgetBusy 7%Z eq_refl H eq_refl).
Defined.

(* ====================================================================== *)
(** * The revision with the retry loop: errors and edges *)

Section RetryEdges.
Import Retry Guarantees.
Context (E : Env).

Lemma dispatchStep_refl s : dispatchStep s s.
Proof. unfold dispatchStep. repeat split; auto. Qed.

Lemma dispatchStep_trans s1 s2 s3 :
  dispatchStep s1 s2 → dispatchStep s2 s3 → dispatchStep s1 s3.
Proof.
  intros (A1 & A2 & A3 & A4 & A5 & A6 & A7) (B1 & B2 & B3 & B4 & B5 & B6 & B7).
  unfold dispatchStep. repeat split; try congruence; try (by etrans).
  destruct B6 as [->|[->| ->]]; auto.
Qed.

Lemma dispatchStep_perform e s : dispatchStep s (perform e s).
Proof. unfold dispatchStep. simpl. repeat split; auto. by apply prefix_app_r. Qed.

Lemma dispatchStep_update s u :
  match u_status u with
  | None | Some SIdle | Some SError => True
  | _ => False
  end →
  u_currentStep u = None →
  (∀ l, u_logs u = Some l → logs (executionState s) `prefix_of` l) →
  dispatchStep s (updateExecutionState u s).
Proof.
  intros Hst Hstep Hlogs. unfold dispatchStep, updateExecutionState, merge. simpl.
  rewrite Hstep. simpl. repeat split; try done.
  - destruct (u_logs u) as [l|]; simpl; [by apply Hlogs|done].
  - destruct (u_status u) as [[]|]; simpl in *; auto; done.
Qed.

Lemma dispatchStep_logged s k m st cur err :
  match st with
  | None | Some SIdle | Some SError => True
  | _ => False
  end →
  dispatchStep s (updateExecutionState (mkUpdates st None cur err (logged E k m s)) s).
Proof.
  intros Hst. apply dispatchStep_update; try done.
  intros l [= <-]. by apply prefix_app_r.
Qed.

Lemma executeInTab_dispatchStep tabId c pl s :
  dispatchStep s (executeInTab E tabId c pl s).2.
Proof. apply dispatchStep_perform. Qed.

Lemma reinject_dispatchStep s : dispatchStep s (reinjectContentScript E s).2.
Proof.
  unfold reinjectContentScript. destruct (targetTabId s); [|apply dispatchStep_refl].
  destruct (scripting E (effects s)); simpl.
  - eapply dispatchStep_trans; [apply dispatchStep_perform|].
    eapply dispatchStep_trans; apply dispatchStep_perform.
  - apply dispatchStep_perform.
Qed.

Lemma navigate_dispatchStep target s : dispatchStep s (navigate E target s).2.
Proof.
  unfold navigate. destruct (targetTabId s) as [tabId|]; [|apply dispatchStep_refl].
  destruct (updateError _); [apply dispatchStep_perform|].
  destruct (completeAfter _); [|apply dispatchStep_perform].
  case_decide; [|apply dispatchStep_perform].
  destruct (scripting E _); cbn [snd executeInTab].
  - eapply dispatchStep_trans; [apply dispatchStep_perform|].
    eapply dispatchStep_trans; [apply (dispatchStep_perform (Inject tabId))|].
    eapply dispatchStep_trans; apply dispatchStep_perform.
  - eapply dispatchStep_trans; apply dispatchStep_perform.
Qed.

Lemma tryOnce_dispatchStep tabId a s : dispatchStep s (tryOnce E tabId a s).2.
Proof.
  unfold tryOnce.
  repeat case_decide; simpl;
    first [apply dispatchStep_perform | apply dispatchStep_refl
          | by apply dispatchStep_logged].
Qed.

Lemma retryLoop_dispatchStep left tabId a :
  ∀ s, dispatchStep s (state_of (retryLoop E left tabId a s)).
Proof.
  induction left as [|left IH]; intros s; simpl; [apply dispatchStep_refl|].
  pose proof (tryOnce_dispatchStep tabId a s) as H1.
  destruct (tryOnce E tabId a s) as [[u|e] s1]; simpl in H1; [done|].
  destruct left as [|left]; [done|].
  eapply dispatchStep_trans; [exact H1|].
  eapply dispatchStep_trans; [apply (dispatchStep_perform (Sleep 1000))|].
  eapply dispatchStep_trans; [apply reinject_dispatchStep|].
  apply IH.
Qed.

Lemma executeAction_dispatchStep a s :
  dispatchStep s (state_of (executeAction E a s)).
Proof.
  unfold executeAction. destruct (targetTabId s) as [tabId|]; [|apply dispatchStep_refl].
  destruct (getActionDescription E a) as [description|e]; [|apply dispatchStep_refl].
  set (s1 := updateExecutionState _ s).
  assert (dispatchStep s s1) as H1 by by apply dispatchStep_logged.
  repeat case_decide.
  - done.
  - destruct (payload a); [|done]. simpl.
    eapply dispatchStep_trans; [exact H1|]. by apply dispatchStep_logged.
  - destruct (payload a) as [pl|]; [|done].
    pose proof (navigate_dispatchStep (url pl) s1) as Hnav.
    eapply dispatchStep_trans; [exact H1|].
    by destruct (navigate E (url pl) s1) as [[u|e] s2].
  - eapply dispatchStep_trans; [exact H1|]. apply retryLoop_dispatchStep.
Qed.

Lemma executeAction_not_cut a s s' : executeAction E a s ≠ Cut s'.
Proof.
  unfold executeAction. destruct (targetTabId s) as [tabId|]; [|done].
  destruct (getActionDescription E a); [|done].
  repeat case_decide; try done.
  - by destruct (payload a).
  - destruct (payload a); [|done]. by destruct (navigate E _ _) as [[]].
  - generalize (updateExecutionState
                  (mkUpdates None None (Some a) None (logged E info (Some a0) s)) s).
    unfold maxAttempts. generalize 3. intros n. induction n as [|n IH]; intros s0; [done|].
    simpl. destruct (tryOnce E tabId a s0) as [[u|e] s1]; [done|].
    destruct n; [done|]. apply IH.
Qed.

End RetryEdges.

Section RetryUnsupported.
Import Retry Guarantees.
Context (E : Env).

Lemma unknown_type_cases ty :
  ty ∉ knownTypes →
  ty ≠ "CLICK" ∧ ty ≠ "TYPE" ∧ ty ≠ "SUBMIT" ∧ ty ≠ "SCROLL" ∧ ty ≠ "HOVER"
  ∧ ty ≠ "STORE" ∧ ty ≠ "NAVIGATE" ∧ ty ≠ "PRINT" ∧ ty ≠ "COMPLETE" ∧ ty ≠ "FAILED".
Proof.
  unfold knownTypes. rewrite !not_elem_of_cons. tauto.
Qed.

Lemma tryOnce_unsupported tabId a s :
  type a ∉ knownTypes →
  tryOnce E tabId a s = (Rejected (Error ("Unsupported action type: " +:+ type a)), s).
Proof.
  intros (H1 & H2 & H3 & H4 & H5 & H6 & H7 & H8 & H9 & H10)%unknown_type_cases.
  unfold tryOnce. by repeat (case_decide; [done|]).
Qed.

Lemma description_unsupported a :
  type a ∉ knownTypes → getActionDescription E a = Fulfilled (stringify E a).
Proof.
  intros (H1 & H2 & H3 & H4 & H5 & H6 & H7 & H8 & H9 & H10)%unknown_type_cases.
  unfold getActionDescription. by repeat (case_decide; [done|]).
Qed.

Lemma waits_app d tr1 tr2 : waits d (tr1 ++ tr2) = waits d tr1 + waits d tr2.
Proof. unfold waits. by rewrite omap_app, length_app. Qed.

Lemma injections_app tr1 tr2 :
  injections (tr1 ++ tr2) = injections tr1 + injections tr2.
Proof. unfold injections. by rewrite omap_app, length_app. Qed.

End RetryUnsupported.

(** X9. In the revision with the retry loop, an action whose type has no
    case in the executor switch is not refused at once: the dispatch logs
    its description, fails three times without sending any command for the
    action, waits 1000 ms and re-injects the content script after the first
    and after the second failure, and then throws "Unsupported action type:"
    followed by the type; the status is not changed by the dispatch. *)
Theorem unsupported_action_is_tried_three_times :
  ∀ E (a : AIAction) (s : Retry.t) tabId,
    Retry.targetTabId s = Some tabId →
    type a ∉ Guarantees.knownTypes →
    ∃ s' new,
      Retry.executeAction E a s
        = Threw (Error ("Unsupported action type: " +:+ type a)) s'
      ∧ Retry.effects s' = Retry.effects s ++ new
      ∧ Guarantees.waits 1000 new = 2
      ∧ Guarantees.injections new = 2
      ∧ (∀ c, c ≠ "get_page_state" → Retry.attempts c new = 0)
      ∧ logs (Retry.executionState s')
        = logs (Retry.executionState s)
            ++ [LogObject info (Some (stringify E a)) (date E (Retry.effects s))]
      ∧ status (Retry.executionState s') = status (Retry.executionState s).
Proof.
  intros E a s tabId Htab Hty.
  pose proof (unknown_type_cases _ Hty)
    as (H1 & H2 & H3 & H4 & H5 & H6 & H7 & H8 & H9 & H10).
  unfold Retry.executeAction. rewrite Htab, description_unsupported by done.
  repeat (case_decide; [done|]).
  set (s1 := Retry.updateExecutionState _ s).
  assert (Retry.targetTabId s1 = Some tabId) as Htab1 by done.
  assert (Retry.effects s1 = Retry.effects s) as Heff1 by done.
  assert (logs (Retry.executionState s1)
          = logs (Retry.executionState s)
              ++ [LogObject info (Some (stringify E a)) (date E (Retry.effects s))])
    as Hlog1 by done.
  assert (status (Retry.executionState s1) = status (Retry.executionState s))
    as Hst1 by done.
  clearbody s1. unfold Retry.maxAttempts.
  rewrite retryLoop_S, tryOnce_unsupported by done.
  rewrite reinject_state with (tabId := tabId) by done.
  set (s2 := match scripting E _ with Fulfilled _ => _ | Rejected _ => _ end).
  assert (∃ new2, Retry.effects s2 = Retry.effects s1 ++ new2
                  ∧ Guarantees.waits 1000 new2 = 1
                  ∧ Guarantees.injections new2 = 1
                  ∧ (∀ c, c ≠ "get_page_state" → Retry.attempts c new2 = 0)
                  ∧ Retry.targetTabId s2 = Some tabId
                  ∧ Retry.executionState s2 = Retry.executionState s1)
    as (new2 & He2 & Hw2 & Hi2 & Ha2 & Htab2 & Hx2).
  { subst s2. destruct (scripting E _); simpl; rewrite <- ?app_assoc;
      eexists; (split; [done|]); repeat split; try done;
      intros c Hc; unfold Retry.attempts; simpl; by case_decide. }
  clearbody s2.
  rewrite retryLoop_S, tryOnce_unsupported by done.
  rewrite reinject_state with (tabId := tabId) by done.
  set (s3 := match scripting E _ with Fulfilled _ => _ | Rejected _ => _ end).
  assert (∃ new3, Retry.effects s3 = Retry.effects s2 ++ new3
                  ∧ Guarantees.waits 1000 new3 = 1
                  ∧ Guarantees.injections new3 = 1
                  ∧ (∀ c, c ≠ "get_page_state" → Retry.attempts c new3 = 0)
                  ∧ Retry.executionState s3 = Retry.executionState s2)
    as (new3 & He3 & Hw3 & Hi3 & Ha3 & Hx3).
  { subst s3. destruct (scripting E _); simpl; rewrite <- ?app_assoc;
      eexists; (split; [done|]); repeat split; try done;
      intros c Hc; unfold Retry.attempts; simpl; by case_decide. }
  clearbody s3.
  rewrite retryLoop_S, tryOnce_unsupported by done.
  exists s3, (new2 ++ new3). split; [done|].
  rewrite He3, He2, Heff1, <- app_assoc. split; [done|].
  rewrite waits_app, injections_app, Hw2, Hw3, Hi2, Hi3.
  repeat split; try done.
  - intros c Hc. by rewrite attempts_app, Ha2, Ha3.
  - by rewrite Hx3, Hx2.
  - by rewrite Hx3, Hx2.
Qed.

Lemma unsupported_action_is_tried_three_times_witness :
  Retry.targetTabId Scenario.retryBusy = Some 7%Z
  ∧ (type Cases.dance ∉ Guarantees.knownTypes)
  ∧ ∃ s' new,
      Retry.executeAction Scenario.silent Cases.dance Scenario.retryBusy
        = Threw (Error ("Unsupported action type: " +:+ type Cases.dance)) s'
      ∧ Retry.effects s' = Retry.effects Scenario.retryBusy ++ new
      ∧ Guarantees.waits 1000 new = 2
      ∧ Guarantees.injections new = 2
      ∧ (∀ c, c ≠ "get_page_state" → Retry.attempts c new = 0)
      ∧ logs (Retry.executionState s')
        = logs (Retry.executionState Scenario.retryBusy)
            ++ [LogObject info (Some (stringify Scenario.silent Cases.dance))
                  (date Scenario.silent (Retry.effects Scenario.retryBusy))]
      ∧ status (Retry.executionState s')
        = status (Retry.executionState Scenario.retryBusy).
Proof.
  assert (type Cases.dance ∉ Guarantees.knownTypes) as H.
  { unfold Guarantees.knownTypes. rewrite !not_elem_of_cons.
    repeat split; try discriminate. apply not_elem_of_nil. }
  split; [reflexivity|]. split; [exact H|].
  exact (unsupported_action_is_tried_three_times Scenario.silent Cases.dance
           Scenario.retryBusy 7%Z eq_refl H).
Defined.

(** X10. In the revision with the retry loop, an action of a type whose
    description reads the payload (NAVIGATE, CLICK, TYPE, SUBMIT, SCROLL,
    HOVER, STORE) and that carries no payload is never dispatched:
    [executeAction] throws a TypeError while building the description,
    before anything is logged, sent or changed. *)
Theorem action_without_payload_is_not_dispatched :
  ∀ E (a : AIAction) (s : Retry.t) tabId,
    Retry.targetTabId s = Some tabId →
    type a ∈ Guarantees.needsPayload →
    payload a = None →
    ∃ reading, Retry.executeAction E a s = Threw (TypeError reading) s.
Proof.
  intros E a s tabId Htab Hty Hpl.
  unfold Retry.executeAction, Retry.getActionDescription. rewrite Htab, Hpl.
  unfold Guarantees.needsPayload in Hty. rewrite !elem_of_cons in Hty.
  destruct Hty as [->|[->|[->|[->|[->|[->|[->|Hnil]]]]]]]; simpl;
    try (by eexists).
  by apply elem_of_nil in Hnil.
Qed.

Lemma action_without_payload_is_not_dispatched_witness :
  Retry.targetTabId Scenario.retryBusy = Some 7%Z
  ∧ type Cases.bareClick ∈ Guarantees.needsPayload
  ∧ payload Cases.bareClick = None
  ∧ (∃ reading,
       Retry.executeAction Scenario.silent Cases.bareClick Scenario.retryBusy
         = Threw (TypeError reading) Scenario.retryBusy).
Proof.
  assert (type Cases.bareClick ∈ Guarantees.needsPayload) as H
    by (unfold Guarantees.needsPayload; simpl; repeat constructor).
  split; [reflexivity|]. split; [exact H|]. split; [reflexivity|].
  exact (action_without_payload_is_not_dispatched Scenario.silent Cases.bareClick
           Scenario.retryBusy 7%Z eq_refl H eq_refl).
Defined.

(** X11. In the revision with the retry loop, [handlePageStateUpdate] never
    throws and always records the page state. While a task is running, a
    model call that fails ends the task: the status becomes error and the
    error text the message of the failure, with no log entry added and
    nothing dispatched. When no task is running the page state is recorded
    and nothing else happens: the model is not asked. *)
Theorem page_state_update_never_throws_and_errors_are_fatal :
  (∀ E state (s : Retry.t),
     ∃ s', Retry.handlePageStateUpdate E state s = Returned s'
           ∧ Retry.lastPageState s' = Some state)
  ∧ (∀ E state (s : Retry.t) task e,
       Retry.currentTask s = Some task →
       status (Retry.executionState s) = SRunning →
       model E (Retry.effects s ++ [Received state]) = Rejected e →
       ∃ s', Retry.handlePageStateUpdate E state s = Returned s'
             ∧ status (Retry.executionState s') = SError
             ∧ error_ (Retry.executionState s') = Some (message_of e)
             ∧ logs (Retry.executionState s') = logs (Retry.executionState s)
             ∧ Retry.currentTask s' = Some task
             ∧ Retry.effects s'
               = Retry.effects s
                   ++ [Received state; Decide (Retry.prompt task) (Some state) None])
  ∧ (∀ E state (s : Retry.t),
       status (Retry.executionState s) ≠ SRunning ∨ Retry.currentTask s = None →
       Retry.handlePageStateUpdate E state s
       = Returned (Retry.perform (Received state)
                     (Retry.setLastPageState (Some state) s))).
Proof.
  split; [|split].
  - intros E state s. unfold Retry.handlePageStateUpdate.
    set (s1 := Retry.perform (Received state) (Retry.setLastPageState (Some state) s)).
    assert (Retry.lastPageState s1 = Some state) as H1 by done. clearbody s1.
    destruct (Retry.currentTask s1) as [task|]; [|by exists s1].
    destruct (status (Retry.executionState s1)); try by exists s1.
    unfold Retry.ask. destruct (model E (Retry.effects s1)) as [r|e].
    + destruct (action r) as [a|].
      * match goal with |- context [Retry.executeAction E a ?s2] =>
          pose proof (executeAction_dispatchStep E a s2) as (_ & _ & Hp & _);
          pose proof (executeAction_not_cut E a s2) as Hcut;
          destruct (Retry.executeAction E a s2) as [s3|e s3|s3]
        end.
        -- exists s3. split; [done|]. simpl in Hp. by rewrite Hp.
        -- eexists. split; [done|]. simpl in *. by rewrite Hp.
        -- by destruct (Hcut s3).
      * destruct (completed r); by eexists.
    + by eexists.
  - intros E state s task e Htask Hrun Hm. unfold Retry.handlePageStateUpdate.
    simpl. rewrite Htask, Hrun. unfold Retry.ask. simpl. rewrite Hm.
    eexists. split; [done|]. simpl. by rewrite <- app_assoc.
  - intros E state s Hs. unfold Retry.handlePageStateUpdate. simpl.
    destruct Hs as [Hs| ->]; [|done].
    destruct (Retry.currentTask s); [|done].
    by destruct (status (Retry.executionState s)).
Qed.

Lemma page_state_update_never_throws_and_errors_are_fatal_witness :
  Retry.currentTask Scenario.retryBusy
    = Some (Retry.mkTask "book a table" (Some [Scenario.click]) (Some 0))
  ∧ status (Retry.executionState Scenario.retryBusy) = SRunning
  ∧ model Scenario.silent (Retry.effects Scenario.retryBusy ++ [Received Scenario.pageA])
    = Rejected (Error "offline")
  ∧ ∃ s', Retry.handlePageStateUpdate Scenario.silent Scenario.pageA Scenario.retryBusy
          = Returned s'
          ∧ status (Retry.executionState s') = SError
          ∧ error_ (Retry.executionState s') = Some (message_of (Error "offline"))
          ∧ logs (Retry.executionState s')
            = logs (Retry.executionState Scenario.retryBusy)
          ∧ Retry.currentTask s'
            = Some (Retry.mkTask "book a table" (Some [Scenario.click]) (Some 0))
          ∧ Retry.effects s'
            = Retry.effects Scenario.retryBusy
                ++ [Received Scenario.pageA;
                    Decide (Retry.prompt
                              (Retry.mkTask "book a table" (Some [Scenario.click])
                                 (Some 0)))
                      (Some Scenario.pageA) None].
Proof.
  split; [reflexivity|]. split; [reflexivity|]. split; [reflexivity|].
  exact (proj1 (proj2 page_state_update_never_throws_and_errors_are_fatal)
           Scenario.silent Scenario.pageA Scenario.retryBusy
           (Retry.mkTask "book a table" (Some [Scenario.click]) (Some 0))
           (Error "offline") eq_refl eq_refl eq_refl).
Defined.

Section RetryListener.
Import Retry Guarantees.
Context (E : Env).

Lemma handlePageStateUpdate_frame state s :
  let s' := state_of (handlePageStateUpdate E state s) in
  currentStep (executionState s') = currentStep (executionState s)
  ∧ targetTabId s' = targetTabId s.
Proof.
  unfold handlePageStateUpdate.
  set (s1 := perform (Received state) (setLastPageState (Some state) s)).
  assert (currentStep (executionState s1) = currentStep (executionState s)
          ∧ targetTabId s1 = targetTabId s) as [<- <-] by done.
  clearbody s1.
  destruct (currentTask s1) as [task|]; [|done].
  destruct (status (executionState s1)); try done.
  unfold ask. destruct (model E (effects s1)) as [r|e]; [|done].
  destruct (action r) as [a|].
  - match goal with |- context [executeAction E a ?s2] =>
      pose proof (executeAction_dispatchStep E a s2) as (_ & Ht & _ & Hc & _);
      destruct (executeAction E a s2) as [s3|e s3|s3]
    end; simpl in *; by rewrite Hc, Ht.
  - by destruct (completed r).
Qed.

Lemma onMessage_step m s :
  let c' := currentStep (executionState (onMessage E m s)) in
  c' = currentStep (executionState s) ∨ c' = 0 ∨ c' = 1.
Proof.
  destruct m as [p|state|]; simpl.
  - unfold onMessage, handleNewTask.
    destruct (status (executionState s)); try (by left);
      (destruct (targetTabId s); [|by left]);
      unfold ask; (destruct (model E _) as [r|e]; [|by left]);
      (destruct (action r) as [a|]; [|by left]);
      match goal with |- context [executeAction E a ?s2] =>
        pose proof (executeAction_dispatchStep E a s2) as (_ & _ & _ & Hc & _);
        destruct (executeAction E a s2) as [s3|e s3|s3]
      end; simpl in *; right; right; by rewrite Hc.
  - left. unfold onMessage.
    pose proof (handlePageStateUpdate_frame state s) as [Hc _].
    by destruct (handlePageStateUpdate E state s).
  - right. by left.
Qed.

Lemma onMessage_refused p s :
  status (executionState s) = SRunning →
  onMessage E (START_TASK p) s
  = updateExecutionState
      (mkUpdates (Some SError) None None (Some "A task is already running.")
         (logged E error (Some "A task is already running.") s)) s.
Proof. intros Hrun. unfold onMessage, handleNewTask. by rewrite Hrun. Qed.

Lemma handled_cons m messages s :
  handled E (m :: messages) s = handled E messages (onMessage E m s).
Proof. reflexivity. Qed.

End RetryListener.

(** X12. In the revision with the retry loop, the step counter does not
    count actions: page-state updates, each of which may dispatch a further
    action, never change it, and over any sequence of messages it is the
    value it had, 0 (after a stop) or 1 (after an accepted START_TASK); so
    a service whose counter is at most 1 never shows more than 1. *)
Theorem step_counter_never_exceeds_one :
  (∀ E states (s : Retry.t),
     currentStep (Retry.executionState
                    (Guarantees.handled E (Retry.PAGE_STATE_UPDATE <$> states) s))
     = currentStep (Retry.executionState s))
  ∧ (∀ E messages (s : Retry.t),
       currentStep (Retry.executionState s) ≤ 1 →
       currentStep (Retry.executionState (Guarantees.handled E messages s)) ≤ 1).
Proof.
  split.
  - intros E states. induction states as [|state states IH]; intros s; [done|].
    rewrite fmap_cons, handled_cons, IH. unfold Retry.onMessage.
    pose proof (handlePageStateUpdate_frame E state s) as [Hc _].
    by destruct (Retry.handlePageStateUpdate E state s).
  - intros E messages. induction messages as [|m messages IH]; intros s Hs; [done|].
    rewrite handled_cons. apply IH.
    pose proof (onMessage_step E m s) as Hm. simpl in Hm. lia.
Qed.

Lemma step_counter_never_exceeds_one_witness :
  let messages := [Retry.START_TASK "book a table";
                   Retry.PAGE_STATE_UPDATE Scenario.pageA;
                   Retry.PAGE_STATE_UPDATE Scenario.pageB] in
  currentStep (Retry.executionState Scenario.retryReady) ≤ 1
  ∧ currentStep
      (Retry.executionState
         (Guarantees.handled (Cases.asking Scenario.click) messages Scenario.retryReady))
    ≤ 1.
Proof.
  intros messages.
  assert (currentStep (Retry.executionState Scenario.retryReady) ≤ 1) as H
    by (simpl; lia).
  split; [exact H|].
  exact (proj2 step_counter_never_exceeds_one (Cases.asking Scenario.click) messages
           Scenario.retryReady H).
Defined.

(** X13. In the revision with the retry loop, a START_TASK that arrives
    while a task is running is refused, but the listener then publishes
    status error with "A task is already running." as error text and as a
    new log entry, keeping the task, the step counter and the effects. The
    running guard therefore holds for one message only: a further START_TASK
    is accepted and, with a target tab and an answer that carries an action,
    replaces the task. *)
Theorem refused_start_leaves_status_error :
  ∀ E p (s : Retry.t),
    status (Retry.executionState s) = SRunning →
    let s1 := Retry.onMessage E (Retry.START_TASK p) s in
    status (Retry.executionState s1) = SError
    ∧ error_ (Retry.executionState s1) = Some "A task is already running."
    ∧ logs (Retry.executionState s1)
      = logs (Retry.executionState s)
          ++ [LogObject error (Some "A task is already running.")
                (date E (Retry.effects s))]
    ∧ currentStep (Retry.executionState s1) = currentStep (Retry.executionState s)
    ∧ Retry.currentTask s1 = Retry.currentTask s
    ∧ Retry.effects s1 = Retry.effects s
    ∧ (∀ p2 tabId r a,
         Retry.targetTabId s = Some tabId →
         model E (Retry.effects s) = Fulfilled r →
         action r = Some a →
         Retry.currentTask (Retry.onMessage E (Retry.START_TASK p2) s1)
         = Some (Retry.mkTask p2 (Some [a]) (Some 0))).
Proof.
  intros E p s Hrun s1. subst s1. rewrite onMessage_refused by done.
  repeat (split; [done|]).
  intros p2 tabId r a Htab Hm Ha.
  set (s1 := Retry.updateExecutionState _ s).
  unfold Retry.onMessage.
  assert (status (Retry.executionState s1) = SError) as Hst by done.
  assert (Retry.targetTabId s1 = Some tabId) as Htab1 by done.
  assert (Retry.effects s1 = Retry.effects s) as Heff by done.
  clearbody s1. unfold Retry.handleNewTask. rewrite Hst, Htab1.
  unfold Retry.ask. simpl. rewrite Heff, Hm.
  destruct r as [act why done_ failed_ stored]. simpl in Ha. subst act.
  cbn [action].
  match goal with |- context [Retry.executeAction E a ?s2] =>
    pose proof (executeAction_dispatchStep E a s2) as (Ht & _);
    destruct (Retry.executeAction E a s2) as [s3|e s3|s3]
  end; simpl in *; by rewrite Ht.
Qed.

Lemma refused_start_leaves_status_error_witness :
  let E := Cases.asking Scenario.click in
  let s1 := Retry.onMessage E (Retry.START_TASK "order a pizza") Scenario.retryBusy in
  status (Retry.executionState Scenario.retryBusy) = SRunning
  ∧ status (Retry.executionState s1) = SError
  ∧ error_ (Retry.executionState s1) = Some "A task is already running."
  ∧ logs (Retry.executionState s1)
    = logs (Retry.executionState Scenario.retryBusy)
        ++ [LogObject error (Some "A task is already running.")
              (date E (Retry.effects Scenario.retryBusy))]
  ∧ currentStep (Retry.executionState s1)
    = currentStep (Retry.executionState Scenario.retryBusy)
  ∧ Retry.currentTask s1 = Retry.currentTask Scenario.retryBusy
  ∧ Retry.effects s1 = Retry.effects Scenario.retryBusy
  ∧ (∀ p2 tabId r a,
       Retry.targetTabId Scenario.retryBusy = Some tabId →
       model E (Retry.effects Scenario.retryBusy) = Fulfilled r →
       action r = Some a →
       Retry.currentTask (Retry.onMessage E (Retry.START_TASK p2) s1)
       = Some (Retry.mkTask p2 (Some [a]) (Some 0))).
Proof.
  intros E s1. split; [reflexivity|].
  exact (refused_start_leaves_status_error E "order a pizza" Scenario.retryBusy eq_refl).
Defined.

(* ====================================================================== *)
(** * Storage, provider and popup *)

Section StorageFacts.
Import Storage.

Lemma getLogs_logTask now p r local :
  getLogs (logTask now p r local) = getLogs local ++ [mkTaskLog now p r].
Proof. unfold getLogs at 1, logTask. by rewrite lookup_insert_eq. Qed.

Lemma getSettings_logTask now p r local :
  getSettings (logTask now p r local) = getSettings local.
Proof. unfold getSettings, logTask. by rewrite lookup_insert_ne. Qed.

Lemma getProviders_cached stores p :
  getProviders stores (Some p) = (replicate (length stores) (Fulfilled p), Some p).
Proof.
  induction stores as [|local stores IH]; [done|]. simpl. by rewrite IH.
Qed.

End StorageFacts.

(** X14. [StorageManager] round trips: the settings read back are the ones
    saved last; a logged task is appended after the logs already kept, so
    the logs written one after the other onto cleared storage are read back
    complete and in order, without any bound; clearing the logs leaves none;
    and logs and settings do not disturb each other. *)
Theorem storage_round_trips :
  (∀ x local, Storage.getSettings (Storage.saveSettings x local) = Some x)
  ∧ (∀ x y local,
       Storage.getSettings (Storage.saveSettings y (Storage.saveSettings x local))
       = Some y)
  ∧ (∀ now p r local,
       Storage.getLogs (Storage.logTask now p r local)
       = Storage.getLogs local ++ [Storage.mkTaskLog now p r])
  ∧ (∀ entries local,
       Storage.getLogs
         (foldl (λ l e, Storage.logTask (Storage.tl_timestamp e) (Storage.tl_prompt e)
                          (Storage.tl_response e) l)
            (Storage.clearLogs local) entries)
       = entries)
  ∧ (∀ local, Storage.getLogs (Storage.clearLogs local) = [])
  ∧ (∀ x local, Storage.getLogs (Storage.saveSettings x local) = Storage.getLogs local)
  ∧ (∀ now p r local,
       Storage.getSettings (Storage.logTask now p r local) = Storage.getSettings local)
  ∧ (∀ local, Storage.getSettings (Storage.clearLogs local) = Storage.getSettings local).
Proof.
  assert (∀ local, Storage.getLogs (Storage.clearLogs local) = []) as Hclear.
  { intros local. unfold Storage.getLogs, Storage.clearLogs.
    by rewrite lookup_delete_eq. }
  repeat split.
  - intros x local. unfold Storage.getSettings, Storage.saveSettings.
    by rewrite lookup_insert_eq.
  - intros x y local. unfold Storage.getSettings, Storage.saveSettings.
    by rewrite lookup_insert_eq.
  - apply getLogs_logTask.
  - intros entries local.
    assert (∀ l, Storage.getLogs
                   (foldl (λ l e, Storage.logTask (Storage.tl_timestamp e)
                                    (Storage.tl_prompt e) (Storage.tl_response e) l)
                      l entries)
                 = Storage.getLogs l ++ entries) as Hfold.
    { induction entries as [|[t p r] entries IH]; intros l; simpl.
      - by rewrite app_nil_r.
      - by rewrite IH, getLogs_logTask, <- app_assoc. }
    by rewrite Hfold, Hclear.
  - exact Hclear.
  - intros x local. unfold Storage.getLogs, Storage.saveSettings.
    by rewrite lookup_insert_ne.
  - apply getSettings_logTask.
  - intros local. unfold Storage.getSettings, Storage.clearLogs.
    by rewrite lookup_delete_ne.
Qed.

(** X15. [AIClient.getProvider] reads the API key once: without settings,
    or with an empty key such as the settings form starts from, it fails
    with the not-configured error and caches nothing, so a later call reads
    the storage again; with a non-empty key it creates the provider for that
    key; and once a provider exists every later call returns that same
    provider, whatever the storage holds by then. A completion without
    content is an error of the provider, and one that is returned is never
    empty. *)
Theorem provider_is_created_once :
  (∀ local,
     Storage.getSettings local = None
     ∨ Storage.apiKey <$> Storage.getSettings local = Some "" →
     Storage.getProvider local None
     = (Rejected (Error "AI provider not configured. Please set up your API key."),
        None))
  ∧ (∀ local,
       Storage.getProvider (Storage.saveSettings Storage.formDefaults local) None
       = (Rejected (Error "AI provider not configured. Please set up your API key."),
          None))
  ∧ (∀ x local,
       Storage.apiKey x ≠ "" →
       Storage.getProvider (Storage.saveSettings x local) None
       = (Fulfilled (Storage.mkProvider (Storage.apiKey x)),
          Some (Storage.mkProvider (Storage.apiKey x))))
  ∧ (∀ stores p,
       Storage.getProviders stores (Some p)
       = (replicate (length stores) (Fulfilled p), Some p))
  ∧ (∀ reply c,
       Storage.generateCompletion reply = Fulfilled c →
       reply = Fulfilled (Some c) ∧ c ≠ "")
  ∧ Storage.generateCompletion (Fulfilled None)
    = Rejected (Error "No completion content received from OpenAI")
  ∧ Storage.generateCompletion (Fulfilled (Some ""))
    = Rejected (Error "No completion content received from OpenAI").
Proof.
  repeat split.
  - intros local [H|H]; unfold Storage.getProvider; by rewrite ?H.
  - intros local. unfold Storage.getProvider, Storage.getSettings, Storage.saveSettings.
    by rewrite lookup_insert_eq.
  - intros x local Hk. unfold Storage.getProvider, Storage.getSettings,
      Storage.saveSettings. rewrite lookup_insert_eq. simpl.
    by destruct (Storage.apiKey x).
  - apply getProviders_cached.
  - destruct reply as [[[|ch rest]|]|e]; simpl in H; by simplify_eq.
  - destruct reply as [[[|ch rest]|]|e]; simpl in H; by simplify_eq.
Qed.

Lemma provider_is_created_once_witness :
  Storage.apiKey <$> Storage.getSettings (Cases.keyed "") = Some ""
  ∧ Storage.getProvider (Cases.keyed "") None
    = (Rejected (Error "AI provider not configured. Please set up your API key."),
       None).
Proof.
  assert (Storage.apiKey <$> Storage.getSettings (Cases.keyed "") = Some "") as H
    by (vm_compute; reflexivity).
  split; [exact H|].
  exact (proj1 provider_is_created_once (Cases.keyed "") (or_intror H)).
Defined.

Section PopupFacts.
Import Popup.

Lemma firstTimestamp_prefix e e' :
  logs e ≠ [] → logs e `prefix_of` logs e' → firstTimestamp e' = firstTimestamp e.
Proof.
  intros Hne [k Hk]. unfold firstTimestamp. rewrite Hk.
  by destruct (logs e).
Qed.

End PopupFacts.

(** X16. The task list of the popup: a state update without log entries
    leaves the list alone; any other puts the received state first, either
    in front of the list or in place of its first entry, so the list never
    shrinks and grows by one at most; an update that extends the logs of the
    first entry replaces that entry. Hence, on the service with the error
    counter, the state reached over any events other than START_TASK
    replaces the entry of the state they started from, when that state had
    a log entry: a task keeps one entry as it proceeds. *)
Theorem popup_keeps_one_entry_per_task :
  (∀ state tasks, logs state = [] → Popup.onStateUpdate state tasks = tasks)
  ∧ (∀ state tasks,
       logs state ≠ [] →
       ∃ kept, Popup.onStateUpdate state tasks = state :: kept
               ∧ (kept = tasks ∨ kept = tail tasks))
  ∧ (∀ state tasks,
       length tasks ≤ length (Popup.onStateUpdate state tasks) ≤ S (length tasks))
  ∧ (∀ e e' tasks,
       logs e ≠ [] → logs e `prefix_of` logs e' →
       Popup.onStateUpdate e' (e :: tasks) = e' :: tasks)
  ∧ (∀ E fuel (events : list (Z * Budget.Message)) (s : Budget.t) tasks,
       Forall Budget.notStart events →
       logs (Budget.executionState s) ≠ [] →
       let e' := Budget.executionState (state_of (Budget.run E fuel events s)) in
       Popup.onStateUpdate e' (Budget.executionState s :: tasks) = e' :: tasks).
Proof.
  assert (∀ e e' tasks,
            logs e ≠ [] → logs e `prefix_of` logs e' →
            Popup.onStateUpdate e' (e :: tasks) = e' :: tasks) as Hsame.
  { intros e e' tasks Hne Hpre. unfold Popup.onStateUpdate.
    rewrite (firstTimestamp_prefix e e') by done.
    destruct Hpre as [k Hk]. rewrite Hk, length_app.
    destruct (logs e) as [|l ls]; [done|]. simpl.
    by case_decide. }
  repeat split.
  - intros state tasks H. unfold Popup.onStateUpdate. by rewrite H.
  - intros state tasks H. unfold Popup.onStateUpdate.
    destruct (logs state) as [|l ls] eqn:Hl; [done|]. simpl.
    destruct tasks as [|first rest]; [by exists []; auto|].
    case_decide; eexists; split; eauto.
  - unfold Popup.onStateUpdate. case_decide; [|done].
    destruct tasks as [|first rest]; simpl; [lia|]. case_decide; simpl; lia.
  - unfold Popup.onStateUpdate. case_decide; [|lia].
    destruct tasks as [|first rest]; simpl; [lia|]. case_decide; simpl; lia.
  - exact Hsame.
  - intros E fuel events s tasks Hev Hne e'. apply Hsame; [done|].
    assert (Guarantees.execStep (Budget.executionState s) e') as (_ & _ & Hl);
      [|done].
    apply (kept_by_run_notStart E
             (λ s', Guarantees.execStep (Budget.executionState s)
                      (Budget.executionState s'))); try done.
    + intros s0 e0 H1 H2. simpl. by eapply execStep_trans.
    + apply execStep_refl.
Qed.

Lemma popup_keeps_one_entry_per_task_witness :
  let e := Budget.executionState Scenario.budgetBusy in
  let e' := Budget.pushLog (LogString "Executing action: CLICK") e in
  logs e ≠ [] ∧ logs e `prefix_of` logs e'
  ∧ Popup.onStateUpdate e' [e] = [e'].
Proof.
  intros e e'.
  assert (logs e ≠ []) as H1 by done.
  assert (logs e `prefix_of` logs e') as H2 by (by apply prefix_app_r).
  split; [exact H1|]. split; [exact H2|].
  exact (proj1 (proj2 (proj2 (proj2 popup_keeps_one_entry_per_task))) e e' [] H1 H2).
Defined.

(* ====================================================================== *)
(** * The DOM extractor *)

Section ExtractorFacts.
Import Extractor Shapes.

Lemma collapse_length s : ∀ b, String.length (collapse b s) ≤ String.length s.
Proof.
  induction s as [|c rest IH]; intros b; simpl; [done|].
  pose proof (IH true). pose proof (IH false).
  destruct (isSpace c); [destruct b|]; simpl; lia.
Qed.

Lemma collapse_singleSpaced s :
  ∀ b, singleSpaced (collapse b s)
       ∧ (b = true →
          match collapse b s with
          | String d _ => isSpace d = false
          | "" => True
          end).
Proof.
  induction s as [|c rest IH]; intros b; simpl; [done|].
  destruct (isSpace c) eqn:Hc.
  - destruct b.
    + apply IH.
    + destruct (IH true) as [H1 H2]. simpl. split; [|done].
      split; [|done]. intros _. split; [done|]. by apply H2.
  - destruct (IH false) as [H1 _]. simpl. split; [|done].
    split; [|done]. intros Hc'. congruence.
Qed.

Lemma climb_above current p selector selector' :
  parentElement current = Some p → isBody current = false →
  climb current selector = climb current selector'.
Proof. destruct current as [t i ty b n [q|]]; simpl; [|done]. by intros _ ->. Qed.

Lemma climb_step current p selector :
  parentElement current = Some p → isBody current = false →
  climb current selector = climb p (nthChild current).
Proof.
  destruct current as [t i ty b n [q|]]; simpl; [|done]. by intros [= ->] ->.
Qed.

Lemma climb_names_one :
  ∀ current selector,
    (∃ top, selector = nthChild top) → ∃ top, climb current selector = nthChild top.
Proof.
  fix IH 1. intros [t i ty b n [q|]] selector H; simpl; [|done].
  destruct b; [done|]. apply IH. by eexists.
Qed.

Lemma append_length s1 s2 :
  String.length (s1 +:+ s2) = String.length s1 + String.length s2.
Proof.
  induction s1 as [|c s1 IH]; [done|].
  change (S (String.length (s1 +:+ s2)) = S (String.length s1) + String.length s2).
  by rewrite IH.
Qed.

Lemma append_inj_r s1 s2 t : s1 +:+ t = s2 +:+ t → s1 = s2.
Proof.
  revert s2. induction s1 as [|c s1 IH]; intros [|d s2] H.
  - done.
  - apply (f_equal String.length) in H. rewrite !append_length in H. simpl in H. lia.
  - apply (f_equal String.length) in H. rewrite !append_length in H. simpl in H. lia.
  - injection H as -> H. f_equal. by apply IH.
Qed.

Lemma join_snoc_inj sep l a b :
  Content.join sep (l ++ [a]) = Content.join sep (l ++ [b]) → a = b.
Proof.
  induction l as [|x l IH]; simpl; [done|].
  destruct l as [|y l]; simpl in *.
  - intros H. by do 2 apply String.app_inj in H.
  - intros H. do 2 apply String.app_inj in H. by apply IH.
Qed.

Lemma extracted_visible scrollY allElements :
  filter (λ el, el_isVisible el = true) (extractElements scrollY allElements)
  = extractElements scrollY allElements.
Proof.
  unfold extractElements. rewrite filter_app.
  f_equal.
  induction (filter _ allElements) as [|el els IH]; [done|].
  rewrite fmap_cons, filter_cons_True by done. by rewrite IH.
Qed.

End ExtractorFacts.

(** X17. The text the extractor reports for an element has at most 150
    characters and no whitespace other than single spaces: tabs, line
    breaks and no-break spaces are turned into spaces and runs of
    whitespace into one space. The cut to 150 characters is made before
    the runs are collapsed. *)
Theorem visible_text_is_short_and_single_spaced :
  ∀ element,
    String.length (Extractor.getVisibleText element) ≤ 150
    ∧ Shapes.singleSpaced (Extractor.getVisibleText element).
Proof.
  intros element. unfold Extractor.getVisibleText. split.
  - etrans; [apply collapse_length|]. rewrite slice0_length. lia.
  - apply collapse_singleSpaced.
Qed.

(** X18. [generateSelector] does not identify an element by its path: for
    an element without id that is no input with a type, the loop overwrites
    the selector at every level, so an element below the children of the
    body gets the selector of its parent, when the parent has no id and is
    no typed input either; an element with an id gets "#" followed by the
    id whatever its place in the tree. *)
Theorem selector_of_a_nested_element_is_its_parents :
  (∀ element,
     Extractor.id element ≠ "" →
     Extractor.generateSelector element = "#" +:+ Extractor.id element)
  ∧ (∀ element parent,
       Extractor.parentElement element = Some parent →
       Extractor.isBody element = false →
       is_Some (Extractor.parentElement parent) →
       Extractor.isBody parent = false →
       Extractor.id element = "" →
       Parser.truthy (Extractor.inputType element) = None →
       Extractor.id parent = "" →
       Parser.truthy (Extractor.inputType parent) = None →
       Extractor.generateSelector element = Extractor.generateSelector parent
       ∧ ∃ top, Extractor.generateSelector element = Extractor.nthChild top).
Proof.
  split.
  - intros element Hid. unfold Extractor.generateSelector. by case_bool_decide.
  - intros element parent Hp Hb [pp Hpp] Hbp Hid Hty Hidp Htyp.
    unfold Extractor.generateSelector. rewrite Hid, Hidp, Hty, Htyp. simpl.
    rewrite (climb_step element parent) by done.
    rewrite (climb_step parent pp _ Hpp Hbp), (climb_step parent pp _ Hpp Hbp).
    split; [done|]. apply climb_names_one. by eexists.
Qed.

Lemma selector_of_a_nested_element_is_its_parents_witness :
  Extractor.parentElement Cases.heading = Some Cases.section
  ∧ Extractor.isBody Cases.heading = false
  ∧ is_Some (Extractor.parentElement Cases.section)
  ∧ Extractor.isBody Cases.section = false
  ∧ Extractor.id Cases.heading = ""
  ∧ Parser.truthy (Extractor.inputType Cases.heading) = None
  ∧ Extractor.id Cases.section = ""
  ∧ Parser.truthy (Extractor.inputType Cases.section) = None
  ∧ Extractor.generateSelector Cases.heading = Extractor.generateSelector Cases.section
  ∧ ∃ top, Extractor.generateSelector Cases.heading = Extractor.nthChild top.
Proof.
  assert (is_Some (Extractor.parentElement Cases.section)) as H by (by eexists).
  split; [reflexivity|]. split; [reflexivity|]. split; [exact H|].
  split; [reflexivity|]. split; [reflexivity|]. split; [reflexivity|].
  split; [reflexivity|]. split; [reflexivity|].
  exact (proj2 selector_of_a_nested_element_is_its_parents Cases.heading Cases.section
           eq_refl eq_refl H eq_refl eq_refl eq_refl eq_refl eq_refl).
Defined.

(** X19. The list the extractor returns always ends with the
    scroll-position entry and holds visible entries only, so the
    fingerprint covers all of it. Hence two views of the same document have
    the same fingerprint exactly when they are scrolled to the same offset:
    the time of the view never matters, and every change of the scroll
    offset makes [sendPageState] send the page state again, while a view
    that differs in time only is not sent. *)
Theorem scrolling_changes_the_fingerprint :
  (∀ scrollY allElements,
     last (Extractor.extractElements scrollY allElements)
     = Some (Extractor.scrollPosition scrollY)
     ∧ Forall (λ el, el_isVisible el = true)
         (Extractor.extractElements scrollY allElements)
     ∧ length (Extractor.extractElements scrollY allElements) ≤ S (length allElements))
  ∧ (∀ v1 v2,
       Shapes.sameDocument v1 v2 →
       (Content.hashState (Page.stateOf v1) = Content.hashState (Page.stateOf v2)
        ↔ Page.scrollY v1 = Page.scrollY v2)
       ∧ ∀ c,
           let c1 := Content.sendPageState (Page.stateOf v1) c in
           let c2 := Content.sendPageState (Page.stateOf v2) c1 in
           Content.sent c2
           = if decide (Page.scrollY v1 = Page.scrollY v2)
             then Content.sent c1
             else Content.sent c1 ++ [Page.stateOf v2]).
Proof.
  split.
  - intros scrollY allElements. unfold Extractor.extractElements.
    split; [by rewrite last_snoc|]. split.
    + apply Forall_app. split; [|by constructor].
      apply Forall_fmap. by apply Forall_true.
    + rewrite length_app, length_fmap. simpl.
      pose proof (length_filter (λ el, Extractor.included el = true) allElements). lia.
  - intros [h1 t1 y1 els1 n1] [h2 t2 y2 els2 n2] (Hh & Ht & He). simpl in *. subst.
    assert (Content.hashState (Page.stateOf (Page.mkView h2 t2 y1 els2 n1))
            = Content.hashState (Page.stateOf (Page.mkView h2 t2 y2 els2 n2))
            ↔ y1 = y2) as Hiff.
    { split; [|by intros ->].
      unfold Content.hashState, Page.stateOf. simpl. intros [= _ H].
      rewrite !extracted_visible in H. unfold Extractor.extractElements in H.
      rewrite !fmap_app in H. apply join_snoc_inj in H.
      unfold Extractor.scrollPosition in H. simpl in H.
      do 5 apply String.app_inj in H. apply append_inj_r in H.
      by apply pretty_Z_inj in H. }
    split; [exact Hiff|].
    intros c.
    set (c1 := Content.sendPageState
                 (Page.stateOf (Page.mkView h2 t2 y1 els2 n1)) c).
    assert (Content.isInitialStateSet c1 = true
            ∧ Content.lastStateHash c1
              = Some (Content.hashState (Page.stateOf (Page.mkView h2 t2 y1 els2 n1))))
      as [Hi Hl].
    { subst c1. unfold Content.sendPageState.
      destruct (Content.isInitialStateSet c) eqn:Hset; simpl; [|done].
      case_bool_decide as Hd; simpl; [|done]. split; [done|by symmetry]. }
    clearbody c1. unfold Content.sendPageState. rewrite Hi, Hl. simpl.
    case_decide as Hy.
    + rewrite bool_decide_true; [done|]. f_equal. symmetry. by apply Hiff.
    + rewrite bool_decide_false; [done|]. intros Hfp. apply Hy, Hiff. congruence.
Qed.

Lemma scrolling_changes_the_fingerprint_witness :
  let v1 := Cases.article 0 1000 in
  let v2 := Cases.article 240 2000 in
  Shapes.sameDocument v1 v2
  ∧ (Content.hashState (Page.stateOf v1) = Content.hashState (Page.stateOf v2)
     ↔ Page.scrollY v1 = Page.scrollY v2)
  ∧ ∀ c,
      let c1 := Content.sendPageState (Page.stateOf v1) c in
      let c2 := Content.sendPageState (Page.stateOf v2) c1 in
      Content.sent c2
      = if decide (Page.scrollY v1 = Page.scrollY v2)
        then Content.sent c1
        else Content.sent c1 ++ [Page.stateOf v2].
Proof.
  intros v1 v2.
  assert (Shapes.sameDocument v1 v2) as H by (repeat split).
  split; [exact H|].
  exact (proj2 scrolling_changes_the_fingerprint v1 v2 H).
Defined.

(* ====================================================================== *)
(** * The content script: listener, initial state and mutation timer *)

Section PageFacts.
Import Content Page.

Lemma sendPageStateVia_state lastError state c :
  (sendPageStateVia lastError state c).2 = sendPageState state c.
Proof.
  unfold sendPageStateVia, sendPageState.
  by destruct (negb (isInitialStateSet c) || _).
Qed.

Lemma sendInitialRounds_bound tries :
  ∀ c, (sendInitialRounds tries c).1 ≤ length tries
       ∧ length (sent (sendInitialRounds tries c).2) ≤ length (sent c) + length tries.
Proof.
  induction tries as [|[page reply] tries IH]; intros c; simpl; [lia|].
  pose proof (sendPageStateVia_state reply page c) as Hs.
  destruct (sendPageStateVia reply page c) as [[e|] c1]; simpl in *; subst c1.
  - specialize (IH (sendPageState page c)).
    destruct (sendInitialRounds tries (sendPageState page c)) as [n c2]. simpl in *.
    assert (length (sent (sendPageState page c)) ≤ S (length (sent c))).
    { unfold sendPageState. destruct (negb _ || _); simpl; [|lia].
      rewrite length_app. simpl. lia. }
    lia.
  - assert (length (sent (sendPageState page c)) ≤ S (length (sent c))).
    { unfold sendPageState. destruct (negb _ || _); simpl; [|lia].
      rewrite length_app. simpl. lia. }
    lia.
Qed.

Lemma handleDOMChanges_arms at_ mutations c :
  existsb (significant c) mutations = true →
  handleDOMChanges at_ mutations c
  = mkContent (Some (at_ + 500)%Z) (lastStateHash c) (isInitialStateSet c) (sent c).
Proof. intros H. unfold handleDOMChanges. by rewrite H. Qed.

Lemma significant_same c c' m :
  isInitialStateSet c' = isInitialStateSet c → significant c' m = significant c m.
Proof. intros H. unfold significant. by rewrite H. Qed.

Lemma existsb_significant_same c c' mutations :
  isInitialStateSet c' = isInitialStateSet c →
  existsb (significant c') mutations = existsb (significant c) mutations.
Proof.
  intros H. induction mutations as [|m ms IH]; [done|]. simpl.
  by rewrite IH, (significant_same c c').
Qed.

Lemma run_close pageAt events :
  ∀ prev c,
    debounceTimeout c = Some (prev + 500)%Z →
    closeTogether prev events →
    Forall (λ ev, existsb (significant c) ev.2 = true) events →
    run pageAt events c
    = mkContent (Some (default prev (fst <$> last events) + 500)%Z)
        (lastStateHash c) (isInitialStateSet c) (sent c).
Proof.
  induction events as [|[at_ mutations] events IH]; intros prev c Hdue Hclose Hsig.
  { simpl. rewrite <- Hdue. by destruct c. }
  destruct Hclose as [Hat Hclose]. apply Forall_cons in Hsig as [Hm Hsig].
  simpl in Hm. simpl run. unfold step. rewrite Hdue. simpl default.
  unfold advance at 1. rewrite Hdue. rewrite decide_False by lia.
  rewrite handleDOMChanges_arms by done.
  rewrite (IH at_); [| done | done |]; simpl.
  - f_equal. rewrite last_cons. by destruct (last events) as [[]|].
  - eapply Forall_impl; [exact Hsig|]. intros ev Hev.
    by rewrite (existsb_significant_same c).
Qed.

End PageFacts.

(** X20. The retry loop of [sendInitialState] makes three rounds at most
    and sends three messages at most, and it does not repeat a send that
    failed: the fingerprint is stored before the message goes out, so when
    the first send fails and the page has the same fingerprint at the
    second round, that round sends nothing, counts as a success and ends
    the loop, with one message sent in all, whatever the runtime would have
    answered. A first send that succeeds ends the loop at once. *)
Theorem initial_state_is_not_sent_again_after_a_failed_send :
  (∀ tries c,
     (Page.sendInitialState tries c).1 ≤ 3
     ∧ length (Content.sent (Page.sendInitialState tries c).2)
       ≤ length (Content.sent c) + 3)
  ∧ (∀ page rest c,
       Page.sendInitialState ((page, None) :: rest) c
       = (1, Content.sendPageState page c))
  ∧ (∀ page1 failure page2 reply2 rest c,
       Content.isInitialStateSet c = false →
       Content.hashState page2 = Content.hashState page1 →
       Page.sendInitialState ((page1, Some failure) :: (page2, reply2) :: rest) c
       = (2, Content.sendPageState page1 c)
       ∧ Content.sent (Content.sendPageState page1 c) = Content.sent c ++ [page1]).
Proof.
  split; [|split].
  - intros tries c. unfold Page.sendInitialState.
    pose proof (sendInitialRounds_bound (take 3 tries) c) as [H1 H2].
    rewrite length_take in H1, H2. lia.
  - intros page rest c. unfold Page.sendInitialState. simpl.
    unfold Page.sendPageStateVia, Content.sendPageState.
    by destruct (negb _ || _).
  - intros page1 failure page2 reply2 rest c Hfresh Hsame.
    unfold Page.sendInitialState. simpl.
    unfold Page.sendPageStateVia at 1. rewrite Hfresh. simpl.
    unfold Page.sendPageStateVia. simpl. rewrite Hsame.
    rewrite bool_decide_true by done. simpl.
    unfold Content.sendPageState. by rewrite Hfresh.
Qed.

Lemma initial_state_is_not_sent_again_after_a_failed_send_witness :
  Content.isInitialStateSet Content.create = false
  ∧ Content.hashState Scenario.pageA = Content.hashState Scenario.pageA
  ∧ Page.sendInitialState
      [(Scenario.pageA, Some "Receiving end does not exist.");
       (Scenario.pageA, None); (Scenario.pageA, None)] Content.create
    = (2, Content.sendPageState Scenario.pageA Content.create)
  ∧ Content.sent (Content.sendPageState Scenario.pageA Content.create)
    = Content.sent Content.create ++ [Scenario.pageA].
Proof.
  split; [reflexivity|]. split; [reflexivity|].
  exact (proj2 (proj2 initial_state_is_not_sent_again_after_a_failed_send)
           Scenario.pageA "Receiving end does not exist." Scenario.pageA None
           [(Scenario.pageA, None)] Content.create eq_refl eq_refl).
Defined.

Section ListenerFacts.
Import Content Page.

Lemma snoc_ne {A} (l : list A) x : l ++ [x] ≠ l.
Proof.
  intros H. apply (f_equal length) in H. rewrite length_app in H. simpl in H. lia.
Qed.

(** The two ways [sendPageState] ends: the page state goes out and the
    runtime's error, if any, is thrown; or nothing is sent. *)
Lemma send_cases lastError page c :
  (sendPageStateVia lastError page c = (LastError <$> lastError, sendPageState page c)
   ∧ sent (sendPageState page c) = sent c ++ [page])
  ∨ (sendPageStateVia lastError page c = (None, c) ∧ sendPageState page c = c).
Proof.
  unfold sendPageStateVia, sendPageState. destruct (negb _ || _); auto.
Qed.

(** What [processMessage] answers after its last send. *)
Lemma after_send lastError page c :
  let after :=
    match sendPageStateVia lastError page c with
    | (None, c2) => (mkReply true None, c2)
    | (Some e, c2) => (answerOf e, c2)
    end in
  after.2 = sendPageState page c
  ∧ (sent (sendPageState page c) = sent c ∨ lastError = None →
     after.1 = mkReply true None)
  ∧ (sent (sendPageState page c) ≠ sent c → is_Some lastError →
     after.1 = mkReply false (Some "Unknown error"))
  ∧ (ok after.1 = true →
     err after.1 = None
     ∧ (sent (sendPageState page c) = sent c ∨ lastError = None)).
Proof.
  destruct (send_cases lastError page c) as [[Hv Hs]|[Hv Hs]]; rewrite Hv; simpl.
  - destruct lastError as [m|]; simpl.
    + split; [done|]. split.
      { intros [H|H]; [|done]. rewrite Hs in H. by apply snoc_ne in H. }
      split; [done|]. done.
    + split; [done|]. split; [done|]. split; [by intros _ []|]. auto.
  - rewrite Hs. split; [done|]. split; [done|]. split; [done|]. auto.
Qed.

End ListenerFacts.

(** X21. The message listener of the content script: the type of a message
    is matched without regard to case; a message of any other type is
    answered with success false and "Unknown action type:" followed by the
    type as it was sent, and a command whose handler fails with the
    handler's error message, in both cases without a page state being sent.
    After a handler that succeeded the page state is sent, unless its
    fingerprint is the stored one; the answer is success when nothing was
    sent or the runtime accepted the send, and success false with "Unknown
    error", the runtime's own message being lost, when the runtime reported
    the send as failed. [get_page_state] sends the page state as it is
    (under the same condition), answers "Unknown error" without a second
    send when that send failed, and otherwise goes on as after a command.
    So the response says success only for a known type whose handler
    succeeded and with no send reported as failed. *)
Theorem listener_reply_tells_whether_a_send_failed :
  (∀ type w c,
     Extractor.toLowerCase type ∉ "get_page_state" :: Page.commands →
     Page.processMessage type w c
     = (Page.mkReply false (Some ("Unknown action type: " +:+ type)), c))
  ∧ (∀ type w c e,
       Extractor.toLowerCase type ∈ Page.commands →
       Page.handler w = Rejected e →
       Page.processMessage type w c = (Page.mkReply false (Some (message_of e)), c))
  ∧ (∀ type w c u,
       Extractor.toLowerCase type ∈ Page.commands →
       Page.handler w = Fulfilled u →
       let c' := Content.sendPageState (Page.pageAfter w) c in
       (Page.processMessage type w c).2 = c'
       ∧ (Content.sent c' = Content.sent c ∨ Content.sent c' = Content.sent c ++ [Page.pageAfter w])
       ∧ (Content.sent c' = Content.sent c ∨ Page.replyAfter w = None →
          (Page.processMessage type w c).1 = Page.mkReply true None)
       ∧ (Content.sent c' ≠ Content.sent c → is_Some (Page.replyAfter w) →
          (Page.processMessage type w c).1 = Page.mkReply false (Some "Unknown error")))
  ∧ (∀ type w c,
       Extractor.toLowerCase type = "get_page_state" →
       let c1 := Content.sendPageState (Page.pageAtCommand w) c in
       let c2 := Content.sendPageState (Page.pageAfter w) c1 in
       (Content.sent c1 ≠ Content.sent c → is_Some (Page.replyAtCommand w) →
        Page.processMessage type w c
        = (Page.mkReply false (Some "Unknown error"), c1))
       ∧ (Content.sent c1 = Content.sent c ∨ Page.replyAtCommand w = None →
          (Page.processMessage type w c).2 = c2
          ∧ (Content.sent c2 = Content.sent c1 ∨ Page.replyAfter w = None →
             (Page.processMessage type w c).1 = Page.mkReply true None)
          ∧ (Content.sent c2 ≠ Content.sent c1 → is_Some (Page.replyAfter w) →
             (Page.processMessage type w c).1
             = Page.mkReply false (Some "Unknown error"))))
  ∧ (∀ type w c,
       Page.ok (Page.processMessage type w c).1 = true →
       let command := Extractor.toLowerCase type in
       let c1 := Content.sendPageState (Page.pageAtCommand w) c in
       Page.err (Page.processMessage type w c).1 = None
       ∧ ((command = "get_page_state"
           ∧ (Content.sent c1 = Content.sent c ∨ Page.replyAtCommand w = None)
           ∧ (Content.sent (Content.sendPageState (Page.pageAfter w) c1) = Content.sent c1
              ∨ Page.replyAfter w = None))
          ∨ (command ∈ Page.commands
             ∧ Page.handler w = Fulfilled ()
             ∧ (Content.sent (Content.sendPageState (Page.pageAfter w) c) = Content.sent c
                ∨ Page.replyAfter w = None)))).
Proof.
  assert ("get_page_state" ∉ Page.commands) as Hgps.
  { unfold Page.commands. rewrite !not_elem_of_cons.
    repeat split; try discriminate. apply not_elem_of_nil. }
  split; [|split; [|split; [|split]]].
  - intros type w c Hty. apply not_elem_of_cons in Hty as [H1 H2].
    unfold Page.processMessage. rewrite decide_False by done.
    by rewrite decide_False by done.
  - intros type w c e Hty Hh. unfold Page.processMessage.
    rewrite decide_False by (intros Heq; rewrite Heq in Hty; by apply Hgps).
    rewrite decide_True by done. by rewrite Hh.
  - intros type w c u Hty Hh c'. unfold Page.processMessage.
    rewrite decide_False by (intros Heq; rewrite Heq in Hty; by apply Hgps).
    rewrite decide_True by done. rewrite Hh.
    destruct (after_send (Page.replyAfter w) (Page.pageAfter w) c)
      as (H2 & Hok & Hbad & _).
    split; [exact H2|]. split; [|split; [exact Hok|exact Hbad]].
    destruct (send_cases None (Page.pageAfter w) c) as [[_ Hs]|[_ Hs]]; [by right|].
    left. subst c'. by rewrite Hs.
  - intros type w c Hty c1 c2. unfold Page.processMessage.
    rewrite decide_True by done.
    destruct (send_cases (Page.replyAtCommand w) (Page.pageAtCommand w) c)
      as [[Hv Hs]|[Hv Hs]]; rewrite Hv; fold c1 in Hs |- *.
    + destruct (Page.replyAtCommand w) as [m|]; simpl.
      * split; [done|]. intros [H|H]; [|done]. rewrite Hs in H. by apply snoc_ne in H.
      * split; [by intros _ []|]. intros _.
        destruct (after_send (Page.replyAfter w) (Page.pageAfter w) c1)
          as (H2 & Hok & Hbad & _).
        split; [exact H2|]. split; [exact Hok|exact Hbad].
    + clearbody c1. subst c1. split; [done|]. intros _.
      destruct (after_send (Page.replyAfter w) (Page.pageAfter w) c)
        as (H2 & Hok & Hbad & _).
      split; [exact H2|]. split; [exact Hok|exact Hbad].
  - intros type w c Hok command c1. revert Hok. unfold Page.processMessage.
    fold command. case_decide as H1.
    + destruct (send_cases (Page.replyAtCommand w) (Page.pageAtCommand w) c)
        as [[Hv Hs]|[Hv Hs]]; rewrite Hv; fold c1 in Hs |- *.
      * destruct (Page.replyAtCommand w) as [m|]; simpl; [done|].
        intros Hok.
        destruct (after_send (Page.replyAfter w) (Page.pageAfter w) c1)
          as (_ & _ & _ & Hfin).
        destruct (Hfin Hok) as [He Hn]. split; [exact He|]. left. auto.
      * clearbody c1. subst c1. intros Hok.
        destruct (after_send (Page.replyAfter w) (Page.pageAfter w) c)
          as (_ & _ & _ & Hfin).
        destruct (Hfin Hok) as [He Hn]. split; [exact He|]. left.
        split; [done|]. split; [by left|exact Hn].
    + case_decide as H2; [|done].
      destruct (Page.handler w) as [[]|e] eqn:Hh; [|done].
      intros Hok.
      destruct (after_send (Page.replyAfter w) (Page.pageAfter w) c)
        as (_ & _ & _ & Hfin).
      destruct (Hfin Hok) as [He Hn]. split; [exact He|]. right. auto.
Qed.

Lemma listener_reply_tells_whether_a_send_failed_witness :
  Extractor.toLowerCase "Click" ∈ Page.commands
  ∧ Page.handler Cases.undelivered = Fulfilled ()
  ∧ Content.sent (Content.sendPageState (Page.pageAfter Cases.undelivered) Content.create)
    ≠ Content.sent Content.create
  ∧ is_Some (Page.replyAfter Cases.undelivered)
  ∧ (Page.processMessage "Click" Cases.undelivered Content.create).1
    = Page.mkReply false (Some "Unknown error").
Proof.
  assert (Extractor.toLowerCase "Click" ∈ Page.commands) as H
    by (vm_compute; repeat constructor).
  assert (Content.sent (Content.sendPageState (Page.pageAfter Cases.undelivered)
                          Content.create)
          ≠ Content.sent Content.create) as Hsent by (vm_compute; discriminate).
  assert (is_Some (Page.replyAfter Cases.undelivered)) as Hr by (by eexists).
  split; [exact H|]. split; [reflexivity|]. split; [exact Hsent|]. split; [exact Hr|].
  exact (proj2 (proj2 (proj2 (proj1 (proj2 (proj2 listener_reply_tells_whether_a_send_failed))
           "Click" Cases.undelivered Content.create () H eq_refl))) Hsent Hr).
Defined.

(** X22. The mutation observer of the content script is debounced: batches
    of mutations of which each holds a significant one and that follow each
    other by less than 500 ms send nothing while they arrive and leave one
    timer armed for 500 ms after the last batch; before that time nothing
    is sent, and when the timer fires [sendPageState] runs once, on the page
    as it is then. *)
Theorem mutation_bursts_send_one_page_state :
  ∀ pageAt c t0 batch0 rest tl batchl,
    Content.debounceTimeout c = None →
    Page.closeTogether t0 rest →
    Forall (λ ev, existsb (Content.significant c) ev.2 = true) ((t0, batch0) :: rest) →
    last ((t0, batch0) :: rest) = Some (tl, batchl) →
    let c1 := Page.run pageAt ((t0, batch0) :: rest) c in
    Content.sent c1 = Content.sent c
    ∧ Content.lastStateHash c1 = Content.lastStateHash c
    ∧ Content.debounceTimeout c1 = Some (tl + 500)%Z
    ∧ (∀ now page, (now < tl + 500)%Z → Content.advance now page c1 = c1)
    ∧ (∀ now page, (tl + 500 ≤ now)%Z →
         Content.advance now page c1 = Content.sendPageState page c
         ∧ Content.debounceTimeout (Content.advance now page c1) = None).
Proof.
  intros pageAt c t0 batch0 rest tl batchl Hnone Hclose Hsig Hlast c1.
  apply Forall_cons in Hsig as [H0 Hsig]. simpl in H0.
  assert (c1 = Content.mkContent (Some (tl + 500)%Z) (Content.lastStateHash c)
                 (Content.isInitialStateSet c) (Content.sent c)) as ->.
  { subst c1. simpl Page.run. unfold Page.step. rewrite Hnone. simpl default.
    unfold Content.advance at 1. rewrite Hnone.
    rewrite handleDOMChanges_arms by done.
    rewrite (run_close pageAt rest t0); [| done | done |]; simpl.
    - do 2 f_equal. rewrite last_cons in Hlast.
      destruct (last rest) as [[t b]|]; simpl; by simplify_eq.
    - eapply Forall_impl; [exact Hsig|]. intros ev Hev.
      by rewrite (existsb_significant_same c). }
  simpl. repeat split; try done.
  - intros now page Hnow. unfold Content.advance. simpl. by rewrite decide_False by lia.
  - unfold Content.advance. simpl. rewrite decide_True by lia.
    unfold Content.sendPageState. simpl. by destruct (negb _ || _), c; simplify_eq/=.
  - unfold Content.advance. simpl. rewrite decide_True by lia.
    unfold Content.sendPageState. simpl. by destruct (negb _ || _).
Qed.

Lemma mutation_bursts_send_one_page_state_witness :
  let events := [(0%Z, [Cases.newChild]); (300%Z, [Cases.newChild]);
                 (700%Z, [Cases.newChild])] in
  let c1 := Page.run (λ _, Scenario.pageA) events Content.create in
  Content.sent c1 = Content.sent Content.create
  ∧ Content.lastStateHash c1 = Content.lastStateHash Content.create
  ∧ Content.debounceTimeout c1 = Some (700 + 500)%Z
  ∧ (∀ now page, (now < 700 + 500)%Z → Content.advance now page c1 = c1)
  ∧ (∀ now page, (700 + 500 ≤ now)%Z →
       Content.advance now page c1 = Content.sendPageState page Content.create
       ∧ Content.debounceTimeout (Content.advance now page c1) = None).
Proof.
  intros events c1.
  refine (mutation_bursts_send_one_page_state (λ _, Scenario.pageA) Content.create
            0%Z [Cases.newChild]
            [(300%Z, [Cases.newChild]); (700%Z, [Cases.newChild])]
            700%Z [Cases.newChild] eq_refl _ _ eq_refl).
  - simpl. lia.
  - repeat constructor.
Defined.

(* ====================================================================== *)
(** * The stored text of the AI client *)

Section StoredFacts.
Import Parser AIClient.

Lemma markLastFailed_length h : length (markLastFailed h) = length h.
Proof. unfold markLastFailed. destruct (length h) eqn:Hl; [done|]. by rewrite length_alter. Qed.

End StoredFacts.

(** X23. The stored text of the AI client has one writer and one end: a
    call of [getNextAction] that throws (no provider, a provider error, an
    unparsable answer, a STORE or PRINT without text) leaves the stored text
    as it was and adds no history entry; an answer of type COMPLETE or
    FAILED empties it; a STORE returns the new stored text with the
    response; and an answer of any other type, PRINT included, leaves the
    stored text alone and returns no stored data. *)
Theorem stored_text_is_written_by_store_and_cleared_at_the_end :
  ∀ now answer c,
    match AIClient.getNextAction now answer c with
    | (Rejected _, c') =>
        AIClient.currentStoredData c' = AIClient.currentStoredData c
        ∧ length (AIClient.actionHistory c') = length (AIClient.actionHistory c)
    | (Fulfilled r, c') =>
        ∃ a, action r = Some a
             ∧ (type a = "COMPLETE" ∨ type a = "FAILED" →
                AIClient.currentStoredData c' = "")
             ∧ (type a = "STORE" →
                sd_text <$> storedData r = Some (AIClient.currentStoredData c'))
             ∧ (type a ≠ "STORE" → type a ≠ "COMPLETE" → type a ≠ "FAILED" →
                AIClient.currentStoredData c' = AIClient.currentStoredData c
                ∧ storedData r = None)
    end.
Proof.
  intros now answer c. unfold AIClient.getNextAction.
  destruct answer as [|e|raw]; [simpl; split; [done|apply markLastFailed_length]..|].
  destruct raw as [| |[[[ty pl]|] rs]]; simpl; [simpl; split; [done|apply markLastFailed_length]..| |];
    [|(simpl; split; [done|apply markLastFailed_length])].
  destruct (Parser.truthy ty) as [t|]; simpl; [|(simpl; split; [done|apply markLastFailed_length])].
  unfold AIClient.handleParsed. simpl.
  destruct (decide (t = "STORE")) as [Hs|Hs].
  { destruct pl as [pl|]; simpl; [|(simpl; split; [done|apply markLastFailed_length])].
    destruct (text pl); simpl; [|(simpl; split; [done|apply markLastFailed_length])].
    eexists. split; [done|]. simpl. rewrite Hs. repeat split; try done.
    intros [H|H]; discriminate. }
  destruct (decide (t = "PRINT")) as [Hp|Hp].
  { destruct pl as [pl|]; simpl; [|(simpl; split; [done|apply markLastFailed_length])].
    destruct (text pl); simpl; [|(simpl; split; [done|apply markLastFailed_length])].
    eexists. split; [done|]. simpl. rewrite Hp. repeat split; try done.
    intros [H|H]; discriminate. }
  case_decide as Ht; simpl; eexists; (split; [done|]); simpl;
    repeat split; try done; intros; by destruct Ht; auto.
Qed.

(* ====================================================================== *)
(** * The task history of the popup *)

Section HistoryFacts2.
Import History.
Context (reasonOf : string → option (option string)).

Lemma entry_hidden log : hidden log ↔ entry reasonOf log = None.
Proof.
  destruct log as [k [m|] t|l]; simpl; [|done..].
  case_bool_decide as Hm; simpl.
  { split; [done|]. by left. }
  destruct (String.prefix "AI Response:" m); simpl.
  { split; [done|]. intros _. right. by left. }
  destruct (String.prefix "AI Reasoning:" m); simpl.
  { split; [done|]. intros _. right. by right. }
  split; [|done]. by intros [?|[?|?]].
Qed.

Lemma actionLogs_snoc task task' log :
  logs task' = logs task ++ [log] →
  actionLogs reasonOf task'
  = option_list (entry reasonOf log) ++ actionLogs reasonOf task.
Proof.
  intros H. unfold actionLogs. rewrite H, omap_app, reverse_app. simpl.
  by destruct (entry reasonOf log).
Qed.

Lemma omap_length_le {A B} (f : A → option B) l : length (omap f l) ≤ length l.
Proof. induction l as [|x l IH]; csimpl; [done|]. destruct (f x); csimpl; lia. Qed.

End HistoryFacts2.

(** X24. What the task history shows of a task's logs: an entry that is a
    plain string, has no or an empty message, or whose message starts with
    "AI Response:" or "AI Reasoning:" is never shown, and every other entry
    is shown once, with its kind and timestamp; the entries are shown newest
    first, so a line pushed onto the logs appears on top or not at all, and
    the lines the error-counter service pushes as plain strings never
    appear. The spinner is shown on the first entry only, and only while
    the status is running; there it takes the place of the error mark. *)
Theorem task_history_shows_newest_first_and_hides_plain_lines :
  ∀ reasonOf,
    (∀ log, History.hidden log ↔ History.entry reasonOf log = None)
    ∧ (∀ log e, History.entry reasonOf log = Some e →
         ∃ m, log = LogObject (History.kind e) (Some m) (History.timestamp e))
    ∧ (∀ task log,
         History.actionLogs reasonOf (Budget.pushLog log task)
         = option_list (History.entry reasonOf log) ++ History.actionLogs reasonOf task)
    ∧ (∀ task line,
         History.actionLogs reasonOf (Budget.pushLog (LogString line) task)
         = History.actionLogs reasonOf task)
    ∧ (∀ task, Forall History.hidden (logs task) → History.actionLogs reasonOf task = [])
    ∧ (∀ task, length (History.actionLogs reasonOf task) ≤ length (logs task))
    ∧ (∀ task i, History.icons reasonOf task !! S i ≠ Some History.Loader)
    ∧ (∀ task i, status task ≠ SRunning →
         History.icons reasonOf task !! i ≠ Some History.Loader)
    ∧ (∀ task e, status task = SRunning →
         head (History.actionLogs reasonOf task) = Some e →
         head (History.icons reasonOf task) = Some History.Loader).
Proof.
  intros reasonOf. split; [apply entry_hidden|]. split; [|split; [|split]].
  - intros [k [m|] t|l] e; simpl; [|done..].
    destruct (_ && _); [|done]. intros [= <-]. by eexists.
  - intros task log. by apply actionLogs_snoc.
  - intros task line. by rewrite (actionLogs_snoc reasonOf task _ (LogString line)).
  - split; [|split; [|split; [|split]]].
    + intros task Hall. unfold History.actionLogs.
      induction Hall as [|log l Hlog Hall IH]; [done|]. simpl.
      apply (entry_hidden reasonOf) in Hlog. rewrite Hlog. exact IH.
    + intros task. unfold History.actionLogs. rewrite length_reverse.
      apply omap_length_le.
    + intros task i. unfold History.icons. rewrite list_lookup_imap.
      destruct (History.actionLogs reasonOf task !! S i) as [e|]; [|done]. simpl.
      unfold History.icon. destruct (status task), (History.kind e); done.
    + intros task i Hrun. unfold History.icons. rewrite list_lookup_imap.
      destruct (History.actionLogs reasonOf task !! i) as [e|]; [|done]. simpl.
      unfold History.icon. destruct (status task), i, (History.kind e); done.
    + intros task e Hrun He. unfold History.icons.
      destruct (History.actionLogs reasonOf task) as [|e' l]; [done|]. simpl.
      unfold History.icon. by rewrite Hrun.
Qed.

Lemma task_history_shows_newest_first_and_hides_plain_lines_witness :
  let reasonOf : string → option (option string) := λ _, None in
  let task := Budget.executionState Scenario.budgetBusy in
  Forall History.hidden (logs task) ∧ History.actionLogs reasonOf task = [].
Proof.
  intros reasonOf task.
  assert (Forall History.hidden (logs task)) as H by (repeat constructor).
  split; [exact H|].
  exact (proj1 (proj2 (proj2 (proj2 (proj2
           (task_history_shows_newest_first_and_hides_plain_lines reasonOf)))))
           task H).
Defined.
